(** * puzzle_solver: the cascaded region-matching engine

  A shallow embedding of the matching pipeline of the repository:

  - [src/models/feature_extractor.py]   grid decomposition and the
    zero-vector fallbacks of the descriptor extractors,
  - [src/services/puzzle_service.py]    the descriptor store,
  - [src/services/matching_service.py]  the colour / shape / embedding
    cascade, the four-rotation search and the ranking,
  - [src/api/routes.py]                 the shaping of the response.

  Python floats are idealised as real numbers: every arithmetic operation
  is exact, there is no NaN and no rounding except the explicit
  [round(confidence, 1)].  Exceptions are values of [result]; each
  [try/except] of the source is a [try_except] here.  Library routines
  whose algorithm lives outside the repository (OpenCV's [compareHist],
  SciPy's [cosine], Pillow, the ResNet model, request parsing) are the
  fields of the class [External]; the file system is an explicit
  argument. *)

From Stdlib Require Import Reals Lra Lia ZArith List String Bool.
From Stdlib Require Import Permutation Sorted DecimalString.
Import ListNotations.

Set Implicit Arguments.

(* ================================================================== *)
(** ** Python: exceptions, [range], slices, [round] *)
(* ================================================================== *)

Module Py.

(** The outcome of a computation that may raise. *)
Inductive result (A : Type) : Type :=
| Ok (a : A)
| Raise (msg : string).
Arguments Ok {A} a.
Arguments Raise {A} msg.

Definition bind {A B} (m : result A) (k : A -> result B) : result B :=
  match m with
  | Ok a => k a
  | Raise e => Raise e
  end.

(** [try: body  except Exception as e: handler e] where both branches
    return. *)
Definition try_except {A} (body : result A) (handler : string -> A) : A :=
  match body with
  | Ok a => a
  | Raise e => handler e
  end.

(** [try: body  except Exception: log; raise]. *)
Definition try_reraise {A} (body : result A) : result A := body.

(** [range(start, stop, step)] for a positive [step]: CPython computes the
    length first, then steps from [start]. *)
Definition range_len (start stop step : Z) : nat :=
  Z.to_nat ((stop - start + step - 1) / step).

Fixpoint range_from (start step : Z) (n : nat) : list Z :=
  match n with
  | O => []
  | S n' => start :: range_from (start + step) step n'
  end.

Definition range (start stop step : Z) : list Z :=
  range_from start step (range_len start stop step).

(** [l[:k]]: a negative bound counts from the end. *)
Definition slice_to {A} (k : Z) (l : list A) : list A :=
  if (0 <=? k)%Z then firstn (Z.to_nat k) l
  else firstn (Z.to_nat (Z.of_nat (List.length l) + k)) l.

(** [l[1:]]. *)
Definition slice_from1 {A} (l : list A) : list A := tl l.

Open Scope R_scope.

(** Nearest integer, ties to the even neighbour. *)
Definition round_half_even (r : R) : Z :=
  let f := Int_part r in
  let d := r - IZR f in
  if Rlt_dec d (1 / 2) then f
  else if Rlt_dec (1 / 2) d then (f + 1)%Z
  else if Z.even f then f else (f + 1)%Z.

(** [round(x, 1)]. *)
Definition round1 (x : R) : R := IZR (round_half_even (x * 10)) / 10.

(** [max(0.0, min(1.0, x))]. *)
Definition clamp01 (x : R) : R := Rmax 0 (Rmin 1 x).

End Py.

Import Py.

Declare Scope py_scope.
Delimit Scope py_scope with py.
Notation "x <- m ;; k" := (Py.bind m (fun x => k))
(at level 61, m at next level, right associativity) : py_scope.

(* ================================================================== *)
(** ** NumPy: one-dimensional arrays *)
(* ================================================================== *)

Module Np.

Open Scope R_scope.

Definition vec := list R.

(** [np.zeros(n)]. *)
Definition zeros (n : nat) : vec := repeat 0 n.

Fixpoint zip_sub (a b : vec) : vec :=
  match a, b with
  | x :: a', y :: b' => (x - y) :: zip_sub a' b'
  | _, _ => []
  end.

(** [a - b] on one-dimensional arrays: equal lengths, or a length-one
    operand that is broadcast; any other pair of shapes raises. *)
Definition sub (a b : vec) : result vec :=
  if Nat.eqb (List.length a) (List.length b) then Ok (zip_sub a b)
  else match a, b with
       | [x], _ => Ok (map (fun y => x - y) b)
       | _, [y] => Ok (map (fun x => x - y) a)
       | _, _ => Raise "operands could not be broadcast together"
       end.

Definition sum_sq (a : vec) : R := fold_right (fun x acc => x * x + acc) 0 a.

(** [np.linalg.norm(a)]. *)
Definition norm (a : vec) : R := sqrt (sum_sq a).

(** [a / s]. *)
Definition scale_div (a : vec) (s : R) : vec := map (fun x => x / s) a.

End Np.

Import Np.

(* ================================================================== *)
(** ** Data model: the dictionaries exchanged by the services *)
(* ================================================================== *)

(** The ['shape'] dictionary.  The matcher reads it with [dict.get], so a
    key may be absent. *)
Record Shape := mkShape {
  edge_hist : option vec;
  hu_moments : option vec
}.

(** The feature dictionary of an image area. *)
Record Features := mkFeatures {
  color_hist : vec;
  shape : Shape;
  deep_features : vec
}.

(** A region of the puzzle: its features plus the location keys. *)
Record Region := mkRegion {
  region_features : Features;
  region_x : Z;
  region_y : Z;
  region_width : Z;
  region_height : Z
}.

(** The value pickled to [features.pkl]. *)
Record PuzzleFeatures := mkPuzzleFeatures {
  regions : list Region;
  grid_size : Z * Z
}.

(** The part of [metadata.json] the matcher reads. *)
Record Metadata := mkMetadata {
  puzzle_id_of : string;
  name_of : string;
  dimensions_width : Z;
  dimensions_height : Z
}.

Record Location := mkLocation {
  loc_x : Z;
  loc_y : Z;
  loc_width : Z;
  loc_height : Z
}.

(** A match dictionary, as built in [_match_piece_to_puzzle]. *)
Record Match := mkMatch {
  confidence : R;
  location : Location;
  rotation_needed : Z;
  description : string
}.

(* ================================================================== *)
(** ** Capabilities outside the repository *)
(* ================================================================== *)

(** What the services call but do not implement.  A [result] is returned
    where the library routine can raise. *)
Class External := {
  Array : Type;
  Image : Type;
  PieceBytes : Type;
  PieceFile : Type;
  (** [np.array(image)], [array.shape[:2]], [array[y:y+w, x:x+w]] *)
  np_array : Image -> result Array;
  array_shape : Array -> Z * Z;
  crop : Array -> Z -> Z -> Z -> Array;
  (** [seek(0)], [Image.open], [convert('RGB')], [resize((512, 512))] *)
  image_open : PieceBytes -> result Image;
  (** [image.rotate(angle, expand=True)] *)
  image_rotate : Image -> Z -> result Image;
  (** the bodies of the three [try] blocks of the extractors *)
  cv_color_hist : Array -> result vec;
  cv_shape : Array -> result (vec * vec);
  resnet_features : Array -> result vec;
  (** [cv2.compareHist(h1, h2, cv2.HISTCMP_CORREL)] *)
  compareHist : vec -> vec -> result R;
  (** [scipy.spatial.distance.cosine] *)
  cosine : vec -> vec -> result R;
  (** request handling of the route *)
  validate_piece_upload : PieceFile -> bool * string;
  file_read : PieceFile -> result PieceBytes;
  check_image_quality : PieceBytes -> bool * string * R
}.

(* ================================================================== *)
(** ** [FeatureExtractor] (src/models/feature_extractor.py) *)
(* ================================================================== *)

Section FeatureExtractor.

Context {E : External}.

Definition _extract_color_histogram (image_array : Array) : vec :=
  try_except (cv_color_hist image_array)
             (fun _ => zeros (30 * 32 * 32)).

Definition _extract_shape_features (image_array : Array) : Shape :=
  try_except
    (p <- cv_shape image_array ;;
     Ok {| edge_hist := Some (fst p); hu_moments := Some (snd p) |})%py
    (fun _ => {| edge_hist := Some (zeros 16); hu_moments := Some (zeros 7) |}).

Definition _extract_deep_features (image_array : Array) : vec :=
  try_except (resnet_features image_array)
             (fun _ => zeros 2048).

Definition _extract_region_features (image_array : Array) : Features :=
  {| color_hist := _extract_color_histogram image_array;
     shape := _extract_shape_features image_array;
     deep_features := _extract_deep_features image_array |}.

Definition extract_piece_features (piece_image : Image) : result Features :=
  try_reraise
    (piece_array <- np_array piece_image ;;
     Ok (_extract_region_features piece_array))%py.

Definition window_size : Z := 100.
Definition overlap : Z := 50.
Definition step : Z := window_size - overlap.

(** The sliding-window double loop: [y] outside, [x] inside. *)
Definition grid_regions (puzzle_array : Array) (height width : Z) : list Region :=
  flat_map
    (fun y =>
       map (fun x =>
              let region_array := crop puzzle_array y x window_size in
              {| region_features := _extract_region_features region_array;
                 region_x := x;
                 region_y := y;
                 region_width := window_size;
                 region_height := window_size |})
           (range 0 (width - window_size + 1) step))
    (range 0 (height - window_size + 1) step).

Definition extract_puzzle_features (puzzle_image : Image) : result PuzzleFeatures :=
  try_reraise
    (puzzle_array <- np_array puzzle_image ;;
     let '(height, width) := array_shape puzzle_array in
     let regions := grid_regions puzzle_array height width in
     let rows := ((height - window_size) / step + 1)%Z in
     let cols := ((width - window_size) / step + 1)%Z in
     Ok {| regions := regions; grid_size := (rows, cols) |})%py.

End FeatureExtractor.

(* ================================================================== *)
(** ** [PuzzleService] (src/services/puzzle_service.py) *)
(* ================================================================== *)

(** The files the service reads, by path: [None] when [os.path.exists] is
    false, otherwise what loading the file gives. *)
Record FileSystem := mkFileSystem {
  pickle_files : string -> option (result PuzzleFeatures);
  json_files : string -> option (result Metadata)
}.

Section PuzzleService.

Variable puzzle_folder : string.
Variable fs : FileSystem.

(** [os.path.join(a, b)]. *)
Definition path_join (a b : string) : string := (a ++ "/" ++ b)%string.

Definition get_puzzle (puzzle_id : string) : option Metadata :=
  try_except
    (let puzzle_dir := path_join puzzle_folder puzzle_id in
     let metadata_path := path_join puzzle_dir "metadata.json" in
     match json_files fs metadata_path with
     | None => Ok None
     | Some loaded =>
         metadata <- loaded ;;
         Ok (Some metadata)
     end)%py
    (fun _ => None).

(** The two URL keys that [get_puzzle] adds to the metadata are not read by
    the matcher and are left out. *)

Definition get_puzzle_features_path (puzzle_id : string) : option string :=
  let puzzle_dir := path_join puzzle_folder puzzle_id in
  let features_path := path_join puzzle_dir "features.pkl" in
  match pickle_files fs features_path with
  | Some _ => Some features_path
  | None => None
  end.

(** [FeatureExtractor.load_features]: unpickle, re-raising any error. *)
Definition load_features (filepath : string) : result PuzzleFeatures :=
  try_reraise
    (match pickle_files fs filepath with
     | Some loaded => loaded
     | None => Raise "No such file or directory"
     end).

Definition load_puzzle_features (puzzle_id : string) : option PuzzleFeatures :=
  try_except
    (match get_puzzle_features_path puzzle_id with
     | None => Ok None
     | Some features_path =>
         features <- load_features features_path ;;
         Ok (Some features)
     end)%py
    (fun _ => None).

End PuzzleService.

(* ================================================================== *)
(** ** [list.sort(key=..., reverse=True)] *)
(* ================================================================== *)

Section Sort.

Variable A : Type.
Variable key : A -> R.

(** Stable insertion: [a] goes in front of the first element whose key is
    not strictly greater, hence in front of the elements that tie with it. *)
Fixpoint insert_desc (a : A) (l : list A) : list A :=
  match l with
  | [] => [a]
  | h :: t => if Rlt_dec (key a) (key h) then h :: insert_desc a t
              else a :: h :: t
  end.

(** Python's sort is stable, also with [reverse=True]: elements with equal
    keys keep the order they had in the input. *)
Fixpoint sort_reverse (l : list A) : list A :=
  match l with
  | [] => []
  | a :: l' => insert_desc a (sort_reverse l')
  end.

(** The order of the result, and the test that selects one key value. *)
Definition key_ge (a b : A) : Prop := (key a >= key b)%R.

Definition key_eqb (c : R) (a : A) : bool :=
  if Req_dec_T (key a) c then true else false.

End Sort.

(* ================================================================== *)
(** ** [MatchingService] (src/services/matching_service.py) *)
(* ================================================================== *)

(** The three stages of the cascade, recorded as they are evaluated. *)
Inductive Stage := ColorStage | ShapeStage | DeepStage.

(** [str.capitalize]. *)
Definition upper_ascii (c : Ascii.ascii) : Ascii.ascii :=
  let n := Ascii.nat_of_ascii c in
  if ((97 <=? n) && (n <=? 122))%nat then Ascii.ascii_of_nat (n - 32) else c.

Definition lower_ascii (c : Ascii.ascii) : Ascii.ascii :=
  let n := Ascii.nat_of_ascii c in
  if ((65 <=? n) && (n <=? 90))%nat then Ascii.ascii_of_nat (n + 32) else c.

Fixpoint lower_string (s : string) : string :=
  match s with
  | EmptyString => EmptyString
  | String c s' => String (lower_ascii c) (lower_string s')
  end.

Definition capitalize (s : string) : string :=
  match s with
  | EmptyString => EmptyString
  | String c s' => String (upper_ascii c) (lower_string s')
  end.

(** [PuzzleService(puzzle_folder='saved_puzzles')]: the services are built
    with the default folder. *)
Definition saved_puzzles : string := "saved_puzzles".

Section MatchingService.

Context {E : External}.
Variable fs : FileSystem.

Open Scope R_scope.

Definition _compare_color_histograms (hist1 hist2 : vec) : R :=
  try_except
    (correlation <- compareHist hist1 hist2 ;;
     let similarity := (correlation + 1) / 2 in
     Ok (Rmax 0 (Rmin 1 similarity)))%py
    (fun _ => 0).

(** The first [if/else] of [_compare_shape_features]. *)
Definition edge_similarity_of (shape1 shape2 : Shape) : result R :=
  let edge_hist1 := edge_hist shape1 in
  let edge_hist2 := edge_hist shape2 in
  match edge_hist1, edge_hist2 with
  | Some edge_hist1, Some edge_hist2 =>
      (edge_correlation <- compareHist edge_hist1 edge_hist2 ;;
       Ok ((edge_correlation + 1) / 2))%py
  | _, _ => Ok 0.5
  end.

(** The second [if/else] of [_compare_shape_features]. *)
Definition hu_similarity_of (shape1 shape2 : Shape) : result R :=
  let hu1 := hu_moments shape1 in
  let hu2 := hu_moments shape2 in
  match hu1, hu2 with
  | Some hu1, Some hu2 =>
      (diff <- Np.sub hu1 hu2 ;;
       let hu_distance := norm diff in
       Ok (exp (- hu_distance)))%py
  | _, _ => Ok 0.5
  end.

Definition _compare_shape_features (shape1 shape2 : Shape) : R :=
  try_except
    (edge_similarity <- edge_similarity_of shape1 shape2 ;;
     hu_similarity <- hu_similarity_of shape1 shape2 ;;
     let similarity := (edge_similarity + hu_similarity) / 2 in
     Ok (Rmax 0 (Rmin 1 similarity)))%py
    (fun _ => 0.5).

Definition _compare_deep_features (features1 features2 : vec) : R :=
  try_except
    (let f1 := features1 in
     let f2 := features2 in
     if (Nat.eqb (List.length f1) 0 || Nat.eqb (List.length f2) 0)%bool
     then Ok 0
     else
       let f1 := scale_div f1 (norm f1 + 1e-8) in
       let f2 := scale_div f2 (norm f2 + 1e-8) in
       (distance <- cosine f1 f2 ;;
        let similarity := 1 - distance in
        Ok (Rmax 0 (Rmin 1 similarity)))%py)
    (fun _ => 0).

Definition _generate_location_description
    (region : Region) (puzzle_metadata : Metadata) (rotation_deg : Z) : string :=
  try_except
    (let width := IZR (dimensions_width puzzle_metadata) in
     let height := IZR (dimensions_height puzzle_metadata) in
     let x := IZR (region_x region) in
     let y := IZR (region_y region) in
     let h_pos :=
       if Rlt_dec x (width * 0.33) then "left"
       else if Rlt_dec x (width * 0.67) then "center"
       else "right" in
     let v_pos :=
       if Rlt_dec y (height * 0.33) then "upper"
       else if Rlt_dec y (height * 0.67) then "middle"
       else "lower" in
     let position :=
       if (String.eqb v_pos "middle" && String.eqb h_pos "center")%bool
       then "Center area"
       else if String.eqb v_pos "middle" then capitalize h_pos ++ " side"
       else if String.eqb h_pos "center" then capitalize v_pos ++ " area"
       else capitalize v_pos ++ "-" ++ h_pos ++ " quadrant" in
     let rotation_text :=
       if (rotation_deg =? 0)%Z then ""
       else if (rotation_deg =? 90)%Z then ", rotated 90° clockwise"
       else if (rotation_deg =? 180)%Z then ", rotated 180°"
       else if (rotation_deg =? 270)%Z then ", rotated 90° counter-clockwise"
       else ", rotated " ++ DecimalString.NilZero.string_of_int (Z.to_int rotation_deg) ++ "°" in
     Ok (position ++ rotation_text))%string
    (fun _ => "Unknown location"%string).

(** The weighted sum of the three stage scores. *)
Definition weighted_confidence (color_score shape_score feature_score : R) : R :=
  0.25 * color_score * 100 +
  0.25 * shape_score * 100 +
  0.50 * feature_score * 100.

(** The body of the [for region in puzzle_regions] loop: the stages it
    evaluates and the match it appends, if any. *)
Definition match_region
    (piece_features : Features) (puzzle_metadata : Metadata)
    (rotation_deg : Z) (region : Region) : list Stage * option Match :=
  let color_score :=
    _compare_color_histograms (color_hist piece_features)
                              (color_hist (region_features region)) in
  if Rlt_dec color_score 0.3 then ([ColorStage], None)
  else
    let shape_score :=
      _compare_shape_features (shape piece_features)
                              (shape (region_features region)) in
    let feature_score :=
      _compare_deep_features (deep_features piece_features)
                             (deep_features (region_features region)) in
    let confidence := weighted_confidence color_score shape_score feature_score in
    if Rge_dec confidence 40 then
      let match_ :=
        {| confidence := round1 confidence;
           location := {| loc_x := region_x region;
                          loc_y := region_y region;
                          loc_width := region_width region;
                          loc_height := region_height region |};
           rotation_needed := rotation_deg;
           description :=
             _generate_location_description region puzzle_metadata rotation_deg |} in
      ([ColorStage; ShapeStage; DeepStage], Some match_)
    else ([ColorStage; ShapeStage; DeepStage], None).

(** What one iteration appends to [matches]. *)
Definition appended (step_result : list Stage * option Match) : list Match :=
  match snd step_result with
  | Some m => [m]
  | None => []
  end.

Definition _match_piece_to_puzzle
    (piece_features : Features) (puzzle_features : PuzzleFeatures)
    (puzzle_metadata : Metadata) (rotation_deg : Z) : list Match :=
  try_except
    (let puzzle_regions := regions puzzle_features in
     Ok (flat_map
           (fun region =>
              appended (match_region piece_features puzzle_metadata rotation_deg region))
           puzzle_regions))
    (fun _ => []).

(** The stages evaluated by [_match_piece_to_puzzle], region by region. *)
Definition stages_evaluated
    (piece_features : Features) (puzzle_features : PuzzleFeatures)
    (puzzle_metadata : Metadata) (rotation_deg : Z) : list (list Stage) :=
  map (fun region => fst (match_region piece_features puzzle_metadata rotation_deg region))
      (regions puzzle_features).

(** A [for] loop whose body may raise: the first exception ends it. *)
Fixpoint for_each {X Y} (body : X -> result Y) (l : list X) : result (list Y) :=
  match l with
  | [] => Ok []
  | a :: l' =>
      (b <- body a ;;
       bs <- for_each body l' ;;
       Ok (b :: bs))%py
  end.

Definition _extract_piece_features_all_orientations
    (piece_bytes : PieceBytes) : list (Z * Features) :=
  try_except
    (piece_image <- image_open piece_bytes ;;
     results <-
       for_each
         (fun rotation_deg =>
            rotated <- (if (rotation_deg =? 0)%Z then Ok piece_image
                        else image_rotate piece_image (- rotation_deg)%Z) ;;
            features <- extract_piece_features rotated ;;
            Ok (rotation_deg, features))
         [0; 90; 180; 270]%Z ;;
     Ok results)%py
    (fun _ => []).

(** [all_matches] before sorting: the matches of every orientation, one
    orientation after the other. *)
Definition pool_matches
    (piece_features_list : list (Z * Features))
    (puzzle_features : PuzzleFeatures) (puzzle_metadata : Metadata) : list Match :=
  flat_map
    (fun '(rotation_deg, piece_features) =>
       _match_piece_to_puzzle piece_features puzzle_features puzzle_metadata rotation_deg)
    piece_features_list.

Definition find_matches
    (piece_bytes : PieceBytes) (puzzle_id : string) (top_k : Z) : list Match :=
  try_except
    (match load_puzzle_features saved_puzzles fs puzzle_id with
     | None => Ok []
     | Some puzzle_features =>
         match get_puzzle saved_puzzles fs puzzle_id with
         | None => Ok []
         | Some puzzle_metadata =>
             let piece_features_list :=
               _extract_piece_features_all_orientations piece_bytes in
             let all_matches :=
               pool_matches piece_features_list puzzle_features puzzle_metadata in
             let all_matches := sort_reverse confidence all_matches in
             let top_matches := slice_to top_k all_matches in
             Ok top_matches
         end
     end)
    (fun _ => []).

(** [top_k=5]. *)
Definition default_top_k : Z := 5.

End MatchingService.

(* ================================================================== *)
(** ** [analyze_piece] (src/api/routes.py) *)
(* ================================================================== *)

(** The JSON bodies of the route.  [processing_time] is wall-clock time
    and is left out. *)
Inductive Body :=
| Failure (error : string) (details : option string) (quality_score : option R)
| Matched (best_match : option Match) (alternatives : list Match)
          (warning : option string).

(** The ['success'] key. *)
Definition success (b : Body) : bool :=
  match b with
  | Failure _ _ _ => false
  | Matched _ _ _ => true
  end.

Definition best_match_of (b : Body) : option Match :=
  match b with
  | Failure _ _ _ => None
  | Matched best_match _ _ => best_match
  end.

Definition alternatives_of (b : Body) : list Match :=
  match b with
  | Failure _ _ _ => []
  | Matched _ alternatives _ => alternatives
  end.

Definition warning_of (b : Body) : option string :=
  match b with
  | Failure _ _ _ => None
  | Matched _ _ warning => warning
  end.

Definition no_match_warning : string :=
  "No confident match found. Please try a different piece or retake the photo.".

Definition low_confidence_warning : string :=
  "Low confidence match. This may not be accurate.".

Section Routes.

Context {E : External}.
Variable fs : FileSystem.

Open Scope R_scope.

(** [m['confidence'] >= 80] as a list-comprehension filter. *)
Definition confidence_ge_80 (m : Match) : bool :=
  if Rge_dec (confidence m) 80 then true else false.

(** "Prepare response": from [matches] to the body and status returned. *)
Definition prepare_response (matches : list Match) : Body * Z :=
  match matches with
  | [] =>
      (Matched None [] (Some no_match_warning), 200%Z)
  | best_match :: _ =>
      let alternatives :=
        if Rge_dec (confidence best_match) 80
        then filter confidence_ge_80 (slice_from1 matches)
        else [] in
      let warning :=
        if Rlt_dec (confidence best_match) 80
        then Some low_confidence_warning
        else None in
      (Matched (Some best_match) alternatives warning, 200%Z)
  end.

(** The multipart form of a request once it is parsed. *)
Record Request := mkRequest {
  files_piece : option PieceFile;
  form_puzzle_id : option string
}.

(** [incoming] is the outcome of parsing the request body, which the first
    access to [request.files] triggers inside the [try]: the parsed form,
    or the exception raised when the body is malformed or larger than the
    application's [MAX_CONTENT_LENGTH]. *)
Definition analyze_piece (incoming : result Request) : Body * Z :=
  try_except
    (request <- incoming ;;
     match files_piece request with
     | None => Ok (Failure "No piece image provided" None None, 400%Z)
     | Some piece_file =>
     match form_puzzle_id request with
     | None => Ok (Failure "No puzzle_id provided" None None, 400%Z)
     | Some puzzle_id =>
         let '(is_valid, error_msg) := validate_piece_upload piece_file in
         if negb is_valid then Ok (Failure error_msg None None, 400%Z)
         else
           match get_puzzle saved_puzzles fs puzzle_id with
           | None => Ok (Failure "Puzzle not found" None None, 404%Z)
           | Some puzzle =>
               (piece_bytes <- file_read piece_file ;;
                let '(quality_ok, quality_msg, quality_score) :=
                  check_image_quality piece_bytes in
                if negb quality_ok
                then Ok (Failure "Piece image quality insufficient"
                                 (Some quality_msg) (Some quality_score), 400%Z)
                else
                  let matches := find_matches fs piece_bytes puzzle_id default_top_k in
                  Ok (prepare_response matches))%py
           end
     end
     end)%py
    (fun e => (Failure "Failed to analyze piece" (Some e) None, 500%Z)).

End Routes.

(* ================================================================== *)
(** ** Vocabulary of the statements *)
(* ================================================================== *)

Section Vocabulary.

Context {E : External}.

Open Scope R_scope.

(** The colour score of a piece / region pair, as computed at the top of
    the loop body. *)
Definition color_score_of (piece_features : Features) (region : Region) : R :=
  _compare_color_histograms (color_hist piece_features)
                            (color_hist (region_features region)).

Definition shape_score_of (piece_features : Features) (region : Region) : R :=
  _compare_shape_features (shape piece_features) (shape (region_features region)).

Definition feature_score_of (piece_features : Features) (region : Region) : R :=
  _compare_deep_features (deep_features piece_features)
                         (deep_features (region_features region)).

(** The fused confidence of a pair, before rounding. *)
Definition fused_confidence (piece_features : Features) (region : Region) : R :=
  weighted_confidence (color_score_of piece_features region)
                      (shape_score_of piece_features region)
                      (feature_score_of piece_features region).

End Vocabulary.

(** [a] occurs before [b] in [l]. *)
Definition precedes {A} (a b : A) (l : list A) : Prop :=
  exists l1 l2 l3, l = l1 ++ a :: l2 ++ b :: l3.

(** A sub-vector that carries no information: missing, or all zero. *)
Definition degenerate (v : option vec) : Prop :=
  v = None \/ exists n, v = Some (zeros n).

(** The shape dictionary returned when shape extraction fails. *)
Definition fallback_shape : Shape :=
  {| edge_hist := Some (zeros 16); hu_moments := Some (zeros 7) |}.

Definition inside_image (width height : Z) (r : Region) : Prop :=
  (0 <= region_x r /\ region_x r + region_width r <= width /\
   0 <= region_y r /\ region_y r + region_height r <= height)%Z.

(** Where a region lies: [(x, y)]. *)
Definition position (r : Region) : Z * Z := (region_x r, region_y r).

(* ================================================================== *)
(** ** A test double for the outside capabilities *)
(* ================================================================== *)

Module Fixture.

Open Scope R_scope.

Definition vsum (v : vec) : R := fold_right Rplus 0 v.

Fixpoint dot (a b : vec) : R :=
  match a, b with
  | x :: a', y :: b' => x * y + dot a' b'
  | _, _ => 0
  end.

Definition DBL_EPSILON : R := / 2 ^ 52.

(** OpenCV's correlation of two histograms: Pearson's coefficient, [1] when
    a variance vanishes, an error when the sizes differ. *)
Definition correl (h1 h2 : vec) : result R :=
  if Nat.eqb (List.length h1) (List.length h2) then
    let scale := 1 / INR (List.length h1) in
    let s1 := vsum h1 in
    let s2 := vsum h2 in
    let s11 := dot h1 h1 in
    let s22 := dot h2 h2 in
    let s12 := dot h1 h2 in
    let num := s12 - s1 * s2 * scale in
    let denom2 := (s11 - s1 * s1 * scale) * (s22 - s2 * s2 * scale) in
    Ok (if Rlt_dec DBL_EPSILON (Rabs denom2) then num / sqrt denom2 else 1)
  else Raise "cv2.error: sizes of the histograms differ".

(** SciPy's cosine distance. *)
Definition cosine_distance (u v : vec) : result R :=
  if Nat.eqb (List.length u) (List.length v)
  then Ok (1 - dot u v / sqrt (dot u u * dot v v))
  else Raise "ValueError: shapes not aligned".

(** A fake image array: its size and the features a provider reads off. *)
Record FakeArray := mkFakeArray {
  fa_height : Z;
  fa_width : Z;
  fa_features : Features
}.

(** A fake decoded image: the rotation applied so far and the array seen
    at each rotation. *)
Definition FakeImage : Type := Z * (Z -> FakeArray).

#[export] Instance fake : External := {|
  Array := FakeArray;
  Image := FakeImage;
  PieceBytes := option (Z -> FakeArray);
  PieceFile := option (Z -> FakeArray);
  np_array := fun img => Ok (snd img (fst img));
  array_shape := fun a => (fa_height a, fa_width a);
  crop := fun a _ _ w => {| fa_height := w; fa_width := w; fa_features := fa_features a |};
  image_open := fun b =>
    match b with
    | Some views => Ok (0%Z, views)
    | None => Raise "cannot identify image file"
    end;
  image_rotate := fun img angle => Ok (angle, snd img);
  cv_color_hist := fun a => Ok (color_hist (fa_features a));
  cv_shape := fun a =>
    match edge_hist (shape (fa_features a)), hu_moments (shape (fa_features a)) with
    | Some e, Some h => Ok (e, h)
    | _, _ => Raise "cv2.error"
    end;
  resnet_features := fun a => Ok (deep_features (fa_features a));
  compareHist := correl;
  cosine := cosine_distance;
  validate_piece_upload := fun _ => (true, "Valid piece upload"%string);
  file_read := fun f => Ok f;
  check_image_quality := fun _ => (true, "Image quality is acceptable"%string, 100)
|}.

(** Descriptors on two-bin histograms. *)
Definition feat_a : Features :=
  {| color_hist := [1; 0];
     shape := {| edge_hist := Some [1; 0]; hu_moments := Some [0; 0] |};
     deep_features := [1; 0] |}.

(** The colour mass in the other bin, and an empty embedding. *)
Definition feat_b : Features :=
  {| color_hist := [0; 1];
     shape := {| edge_hist := Some [1; 0]; hu_moments := Some [0; 0] |};
     deep_features := [] |}.

(** A stored colour histogram of the wrong size. *)
Definition feat_bad : Features :=
  {| color_hist := [1; 0; 0];
     shape := {| edge_hist := Some [1; 0]; hu_moments := Some [0; 0] |};
     deep_features := [1; 0] |}.

Definition region_at (f : Features) (x y : Z) : Region :=
  {| region_features := f; region_x := x; region_y := y;
     region_width := 100; region_height := 100 |}.

Definition region_a : Region := region_at feat_a 0 0.
Definition region_b : Region := region_at feat_b 50 0.
Definition region_bad : Region := region_at feat_bad 100 0.

Definition puzzle_ab : PuzzleFeatures :=
  {| regions := [region_bad; region_a]; grid_size := (1, 2)%Z |}.

Definition puzzle_none : PuzzleFeatures :=
  {| regions := []; grid_size := (0, 0)%Z |}.

Definition meta (id : string) : Metadata :=
  {| puzzle_id_of := id; name_of := "Untitled Puzzle";
     dimensions_width := 200; dimensions_height := 100 |}.

(** A store holding puzzle [p1] in full, puzzle [p2] with an empty
    descriptor set, and only the metadata of puzzle [p3]. *)
Definition disk : FileSystem :=
  {| pickle_files := fun path =>
       if String.eqb path "saved_puzzles/p1/features.pkl" then Some (Ok puzzle_ab)
       else if String.eqb path "saved_puzzles/p2/features.pkl" then Some (Ok puzzle_none)
       else None;
     json_files := fun path =>
       if String.eqb path "saved_puzzles/p1/metadata.json" then Some (Ok (meta "p1"))
       else if String.eqb path "saved_puzzles/p2/metadata.json" then Some (Ok (meta "p2"))
       else if String.eqb path "saved_puzzles/p3/metadata.json" then Some (Ok (meta "p3"))
       else None |}.

(** A piece that looks like [feat_a] at every rotation. *)
Definition piece_a : option (Z -> FakeArray) :=
  Some (fun _ => {| fa_height := 512; fa_width := 512; fa_features := feat_a |}).

(** A match of a given confidence and rotation, at the origin. *)
Definition candidate (c : R) (rotation_deg : Z) : Match :=
  {| confidence := c;
     location := {| loc_x := 0; loc_y := 0; loc_width := 100; loc_height := 100 |};
     rotation_needed := rotation_deg;
     description := "Upper-left quadrant" |}.


Definition wide_image : FakeImage :=
  (0%Z, fun _ => {| fa_height := 200; fa_width := 300; fa_features := feat_a |}).

End Fixture.

(* ================================================================== *)
(** ** Upload validation (src/utils/validators.py) *)
(* ================================================================== *)

Module Validators.

(** What the validators read of an uploaded file: its truth value, its
    file name, its declared MIME type and its declared length ([None] when
    the attribute is missing). *)
Record FileStorage := mkFileStorage {
  file_truthy : bool;
  filename : option string;
  content_type : option string;
  content_length : option Z
}.

Definition ALLOWED_EXTENSIONS : list string :=
  ["jpg"; "jpeg"; "png"; "webp"; "heic"; "bmp"; "tiff"]%string.

Definition ALLOWED_MIME_TYPES : list string :=
  ["image/jpeg"; "image/png"; "image/webp"; "image/heic"; "image/bmp";
   "image/tiff"]%string.

Definition MAX_PUZZLE_SIZE_MB : R := 10.
Definition MAX_PIECE_SIZE_MB : R := 10.

(** [x in s] for a set of strings. *)
Definition mem (x : string) (s : list string) : bool :=
  existsb (String.eqb x) s.

(** The character ['.']. *)
Definition dot_char : Ascii.ascii := Ascii.ascii_of_nat 46.

(** ['.' in s]. *)
Fixpoint has_dot (s : string) : bool :=
  match s with
  | EmptyString => false
  | String c s' => if Ascii.eqb c dot_char then true else has_dot s'
  end.

(** The split of [s] at its last dot, when it has one. *)
Fixpoint split_last_dot (s : string) : option (string * string) :=
  match s with
  | EmptyString => None
  | String c s' =>
      match split_last_dot s' with
      | Some (before, after) => Some (String c before, after)
      | None => if Ascii.eqb c dot_char then Some (EmptyString, s') else None
      end
  end.

(** [s.rsplit('.', 1)]: two parts when [s] has a dot, [s] alone otherwise. *)
Definition rsplit_dot_1 (s : string) : list string :=
  match split_last_dot s with
  | Some (before, after) => [before; after]
  | None => [s]
  end.

(** [l[i]], raising [IndexError] out of range. *)
Definition index {A} (l : list A) (i : nat) : result A :=
  match nth_error l i with
  | Some a => Ok a
  | None => Raise "list index out of range"
  end.

Definition allowed_file (filename : option string) : result bool :=
  match filename with
  | None => Ok false
  | Some EmptyString => Ok false
  | Some filename =>
      if negb (has_dot filename) then Ok false
      else
        (part <- index (rsplit_dot_1 filename) 1 ;;
         let extension := lower_string part in
         Ok (mem extension ALLOWED_EXTENSIONS))%py
  end.

Section Messages.

(** [', '.join(ALLOWED_EXTENSIONS)], whose order is that of the set, and
    the [:.1f] formatting of a float. *)
Variable allowed_types_text : string.
Variable format_1f : R -> string.

Open Scope R_scope.

(** The size test shared by the two validators; [None] when it passes. *)
Definition too_large (file : FileStorage) (max_size_mb : R) : option R :=
  match content_length file with
  | None => None
  | Some n =>
      if (n =? 0)%Z then None
      else
        let size_mb := IZR n / (1024 * 1024) in
        if Rgt_dec size_mb max_size_mb then Some size_mb else None
  end.

Definition validate_puzzle_upload (file : FileStorage) : bool * string :=
  try_except
    (if negb (file_truthy file) then Ok (false, "No file provided"%string)
     else if match filename file with
             | Some EmptyString => true
             | _ => false
             end
     then Ok (false, "No file selected"%string)
     else
       (allowed <- allowed_file (filename file) ;;
        if negb allowed
        then Ok (false,
                 ("Invalid file type. Allowed types: " ++ allowed_types_text)%string)
        else
          match too_large file MAX_PUZZLE_SIZE_MB with
          | Some size_mb =>
              Ok (false,
                  ("File too large (" ++ format_1f size_mb
                   ++ "MB). Maximum size is 10MB")%string)
          | None => Ok (true, "Valid puzzle upload"%string)
          end)%py)
    (fun e => (false, ("Error validating file: " ++ e)%string)).

Definition validate_piece_upload (file : FileStorage) : bool * string :=
  try_except
    (if negb (file_truthy file) then Ok (false, "No piece image provided"%string)
     else if match filename file with
             | Some EmptyString => true
             | _ => false
             end
     then Ok (false, "No file selected"%string)
     else
       (allowed <- allowed_file (filename file) ;;
        if negb allowed
        then Ok (false,
                 ("Invalid file type. Allowed types: " ++ allowed_types_text)%string)
        else
          match too_large file MAX_PIECE_SIZE_MB with
          | Some size_mb =>
              Ok (false,
                  ("File too large (" ++ format_1f size_mb
                   ++ "MB). Maximum size is 10MB")%string)
          | None => Ok (true, "Valid piece upload"%string)
          end)%py)
    (fun e => (false, ("Error validating file: " ++ e)%string)).

End Messages.

(** A file name has no dot. *)
Definition dotless (s : string) : Prop := has_dot s = false.

End Validators.

(* ================================================================== *)
(** ** Image quality (src/utils/quality_check.py, src/services/image_service.py) *)
(* ================================================================== *)

Module QualityCheck.

Open Scope R_scope.

Definition SHARPNESS_THRESHOLD : R := 100.
Definition CONTRAST_THRESHOLD : R := 30.
Definition MIN_BRIGHTNESS : R := 20.
Definition MAX_BRIGHTNESS : R := 235.
Definition MIN_DIMENSION : Z := 200.
Definition MAX_DIMENSION : Z := 4000.

Section Checks.

(** The image library: decoding gives the size [(width, height)] and the
    pixel array; the three measurements are the OpenCV / NumPy pipelines
    inside the [try] blocks of [ImageService]. *)
Variable Bytes : Type.
Variable Pixels : Type.
Variable decode : Bytes -> result (Z * Z * Pixels).
Variable laplacian_variance : Pixels -> result R.
Variable gray_std : Pixels -> result R.
Variable gray_mean : Pixels -> result R.

Definition calculate_image_sharpness (image_array : Pixels) : R :=
  try_except (laplacian_variance image_array) (fun _ => 0).

Definition calculate_image_contrast (image_array : Pixels) : R :=
  try_except (gray_std image_array) (fun _ => 0).

Definition calculate_brightness (image_array : Pixels) : R :=
  try_except (gray_mean image_array) (fun _ => 0).

(** [check_type] is accepted and not read. *)
Definition check_image_quality (image_bytes : Bytes) (check_type : string)
  : bool * string * R :=
  try_except
    (decoded <- decode image_bytes ;;
     let '(width, height, image_array) := decoded in
     if ((width <? MIN_DIMENSION) || (height <? MIN_DIMENSION))%Z%bool
     then Ok (false,
              "Image too small. Minimum size is 200x200 pixels."%string, 0)
     else if ((width >? MAX_DIMENSION) || (height >? MAX_DIMENSION))%Z%bool
     then Ok (false,
              "Image too large. Maximum size is 4000x4000 pixels."%string, 0)
     else
       let sharpness := calculate_image_sharpness image_array in
       if Rlt_dec sharpness SHARPNESS_THRESHOLD then
         let sharpness_score := (sharpness / SHARPNESS_THRESHOLD) * 100 in
         Ok (false,
             "Image appears too blurry. Please retake photo with better focus."%string,
             sharpness_score)
       else
         let contrast := calculate_image_contrast image_array in
         if Rlt_dec contrast CONTRAST_THRESHOLD then
           let contrast_score := (contrast / CONTRAST_THRESHOLD) * 100 in
           Ok (false,
               "Image has insufficient contrast. Try better lighting or different background."%string,
               contrast_score)
         else
           let brightness := calculate_brightness image_array in
           if Rlt_dec brightness MIN_BRIGHTNESS then
             let brightness_score := (brightness / MIN_BRIGHTNESS) * 100 in
             Ok (false,
                 "Image is too dark. Please use better lighting."%string,
                 brightness_score)
           else if Rgt_dec brightness MAX_BRIGHTNESS then
             let brightness_score :=
               100 - ((brightness - MAX_BRIGHTNESS) / (255 - MAX_BRIGHTNESS)) * 100 in
             Ok (false,
                 "Image is overexposed. Please reduce lighting or adjust camera exposure."%string,
                 brightness_score)
           else
             let sharpness_score :=
               Rmin 100 ((sharpness / SHARPNESS_THRESHOLD) * 100) in
             let contrast_score :=
               Rmin 100 ((contrast / CONTRAST_THRESHOLD) * 100) in
             let brightness_deviation := Rabs (brightness - 127) in
             let brightness_score :=
               Rmax 0 (100 - (brightness_deviation / 127) * 100) in
             let quality_score :=
               0.40 * sharpness_score +
               0.35 * contrast_score +
               0.25 * brightness_score in
             Ok (true, "Image quality is acceptable"%string, quality_score))%py
    (fun e => (false, ("Error validating image: " ++ e)%string, 0)).

End Checks.

Definition very_blurry : string :=
  "Image is very blurry. Hold camera steady and ensure autofocus is working.".
Definition slightly_blurry : string :=
  "Image is slightly blurry. Try tapping screen to focus before taking photo.".
Definition very_low_contrast : string :=
  "Very low contrast. Place piece on a contrasting background (dark piece on light background or vice versa).".
Definition low_contrast : string :=
  "Low contrast. Try a different background color.".
Definition too_dark : string :=
  "Image is too dark. Use better lighting or move closer to a light source.".
Definition dim : string :=
  "Image is dim. Consider using more lighting.".
Definition overexposed : string :=
  "Image is overexposed. Reduce lighting or adjust camera exposure.".
Definition very_bright : string :=
  "Image is very bright. Try reducing light or adjusting camera settings.".
Definition quality_good : string := "Image quality is good!".

Definition get_quality_suggestions (sharpness contrast brightness : R)
  : list string :=
  let suggestions := [] in
  let suggestions :=
    if Rlt_dec sharpness (SHARPNESS_THRESHOLD * 0.5)
    then suggestions ++ [very_blurry]
    else if Rlt_dec sharpness SHARPNESS_THRESHOLD
    then suggestions ++ [slightly_blurry]
    else suggestions in
  let suggestions :=
    if Rlt_dec contrast (CONTRAST_THRESHOLD * 0.5)
    then suggestions ++ [very_low_contrast]
    else if Rlt_dec contrast CONTRAST_THRESHOLD
    then suggestions ++ [low_contrast]
    else suggestions in
  let suggestions :=
    if Rlt_dec brightness MIN_BRIGHTNESS
    then suggestions ++ [too_dark]
    else if Rlt_dec brightness (MIN_BRIGHTNESS * 1.5)
    then suggestions ++ [dim]
    else if Rgt_dec brightness MAX_BRIGHTNESS
    then suggestions ++ [overexposed]
    else if Rgt_dec brightness (MAX_BRIGHTNESS * 0.9)
    then suggestions ++ [very_bright]
    else suggestions in
  match suggestions with
  | [] => suggestions ++ [quality_good]
  | _ => suggestions
  end.

Section Orientation.

(** The angle of the minimum-area rectangle around the largest contour,
    [None] when no contour is found. *)
Variable Pixels : Type.
Variable largest_contour_angle : Pixels -> result (option R).

Definition detect_orientation (image_array : Pixels) : Z :=
  try_except
    (found <- largest_contour_angle image_array ;;
     match found with
     | None => Ok 0%Z
     | Some angle =>
         let rotation :=
           if Rlt_dec angle (-45) then 90%Z
           else if Rgt_dec angle 45 then 270%Z
           else if Rlt_dec angle (-22.5) then 45%Z
           else if Rgt_dec angle 22.5 then 315%Z
           else 0%Z in
         Ok rotation
     end)%py
    (fun _ => 0%Z).

End Orientation.

End QualityCheck.

(* ================================================================== *)
(** ** Saving and deleting puzzles (src/services/puzzle_service.py) *)
(* ================================================================== *)

(** The metadata dictionary built by [save_puzzle] and written to
    [metadata.json]: the keys kept in [Metadata] and the three further
    ones. *)
Record SavedMetadata := mkSavedMetadata {
  saved_core : Metadata;
  date_added : string;
  original_dimensions : Z * Z;
  region_count : Z
}.

(** What [get_puzzle] returns: the dictionary of [metadata.json] with the
    two URL keys added. *)
Record PuzzleDict := mkPuzzleDict {
  dict_metadata : SavedMetadata;
  image_url : string;
  thumbnail_url : string
}.

(** ['/' in s]. *)
Fixpoint has_slash (s : string) : bool :=
  match s with
  | EmptyString => false
  | String c s' => if Ascii.eqb c (Ascii.ascii_of_nat 47) then true else has_slash s'
  end.

(** A single path component: not empty, not [.] or [..], and without a
    slash.  Only for such a name is [os.path.join(folder, name)] an entry
    directly below [folder]; a uuid is one. *)
Definition component (name : string) : bool :=
  (negb (String.eqb name "") && negb (String.eqb name ".")
   && negb (String.eqb name "..") && negb (has_slash name))%bool.

Section Storage.

Context {E : External}.

(** The disk as the service writes it: directories, pickled descriptor
    sets, JSON metadata files and image files, each under its path.
    Unpickling and [json.load] give back the value written; an image file
    holds the bytes the encoder produced.  Writing a file into an existing
    directory always succeeds. *)
Record Disk := mkDisk {
  disk_dirs : string -> bool;
  disk_pickles : string -> option (result PuzzleFeatures);
  disk_json : string -> option (result SavedMetadata);
  disk_images : string -> option PieceBytes
}.

(** The files as the matcher reads them: of [metadata.json] it reads the
    keys of [Metadata]. *)
Definition disk_files (d : Disk) : FileSystem :=
  {| pickle_files := disk_pickles d;
     json_files := fun p =>
       match disk_json d p with
       | Some (Ok saved) => Some (Ok (saved_core saved))
       | Some (Raise e) => Some (Raise e)
       | None => None
       end |}.

(** [path] is [dir] or lies below it. *)
Definition under (dir path : string) : bool :=
  (String.eqb path dir || String.prefix (dir ++ "/") path)%bool.

(** [os.path.exists]. *)
Definition path_exists (d : Disk) (path : string) : bool :=
  (disk_dirs d path
   || match disk_pickles d path with Some _ => true | None => false end
   || match disk_json d path with Some _ => true | None => false end
   || match disk_images d path with Some _ => true | None => false end)%bool.

(** [os.makedirs(path, exist_ok=True)]. *)
Definition makedirs (d : Disk) (path : string) : Disk :=
  {| disk_dirs := fun p => (String.eqb p path || disk_dirs d p)%bool;
     disk_pickles := disk_pickles d;
     disk_json := disk_json d;
     disk_images := disk_images d |}.

(** [shutil.rmtree(dir)] for a directory whose path ends in a single
    component: the directory and everything below it go, nothing else. *)
Definition rmtree (d : Disk) (dir : string) : Disk :=
  {| disk_dirs := fun p => if under dir p then false else disk_dirs d p;
     disk_pickles := fun p => if under dir p then None else disk_pickles d p;
     disk_json := fun p => if under dir p then None else disk_json d p;
     disk_images := fun p => if under dir p then None else disk_images d p |}.

(** [pickle.dump(features, f)] in [save_features]. *)
Definition write_pickle (d : Disk) (path : string) (v : PuzzleFeatures) : Disk :=
  {| disk_dirs := disk_dirs d;
     disk_pickles := fun p =>
       if String.eqb p path then Some (Ok v) else disk_pickles d p;
     disk_json := disk_json d;
     disk_images := disk_images d |}.

(** [json.dump(metadata, f)]. *)
Definition write_json (d : Disk) (path : string) (m : SavedMetadata) : Disk :=
  {| disk_dirs := disk_dirs d;
     disk_pickles := disk_pickles d;
     disk_json := fun p =>
       if String.eqb p path then Some (Ok m) else disk_json d p;
     disk_images := disk_images d |}.

Definition write_image (d : Disk) (path : string) (encoded : PieceBytes) : Disk :=
  {| disk_dirs := disk_dirs d;
     disk_pickles := disk_pickles d;
     disk_json := disk_json d;
     disk_images := fun p =>
       if String.eqb p path then Some encoded else disk_images d p |}.

(** Two disks hold the same things at every path outside [dir]. *)
Definition same_outside (dir : string) (d1 d2 : Disk) : Prop :=
  forall p,
    under dir p = false ->
    disk_dirs d1 p = disk_dirs d2 p
    /\ disk_pickles d1 p = disk_pickles d2 p
    /\ disk_json d1 p = disk_json d2 p
    /\ disk_images d1 p = disk_images d2 p.

Variable puzzle_folder : string.

(** Pillow in [save_puzzle]: [Image.open] with the conversion to RGB,
    [image.size] as [(width, height)], [image.thumbnail((n, n))] and the
    JPEG encoder at quality 85, which may refuse an image and is lossy:
    the bytes it writes need not decode to the image it was given. *)
Variable puzzle_open : PieceBytes -> result Image.
Variable image_size : Image -> Z * Z.
Variable image_thumbnail : Image -> Z -> result Image.
Variable jpeg_encode : Image -> result PieceBytes.

(** [image.save(path, 'JPEG', quality=85, optimize=True)]. *)
Definition save_jpeg (d : Disk) (path : string) (image : Image) : result Disk :=
  (encoded <- jpeg_encode image ;;
   Ok (write_image d path encoded))%py.

(** The [try] block of [save_puzzle] after the directory is made: the disk
    reached and the metadata returned, or the exception raised.  The
    descriptors are extracted from the image in memory, not from the file
    written. *)
Definition save_puzzle_steps
    (d : Disk) (puzzle_id now : string)
    (image_bytes : PieceBytes) (puzzle_name : string)
  : Disk * result SavedMetadata :=
  let puzzle_dir := path_join puzzle_folder puzzle_id in
  match puzzle_open image_bytes with
  | Raise e => (d, Raise e)
  | Ok image =>
  let '(original_width, original_height) := image_size image in
  let max_size := 2048%Z in
  match (if ((original_width >? max_size) || (original_height >? max_size))%Z%bool
         then image_thumbnail image max_size
         else Ok image) with
  | Raise e => (d, Raise e)
  | Ok image =>
  let '(width, height) := image_size image in
  let original_path := path_join puzzle_dir "original.jpg" in
  match save_jpeg d original_path image with
  | Raise e => (d, Raise e)
  | Ok d =>
  match image_thumbnail image 200 with
  | Raise e => (d, Raise e)
  | Ok thumbnail =>
  let thumbnail_path := path_join puzzle_dir "thumbnail.jpg" in
  match save_jpeg d thumbnail_path thumbnail with
  | Raise e => (d, Raise e)
  | Ok d =>
  match extract_puzzle_features image with
  | Raise e => (d, Raise e)
  | Ok features =>
  let features_path := path_join puzzle_dir "features.pkl" in
  let d := write_pickle d features_path features in
  let metadata :=
    {| saved_core :=
         {| puzzle_id_of := puzzle_id;
            name_of := puzzle_name;
            dimensions_width := width;
            dimensions_height := height |};
       date_added := now;
       original_dimensions := (original_width, original_height);
       region_count := Z.of_nat (List.length (regions features)) |} in
  let metadata_path := path_join puzzle_dir "metadata.json" in
  let d := write_json d metadata_path metadata in
  (d, Ok metadata)
  end end end end end end.

(** [new_id] is the value of [str(uuid.uuid4())], a single path component,
    and [now] that of [datetime.utcnow().isoformat()] at this call. *)
Definition save_puzzle
    (d : Disk) (new_id now : string)
    (image_bytes : PieceBytes) (puzzle_name : string)
  : Disk * result SavedMetadata :=
  let puzzle_id := new_id in
  let puzzle_dir := path_join puzzle_folder puzzle_id in
  let d := makedirs d puzzle_dir in
  match save_puzzle_steps d puzzle_id now image_bytes puzzle_name with
  | (d, Ok metadata) => (d, Ok metadata)
  | (d, Raise e) =>
      let d := if path_exists d puzzle_dir then rmtree d puzzle_dir else d in
      (d, Raise e)
  end.

(** [get_puzzle] with every key of the dictionary it returns; the
    [get_puzzle] of the matcher is its restriction to the keys of
    [Metadata]. *)
Definition get_puzzle_dict (d : Disk) (puzzle_id : string) : option PuzzleDict :=
  try_except
    (let puzzle_dir := path_join puzzle_folder puzzle_id in
     let metadata_path := path_join puzzle_dir "metadata.json" in
     match disk_json d metadata_path with
     | None => Ok None
     | Some loaded =>
         metadata <- loaded ;;
         Ok (Some
               {| dict_metadata := metadata;
                  image_url :=
                    "/puzzle_solver/api/puzzles/" ++ puzzle_id ++ "/image";
                  thumbnail_url :=
                    "/puzzle_solver/api/puzzles/" ++ puzzle_id ++ "/thumbnail" |})
     end)%py
    (fun _ => None).

(** For an id that is not a single path component, [os.path.join] names
    the folder itself (the empty id and [.]), its parent ([..]) or a path
    elsewhere (an id with a slash).  Whether that path exists, and what
    [shutil.rmtree] removes there or raises, depends on the file system
    around the folder, which [Disk] does not hold: [exists_elsewhere] and
    [rmtree_elsewhere] stand for the two answers, the second giving the
    disk reached and the exception raised, if any. *)
Variable exists_elsewhere : Disk -> string -> bool.
Variable rmtree_elsewhere : Disk -> string -> Disk * option string.

(** [os.path.exists(os.path.join(parent, name))]. *)
Definition exists_joined (d : Disk) (parent name : string) : bool :=
  if component name then path_exists d (path_join parent name)
  else exists_elsewhere d (path_join parent name).

(** [shutil.rmtree(os.path.join(parent, name))].  When it returns, nothing
    is left at the path or below it. *)
Definition shutil_rmtree (d : Disk) (parent name : string) : Disk * result unit :=
  let dir := path_join parent name in
  if component name then (rmtree d dir, Ok tt)
  else
    match rmtree_elsewhere d dir with
    | (d, Some e) => (d, Raise e)
    | (d, None) => (rmtree d dir, Ok tt)
    end.

(** The [except] clause re-raises. *)
Definition delete_puzzle (d : Disk) (puzzle_id : string) : Disk * result bool :=
  if negb (exists_joined d puzzle_folder puzzle_id) then (d, Ok false)
  else
    match shutil_rmtree d puzzle_folder puzzle_id with
    | (d, Raise e) => (d, Raise e)
    | (d, Ok _) => (d, Ok true)
    end.

Definition get_puzzle_image_path (d : Disk) (puzzle_id : string) : option string :=
  let puzzle_dir := path_join puzzle_folder puzzle_id in
  let image_path := path_join puzzle_dir "original.jpg" in
  if path_exists d image_path then Some image_path else None.

Definition get_puzzle_thumbnail_path (d : Disk) (puzzle_id : string) : option string :=
  let puzzle_dir := path_join puzzle_folder puzzle_id in
  let thumbnail_path := path_join puzzle_dir "thumbnail.jpg" in
  if path_exists d thumbnail_path then Some thumbnail_path else None.

End Storage.

(** A test double of the disk and of Pillow, over the fake libraries. *)
Module DiskFixture.

Import Fixture.

Definition empty : Disk :=
  {| disk_dirs := fun _ => false;
     disk_pickles := fun _ => None;
     disk_json := fun _ => None;
     disk_images := fun _ => None |}.

(** [(width, height)] of the array seen at the current rotation. *)
Definition size (image : FakeImage) : Z * Z :=
  let a := snd image (fst image) in (fa_width a, fa_height a).

(** Both sides are cut down to at most [n]. *)
Definition thumbnail (image : FakeImage) (n : Z) : result FakeImage :=
  Ok (fst image,
      fun rotation =>
        let a := snd image rotation in
        {| fa_height := Z.min n (fa_height a);
           fa_width := Z.min n (fa_width a);
           fa_features := fa_features a |}).

(** A lossy encoder: the embedding of the image is lost in the file. *)
Definition encode (image : FakeImage) : result (option (Z -> FakeArray)) :=
  Ok (Some (fun rotation =>
              let a := snd image rotation in
              {| fa_height := fa_height a;
                 fa_width := fa_width a;
                 fa_features :=
                   {| color_hist := color_hist (fa_features a);
                      shape := shape (fa_features a);
                      deep_features := [] |} |})).

(** The bytes of a 200 x 300 image. *)
Definition harbour : option (Z -> FakeArray) :=
  Some (fun _ => {| fa_height := 200; fa_width := 300; fa_features := feat_a |}).

Definition save (d : Disk) (new_id : string) (image_bytes : option (Z -> FakeArray))
  : Disk * result SavedMetadata :=
  save_puzzle saved_puzzles image_open size thumbnail encode
    d new_id "2024-05-01T12:00:00" image_bytes "Harbour".

(** No path outside the folder exists, and nothing is removed there. *)
Definition delete (d : Disk) (puzzle_id : string) : Disk * result bool :=
  delete_puzzle saved_puzzles (fun _ _ => false) (fun d _ => (d, None))
    d puzzle_id.

(** The disk after one puzzle has been saved under the id [p9], and after
    a second one has been saved under the id [p1]. *)
Definition one_puzzle : Disk := fst (save empty "p9" harbour).
Definition two_puzzles : Disk := fst (save one_puzzle "p1" harbour).

End DiskFixture.

(* ================================================================== *)
(** * Properties *)
(* ================================================================== *)

Unset Implicit Arguments.

Open Scope R_scope.

(** ** Clamping and rounding *)

Lemma clamp_bounds (x : R) : 0 <= Rmax 0 (Rmin 1 x) <= 1.
Proof.
  unfold Rmax, Rmin.
  destruct (Rle_dec 1 x); destruct (Rle_dec 0 _); lra.
Qed.

Lemma clamp_id (x : R) : 0 <= x <= 1 -> Rmax 0 (Rmin 1 x) = x.
Proof.
  intros Hx. unfold Rmax, Rmin.
  destruct (Rle_dec 1 x); destruct (Rle_dec 0 _); lra.
Qed.

Lemma Int_part_lower (k : Z) (r : R) : IZR k <= r -> (k <= Int_part r)%Z.
Proof.
  intros Hk.
  destruct (base_Int_part r) as [_ Hgt].
  assert (Hlt : IZR (k - 1) < IZR (Int_part r)).
  { rewrite minus_IZR. lra. }
  apply lt_IZR in Hlt. lia.
Qed.

Lemma round_half_even_lower (k : Z) (r : R) :
  IZR k <= r -> (k <= round_half_even r)%Z.
Proof.
  intros Hk. pose proof (Int_part_lower k r Hk) as Hf.
  unfold round_half_even.
  destruct (Rlt_dec _ _); [assumption|].
  destruct (Rlt_dec _ _); [lia|].
  destruct (Z.even _); lia.
Qed.

Lemma round_half_even_upper (k : Z) (r : R) :
  r <= IZR k -> (round_half_even r <= k)%Z.
Proof.
  intros Hk.
  destruct (base_Int_part r) as [Hle _].
  assert (Hf : (Int_part r <= k)%Z) by (apply le_IZR; lra).
  assert (Hstep : r - IZR (Int_part r) >= 1 / 2 -> (Int_part r + 1 <= k)%Z).
  { intros Hd.
    assert (Hlt : IZR (Int_part r) < IZR k) by lra.
    apply lt_IZR in Hlt. lia. }
  unfold round_half_even.
  destruct (Rlt_dec _ _) as [Hd|Hd]; [assumption|].
  destruct (Rlt_dec _ _); [apply Hstep; lra|].
  destruct (Z.even _); [assumption | apply Hstep; lra].
Qed.

Lemma round1_lower (k : Z) (x : R) : IZR k <= x -> IZR k <= round1 x.
Proof.
  intros Hk. unfold round1.
  assert (H10 : IZR (k * 10) <= x * 10) by (rewrite mult_IZR; lra).
  apply round_half_even_lower, IZR_le in H10.
  rewrite mult_IZR in H10. lra.
Qed.

Lemma round1_upper (k : Z) (x : R) : x <= IZR k -> round1 x <= IZR k.
Proof.
  intros Hk. unfold round1.
  assert (H10 : x * 10 <= IZR (k * 10)) by (rewrite mult_IZR; lra).
  apply round_half_even_upper, IZR_le in H10.
  rewrite mult_IZR in H10. lra.
Qed.

(** ** The three comparison functions *)

Section Scores.

Context {E : External}.

Lemma color_score_bounds (hist1 hist2 : vec) :
  0 <= _compare_color_histograms hist1 hist2 <= 1.
Proof.
  unfold _compare_color_histograms.
  destruct (compareHist hist1 hist2); simpl; [apply clamp_bounds | lra].
Qed.

Lemma shape_score_bounds (shape1 shape2 : Shape) :
  0 <= _compare_shape_features shape1 shape2 <= 1.
Proof.
  unfold _compare_shape_features.
  destruct (edge_similarity_of shape1 shape2); simpl; [|lra].
  destruct (hu_similarity_of shape1 shape2); simpl; [apply clamp_bounds | lra].
Qed.

Lemma deep_score_bounds (features1 features2 : vec) :
  0 <= _compare_deep_features features1 features2 <= 1.
Proof.
  unfold _compare_deep_features.
  destruct (_ || _)%bool; simpl; [lra|].
  destruct (cosine _ _); simpl; [apply clamp_bounds | lra].
Qed.

Lemma weighted_confidence_bounds (c s e : R) :
  0 <= c <= 1 -> 0 <= s <= 1 -> 0 <= e <= 1 ->
  0 <= weighted_confidence c s e <= 100.
Proof. unfold weighted_confidence. lra. Qed.

Lemma fused_confidence_bounds (piece_features : Features) (region : Region) :
  0 <= fused_confidence piece_features region <= 100.
Proof.
  apply weighted_confidence_bounds.
  - apply color_score_bounds.
  - apply shape_score_bounds.
  - apply deep_score_bounds.
Qed.

End Scores.

(** C3.  For stage similarities in [0,1] the fused confidence is
    [100 * (0.25 color + 0.25 shape + 0.50 embedding)] and lies in
    [0,100]; and each of the three comparison functions returns a value in
    [0,1] on every input, also when the library call inside it raises, so
    the confidence fused for any piece / region pair lies in [0,100]. *)
Theorem fused_confidence_formula_and_range
    (E : External) (color shape_ embedding : R)
    (Hc : 0 <= color <= 1) (Hs : 0 <= shape_ <= 1) (He : 0 <= embedding <= 1) :
  weighted_confidence color shape_ embedding
    = 100 * (0.25 * color + 0.25 * shape_ + 0.50 * embedding)
  /\ 0 <= weighted_confidence color shape_ embedding <= 100
  /\ (forall hist1 hist2, 0 <= _compare_color_histograms hist1 hist2 <= 1)
  /\ (forall shape1 shape2, 0 <= _compare_shape_features shape1 shape2 <= 1)
  /\ (forall features1 features2,
        0 <= _compare_deep_features features1 features2 <= 1)
  /\ (forall piece_features region,
        0 <= fused_confidence piece_features region <= 100).
Proof.
  split; [unfold weighted_confidence; lra|].
  split; [apply weighted_confidence_bounds; assumption|].
  split; [apply color_score_bounds|].
  split; [apply shape_score_bounds|].
  split; [apply deep_score_bounds | apply fused_confidence_bounds].
Qed.

(** ** Slices *)

Lemma firstn_incl {A} (n : nat) (l : list A) (x : A) :
  In x (firstn n l) -> In x l.
Proof.
  revert n; induction l as [|a l IH]; intros [|n]; simpl; try tauto.
  intros [->|Hin]; [now left | right; eauto].
Qed.

Lemma slice_to_incl {A} (k : Z) (l : list A) (x : A) :
  In x (slice_to k l) -> In x l.
Proof.
  unfold slice_to. destruct (0 <=? k)%Z; apply firstn_incl.
Qed.

Lemma slice_to_nonneg {A} (k : Z) (l : list A) :
  (0 <= k)%Z -> slice_to k l = firstn (Z.to_nat k) l.
Proof.
  intros Hk. unfold slice_to.
  destruct (Z.leb_spec 0 k); [reflexivity | lia].
Qed.

(** ** The stable descending sort *)

Section SortFacts.

Variable A : Type.
Variable key : A -> R.

Lemma insert_desc_perm (a : A) (l : list A) :
  Permutation (a :: l) (insert_desc key a l).
Proof.
  induction l as [|h t IH]; simpl; [reflexivity|].
  destruct (Rlt_dec (key a) (key h)); [|reflexivity].
  rewrite perm_swap. now constructor.
Qed.

Lemma sort_reverse_perm (l : list A) : Permutation l (sort_reverse key l).
Proof.
  induction l as [|a l IH]; simpl; [constructor|].
  rewrite <- insert_desc_perm. now constructor.
Qed.

Lemma sort_reverse_in (l : list A) (x : A) :
  In x (sort_reverse key l) <-> In x l.
Proof.
  split; apply Permutation_in;
    [symmetry|]; apply sort_reverse_perm.
Qed.

Lemma insert_desc_sorted (a : A) (l : list A) :
  StronglySorted (key_ge key) l -> StronglySorted (key_ge key) (insert_desc key a l).
Proof.
  induction l as [|h t IH]; intros Hs; simpl.
  - repeat constructor.
  - apply StronglySorted_inv in Hs as [Ht Hh].
    destruct (Rlt_dec (key a) (key h)) as [Hlt|Hge].
    + constructor; [auto|].
      rewrite Forall_forall in *. intros x Hx.
      apply (Permutation_in _ (Permutation_sym (insert_desc_perm a t))) in Hx.
      destruct Hx as [<-|Hx]; [unfold key_ge; lra | auto].
    + constructor; [now constructor|].
      constructor; [unfold key_ge; lra|].
      rewrite Forall_forall in *. intros x Hx.
      specialize (Hh x Hx). unfold key_ge in *. lra.
Qed.

Lemma sort_reverse_sorted (l : list A) :
  StronglySorted (key_ge key) (sort_reverse key l).
Proof.
  induction l as [|a l IH]; simpl; [constructor|].
  now apply insert_desc_sorted.
Qed.

(** Stability: the elements of one key value come out in input order. *)
Lemma insert_desc_filter (c : R) (a : A) (l : list A) :
  StronglySorted (key_ge key) l ->
  filter (key_eqb key c) (insert_desc key a l) = filter (key_eqb key c) (a :: l).
Proof.
  induction l as [|h t IH]; intros Hs; [reflexivity|].
  apply StronglySorted_inv in Hs as [Ht Hh].
  simpl. destruct (Rlt_dec (key a) (key h)) as [Hlt|Hge]; [|reflexivity].
  simpl. rewrite (IH Ht). simpl.
  unfold key_eqb.
  destruct (Req_dec_T (key h) c), (Req_dec_T (key a) c); try reflexivity.
  lra.
Qed.

Lemma sort_reverse_stable (c : R) (l : list A) :
  filter (key_eqb key c) (sort_reverse key l) = filter (key_eqb key c) l.
Proof.
  induction l as [|a l IH]; [reflexivity|].
  simpl sort_reverse.
  rewrite insert_desc_filter by apply sort_reverse_sorted.
  simpl. now rewrite IH.
Qed.

End SortFacts.

(** ** The cascade on one region *)

Section Cascade.

Context {E : External}.

(** The match built for an accepted pair. *)
Lemma match_region_cases
    (piece_features : Features) (puzzle_metadata : Metadata)
    (rotation_deg : Z) (region : Region) :
  (color_score_of piece_features region < 0.3 /\
   match_region piece_features puzzle_metadata rotation_deg region
     = ([ColorStage], None))
  \/ (~ color_score_of piece_features region < 0.3 /\
      ~ fused_confidence piece_features region >= 40 /\
      match_region piece_features puzzle_metadata rotation_deg region
        = ([ColorStage; ShapeStage; DeepStage], None))
  \/ (~ color_score_of piece_features region < 0.3 /\
      fused_confidence piece_features region >= 40 /\
      exists m,
        match_region piece_features puzzle_metadata rotation_deg region
          = ([ColorStage; ShapeStage; DeepStage], Some m)
        /\ confidence m = round1 (fused_confidence piece_features region)
        /\ rotation_needed m = rotation_deg
        /\ loc_x (location m) = region_x region
        /\ loc_y (location m) = region_y region).
Proof.
  unfold match_region, fused_confidence, shape_score_of, feature_score_of,
    color_score_of.
  destruct (Rlt_dec _ 0.3) as [Hc|Hc]; [left; tauto|right].
  destruct (Rge_dec _ 40) as [Hf|Hf]; [right|left; tauto].
  repeat split; try assumption.
  eexists; repeat split.
Qed.

Lemma match_region_emitted
    (piece_features : Features) (puzzle_metadata : Metadata)
    (rotation_deg : Z) (region : Region) (m : Match) :
  snd (match_region piece_features puzzle_metadata rotation_deg region) = Some m ->
  ~ color_score_of piece_features region < 0.3
  /\ fused_confidence piece_features region >= 40
  /\ confidence m = round1 (fused_confidence piece_features region)
  /\ rotation_needed m = rotation_deg.
Proof.
  intros Hm.
  destruct (match_region_cases piece_features puzzle_metadata rotation_deg region)
    as [[_ Heq]|[(_ & _ & Heq)|(Hc & Hf & m' & Heq & Hconf & Hrot & _)]];
    rewrite Heq in Hm; simpl in Hm; try discriminate.
  injection Hm as <-. tauto.
Qed.

Lemma appended_length (o : list Stage * option Match) :
  (List.length (appended o) <= 1)%nat.
Proof. unfold appended. destruct (snd o); simpl; lia. Qed.

Lemma appended_in (o : list Stage * option Match) (m : Match) :
  In m (appended o) <-> snd o = Some m.
Proof.
  unfold appended. destruct (snd o) as [m'|]; simpl.
  - split; [intros [->|[]]; reflexivity | intros [= ->]; now left].
  - split; [intros [] | discriminate].
Qed.

Lemma match_piece_to_puzzle_eq
    (piece_features : Features) (puzzle_features : PuzzleFeatures)
    (puzzle_metadata : Metadata) (rotation_deg : Z) :
  _match_piece_to_puzzle piece_features puzzle_features puzzle_metadata rotation_deg
  = flat_map
      (fun region =>
         appended (match_region piece_features puzzle_metadata rotation_deg region))
      (regions puzzle_features).
Proof. reflexivity. Qed.

(** Where a returned match comes from. *)
Lemma match_piece_to_puzzle_in
    (piece_features : Features) (puzzle_features : PuzzleFeatures)
    (puzzle_metadata : Metadata) (rotation_deg : Z) (m : Match) :
  In m (_match_piece_to_puzzle piece_features puzzle_features
                               puzzle_metadata rotation_deg)
  <-> exists region,
        In region (regions puzzle_features) /\
        snd (match_region piece_features puzzle_metadata rotation_deg region)
          = Some m.
Proof.
  rewrite match_piece_to_puzzle_eq, in_flat_map.
  split; intros (region & Hin & Hm); exists region; split; auto;
    now apply appended_in.
Qed.

Lemma pool_matches_in
    (piece_features_list : list (Z * Features))
    (puzzle_features : PuzzleFeatures) (puzzle_metadata : Metadata) (m : Match) :
  In m (pool_matches piece_features_list puzzle_features puzzle_metadata)
  <-> exists rotation_deg piece_features,
        In (rotation_deg, piece_features) piece_features_list /\
        In m (_match_piece_to_puzzle piece_features puzzle_features
                                     puzzle_metadata rotation_deg).
Proof.
  unfold pool_matches. rewrite in_flat_map. split.
  - intros ([rot pf] & Hin & Hm). eauto.
  - intros (rot & pf & Hin & Hm). exists (rot, pf). auto.
Qed.

Variable fs : FileSystem.

(** The four outcomes of [find_matches]. *)
Lemma find_matches_cases (piece_bytes : PieceBytes) (puzzle_id : string) (top_k : Z) :
  (load_puzzle_features saved_puzzles fs puzzle_id = None /\
   find_matches fs piece_bytes puzzle_id top_k = [])
  \/ (get_puzzle saved_puzzles fs puzzle_id = None /\
      find_matches fs piece_bytes puzzle_id top_k = [])
  \/ (exists puzzle_features puzzle_metadata,
        load_puzzle_features saved_puzzles fs puzzle_id = Some puzzle_features /\
        get_puzzle saved_puzzles fs puzzle_id = Some puzzle_metadata /\
        find_matches fs piece_bytes puzzle_id top_k
        = slice_to top_k
            (sort_reverse confidence
               (pool_matches (_extract_piece_features_all_orientations piece_bytes)
                             puzzle_features puzzle_metadata))).
Proof.
  unfold find_matches.
  destruct (load_puzzle_features saved_puzzles fs puzzle_id) as [pf|];
    [|left; split; reflexivity].
  destruct (get_puzzle saved_puzzles fs puzzle_id) as [md|];
    [|right; left; split; reflexivity].
  right; right. exists pf, md. repeat split.
Qed.

(** Every returned match was emitted by the cascade for a rotation of the
    piece and a region of the stored descriptor set. *)
Lemma find_matches_provenance
    (piece_bytes : PieceBytes) (puzzle_id : string) (top_k : Z) (m : Match) :
  In m (find_matches fs piece_bytes puzzle_id top_k) ->
  exists puzzle_features puzzle_metadata rotation_deg piece_features region,
    load_puzzle_features saved_puzzles fs puzzle_id = Some puzzle_features /\
    get_puzzle saved_puzzles fs puzzle_id = Some puzzle_metadata /\
    In (rotation_deg, piece_features)
       (_extract_piece_features_all_orientations piece_bytes) /\
    In region (regions puzzle_features) /\
    snd (match_region piece_features puzzle_metadata rotation_deg region) = Some m.
Proof.
  intros Hin.
  destruct (find_matches_cases piece_bytes puzzle_id top_k)
    as [[_ Heq]|[[_ Heq]|(pf & md & Hl & Hg & Heq)]];
    rewrite Heq in Hin; try contradiction.
  apply slice_to_incl, sort_reverse_in, pool_matches_in in Hin.
  destruct Hin as (rot & pfeat & Hrot & Hin).
  apply match_piece_to_puzzle_in in Hin as (region & Hreg & Hm).
  exists pf, md, rot, pfeat, region. tauto.
Qed.

End Cascade.

(** C1.  Every entry of the list returned by [find_matches] has a
    confidence of at least 40, whatever the store, the piece and [top_k]
    are; and a (rotation, region) pair whose fused confidence is below 40
    appends nothing to the matches. *)
Theorem returned_candidates_pass_acceptance_gate
    (E : External) (fs : FileSystem)
    (piece_bytes : PieceBytes) (puzzle_id : string) (top_k : Z) :
  Forall (fun m => confidence m >= 40)
         (find_matches fs piece_bytes puzzle_id top_k)
  /\ forall piece_features puzzle_metadata rotation_deg region,
       fused_confidence piece_features region < 40 ->
       appended (match_region piece_features puzzle_metadata rotation_deg region)
         = [].
Proof.
  split.
  - apply Forall_forall. intros m Hin.
    apply find_matches_provenance in Hin
      as (pf & md & rot & pfeat & region & _ & _ & _ & _ & Hm).
    apply match_region_emitted in Hm as (_ & Hf & -> & _).
    apply Rle_ge. apply (round1_lower 40). lra.
  - intros pfeat md rot region Hlow.
    destruct (match_region_cases pfeat md rot region)
      as [[_ Heq]|[(_ & _ & Heq)|(_ & Hf & _)]];
      try (rewrite Heq; reflexivity).
    lra.
Qed.

(** C2.  If the colour similarity of a piece / region pair is below 0.30,
    the loop body evaluates the colour stage only and emits nothing: the
    shape and embedding stages are not run, the matches of the rotation are
    those of the descriptor set without that region, and no match returned
    by [find_matches] comes from a pair with colour similarity below
    0.30. *)
Theorem color_prefilter_rejects
    (E : External) (fs : FileSystem)
    (piece_features : Features) (puzzle_metadata : Metadata)
    (rotation_deg : Z) (region : Region)
    (Hcolor : color_score_of piece_features region < 0.3) :
  match_region piece_features puzzle_metadata rotation_deg region
    = ([ColorStage], None)
  /\ (forall before after grid,
        _match_piece_to_puzzle piece_features
          {| regions := before ++ region :: after; grid_size := grid |}
          puzzle_metadata rotation_deg
        = _match_piece_to_puzzle piece_features
            {| regions := before ++ after; grid_size := grid |}
            puzzle_metadata rotation_deg)
  /\ (forall before after grid,
        nth_error
          (stages_evaluated piece_features
             {| regions := before ++ region :: after; grid_size := grid |}
             puzzle_metadata rotation_deg)
          (List.length before) = Some [ColorStage])
  /\ (forall piece_bytes puzzle_id top_k m,
        In m (find_matches fs piece_bytes puzzle_id top_k) ->
        exists puzzle_features metadata rotation piece region',
          load_puzzle_features saved_puzzles fs puzzle_id = Some puzzle_features /\
          In (rotation, piece)
             (_extract_piece_features_all_orientations piece_bytes) /\
          In region' (regions puzzle_features) /\
          snd (match_region piece metadata rotation region') = Some m /\
          color_score_of piece region' >= 0.3).
Proof.
  assert (Hreg : match_region piece_features puzzle_metadata rotation_deg region
                 = ([ColorStage], None)).
  { destruct (match_region_cases piece_features puzzle_metadata rotation_deg region)
      as [[_ Heq]|[(Hc & _)|(Hc & _)]]; [assumption | contradiction..]. }
  split; [assumption|]. split; [|split].
  - intros before after grid.
    rewrite !match_piece_to_puzzle_eq. simpl.
    rewrite !flat_map_app. simpl. now rewrite Hreg.
  - intros before after grid.
    unfold stages_evaluated. simpl.
    rewrite map_app. simpl.
    rewrite nth_error_app2; rewrite length_map; [|lia].
    rewrite Nat.sub_diag. simpl. now rewrite Hreg.
  - intros piece_bytes puzzle_id top_k m Hin.
    apply find_matches_provenance in Hin
      as (pf & md & rot & pfeat & region' & Hl & _ & Hrot & Hin & Hm).
    exists pf, md, rot, pfeat, region'.
    repeat split; try assumption.
    apply match_region_emitted in Hm as (Hc & _).
    lra.
Qed.

(** ** Evaluating the test double *)

Module FixtureFacts.

Import Fixture.

Lemma epsilon_small : DBL_EPSILON < 1 / 4.
Proof.
  unfold DBL_EPSILON.
  assert (H : 4 < 2 ^ 52) by (simpl; lra).
  replace (1 / 4) with (/ 4) by lra.
  apply Rinv_lt_contravar; lra.
Qed.

Lemma correl_same : correl [1; 0] [1; 0] = Ok 1.
Proof.
  unfold correl. simpl. f_equal.
  match goal with |- context [sqrt ?d] =>
    replace d with (1 / 2 * (1 / 2)) by lra end.
  rewrite sqrt_square by lra.
  destruct (Rlt_dec _ _); lra.
Qed.

Lemma correl_opposite : correl [1; 0] [0; 1] = Ok (-1).
Proof.
  unfold correl. simpl. f_equal.
  match goal with |- context [sqrt ?d] =>
    replace d with (1 / 2 * (1 / 2)) by lra end.
  rewrite sqrt_square by lra.
  destruct (Rlt_dec _ _) as [_|Hn]; [lra|].
  exfalso. apply Hn.
  rewrite Rabs_pos_eq by lra.
  pose proof epsilon_small. lra.
Qed.

Lemma correl_mismatch : correl [1; 0] [1; 0; 0] = Raise "cv2.error: sizes of the histograms differ".
Proof. reflexivity. Qed.

Lemma color_a_a : color_score_of feat_a region_a = 1.
Proof.
  unfold color_score_of, _compare_color_histograms.
  change (compareHist _ _) with (correl [1; 0] [1; 0]).
  rewrite correl_same. simpl.
  rewrite clamp_id; lra.
Qed.

Lemma color_a_b : color_score_of feat_a region_b = 0.
Proof.
  unfold color_score_of, _compare_color_histograms.
  change (compareHist _ _) with (correl [1; 0] [0; 1]).
  rewrite correl_opposite. simpl.
  replace ((-1 + 1) / 2) with 0 by lra.
  rewrite clamp_id; lra.
Qed.

Lemma color_a_bad : color_score_of feat_a region_bad = 0.
Proof. reflexivity. Qed.

Lemma norm_zero2 : norm [0; 0] = 0.
Proof.
  unfold norm. simpl.
  replace (0 * 0 + (0 * 0 + 0)) with 0 by lra.
  apply sqrt_0.
Qed.

Lemma shape_a_a : shape_score_of feat_a region_a = 1.
Proof.
  unfold shape_score_of, _compare_shape_features, edge_similarity_of,
    hu_similarity_of.
  cbn -[correl norm exp Rmax Rmin Rminus].
  rewrite correl_same.
  cbn -[norm exp Rmax Rmin Rminus].
  replace (0 - 0) with 0 by lra.
  rewrite norm_zero2, Ropp_0, exp_0.
  rewrite clamp_id; lra.
Qed.

Lemma fused_a_a : fused_confidence feat_a region_a >= 40.
Proof.
  unfold fused_confidence, weighted_confidence.
  rewrite color_a_a, shape_a_a.
  pose proof (deep_score_bounds (deep_features feat_a)
                (deep_features (region_features region_a))) as Hd.
  unfold feature_score_of. lra.
Qed.

Lemma fused_a_b : fused_confidence feat_a region_b < 40.
Proof.
  unfold fused_confidence, weighted_confidence.
  rewrite color_a_b.
  pose proof (shape_score_bounds (shape feat_a)
                (shape (region_features region_b))) as Hs.
  unfold shape_score_of.
  assert (Hd : feature_score_of feat_a region_b = 0) by reflexivity.
  rewrite Hd. lra.
Qed.

Lemma extract_piece_a :
  _extract_piece_features_all_orientations piece_a
  = [(0, feat_a); (90, feat_a); (180, feat_a); (270, feat_a)]%Z.
Proof. reflexivity. Qed.

Lemma load_p1 : load_puzzle_features saved_puzzles disk "p1" = Some puzzle_ab.
Proof. reflexivity. Qed.

Lemma meta_p1 : get_puzzle saved_puzzles disk "p1" = Some (meta "p1").
Proof. reflexivity. Qed.

Lemma load_p2 : load_puzzle_features saved_puzzles disk "p2" = Some puzzle_none.
Proof. reflexivity. Qed.

Lemma load_p3 : load_puzzle_features saved_puzzles disk "p3" = None.
Proof. reflexivity. Qed.

Lemma meta_p3 : get_puzzle saved_puzzles disk "p3" = Some (meta "p3").
Proof. reflexivity. Qed.

End FixtureFacts.

(** ** Order of occurrence *)

Section Precedes.

Context {A : Type}.

Lemma precedes_cons (h a b : A) (l : list A) :
  precedes a b l -> precedes a b (h :: l).
Proof.
  intros (l1 & l2 & l3 & ->). now exists (h :: l1), l2, l3.
Qed.

Lemma precedes_in (a b : A) (l : list A) :
  precedes a b l -> In a l /\ In b l.
Proof.
  intros (l1 & l2 & l3 & ->). split.
  - apply in_or_app. right. now left.
  - apply in_or_app. right. right. apply in_or_app. right. now left.
Qed.

Lemma app_split_in (b : A) (t l2 x2 x3 : list A) :
  t ++ l2 = x2 ++ b :: x3 ->
  (exists t2, t = x2 ++ b :: t2) \/ In b l2.
Proof.
  revert x2. induction t as [|h t IH]; intros x2 Heq; simpl in Heq.
  - right. rewrite Heq. apply in_or_app. right. now left.
  - destruct x2 as [|h' x2]; simpl in Heq; injection Heq as -> Heq.
    + left. now exists t.
    + destruct (IH _ Heq) as [[t2 ->]|Hin]; [left; now exists t2 | now right].
Qed.

Lemma precedes_app_inv (a b : A) (l1 l2 : list A) :
  precedes a b (l1 ++ l2) ->
  precedes a b l1 \/ (In a l1 /\ In b l2) \/ precedes a b l2.
Proof.
  intros (x1 & x2 & x3 & Heq).
  revert x1 Heq. induction l1 as [|h t IH]; intros x1 Heq; simpl in Heq.
  - right; right. now exists x1, x2, x3.
  - destruct x1 as [|h' x1]; simpl in Heq; injection Heq as -> Heq.
    + destruct (app_split_in _ _ _ _ _ Heq) as [[t2 ->]|Hin].
      * left. now exists [], x2, t2.
      * right; left. split; [now left | assumption].
    + destruct (IH _ Heq) as [Hp|[[Ha Hb]|Hp]].
      * left. now apply precedes_cons.
      * right; left. split; [now right | assumption].
      * now right; right.
Qed.

Variable f : A -> bool.

Lemma precedes_filter (a b : A) (l : list A) :
  precedes a b l -> f a = true -> f b = true -> precedes a b (filter f l).
Proof.
  intros (l1 & l2 & l3 & ->) Ha Hb.
  exists (filter f l1), (filter f l2), (filter f l3).
  rewrite filter_app. simpl. rewrite Ha, filter_app. simpl. now rewrite Hb.
Qed.

Lemma filter_split (a : A) (l x1 x2 : list A) :
  filter f l = x1 ++ a :: x2 ->
  exists l1 l2, l = l1 ++ a :: l2 /\ filter f l1 = x1 /\ filter f l2 = x2.
Proof.
  revert x1. induction l as [|h t IH]; intros x1 Heq; simpl in Heq.
  - now destruct x1.
  - destruct (f h) eqn:Hh.
    + destruct x1 as [|h' x1]; simpl in Heq; injection Heq as -> Heq.
      * exists [], t. auto.
      * destruct (IH _ Heq) as (l1 & l2 & -> & <- & <-).
        exists (h' :: l1), l2. simpl. rewrite Hh. auto.
    + destruct (IH _ Heq) as (l1 & l2 & -> & <- & <-).
      exists (h :: l1), l2. simpl. rewrite Hh. auto.
Qed.

Lemma filter_precedes (a b : A) (l : list A) :
  precedes a b (filter f l) -> precedes a b l.
Proof.
  intros (x1 & x2 & x3 & Heq).
  apply filter_split in Heq as (l1 & l2 & -> & _ & Heq).
  apply filter_split in Heq as (m1 & m2 & -> & _ & _).
  now exists l1, m1, m2.
Qed.

End Precedes.

Lemma flat_map_split {A B} (g : A -> list B) (b : B) (l : list A) (x1 x2 : list B) :
  (forall r, (List.length (g r) <= 1)%nat) ->
  flat_map g l = x1 ++ b :: x2 ->
  exists l1 r l2,
    l = l1 ++ r :: l2 /\ g r = [b] /\ flat_map g l1 = x1 /\ flat_map g l2 = x2.
Proof.
  intros Hone. revert x1. induction l as [|h t IH]; intros x1 Heq; simpl in Heq.
  - now destruct x1.
  - pose proof (Hone h) as Hh.
    destruct (g h) as [|m [|m' gs]] eqn:Hg; simpl in Hh; try lia; simpl in Heq.
    + destruct (IH _ Heq) as (l1 & r & l2 & -> & Hr & <- & <-).
      exists (h :: l1), r, l2. simpl. rewrite Hg. auto.
    + destruct x1 as [|h' x1]; simpl in Heq; injection Heq as -> Heq.
      * exists [], h, t. auto.
      * destruct (IH _ Heq) as (l1 & r & l2 & -> & Hr & <- & <-).
        exists (h :: l1), r, l2. simpl. rewrite Hg. auto.
Qed.

Lemma flat_map_precedes {A B} (g : A -> list B) (a b : B) (l : list A) :
  (forall r, (List.length (g r) <= 1)%nat) ->
  precedes a b (flat_map g l) ->
  exists ra rb, precedes ra rb l /\ g ra = [a] /\ g rb = [b].
Proof.
  intros Hone (x1 & x2 & x3 & Heq).
  apply flat_map_split in Heq as (l1 & ra & l2 & -> & Ha & _ & Heq); [|assumption].
  apply flat_map_split in Heq as (m1 & rb & m2 & -> & Hb & _ & _); [|assumption].
  exists ra, rb. split; [now exists l1, m1, m2 | auto].
Qed.

Lemma for_each_fst {X Y} (body : X -> result (X * Y)) (l : list X)
    (results : list (X * Y)) :
  (forall x y, body x = Ok y -> fst y = x) ->
  for_each body l = Ok results -> map fst results = l.
Proof.
  intros Hbody. revert results.
  induction l as [|a l IH]; intros results Heq; simpl in Heq.
  - now injection Heq as <-.
  - destruct (body a) as [y|] eqn:Hy; simpl in Heq; [|discriminate].
    destruct (for_each body l) as [ys|]; simpl in Heq; [|discriminate].
    injection Heq as <-. simpl.
    now rewrite (Hbody _ _ Hy), (IH ys).
Qed.

(** ** Pooling and ranking *)

Section Ranking.

Context {E : External}.

Lemma orientations_extracted (piece_bytes : PieceBytes) :
  map fst (_extract_piece_features_all_orientations piece_bytes)
    = [0; 90; 180; 270]%Z
  \/ _extract_piece_features_all_orientations piece_bytes = [].
Proof.
  unfold _extract_piece_features_all_orientations.
  destruct (image_open piece_bytes) as [piece_image|];
    cbn [bind try_except]; [|now right].
  match goal with |- context [for_each ?body ?l] =>
    destruct (for_each body l) as [results|] eqn:Hfor end;
    cbn [bind try_except]; [|now right].
  left. apply for_each_fst in Hfor; [assumption|].
  intros x y Hy.
  destruct (if (x =? 0)%Z then _ else _); simpl in Hy; [|discriminate].
  destruct (extract_piece_features _); simpl in Hy; [|discriminate].
  now injection Hy as <-.
Qed.

Variable puzzle_features : PuzzleFeatures.
Variable puzzle_metadata : Metadata.

Lemma match_piece_to_puzzle_rotation
    (piece_features : Features) (rotation_deg : Z) (m : Match) :
  In m (_match_piece_to_puzzle piece_features puzzle_features
                               puzzle_metadata rotation_deg) ->
  rotation_needed m = rotation_deg.
Proof.
  intros Hin. apply match_piece_to_puzzle_in in Hin as (region & _ & Hm).
  now apply match_region_emitted in Hm.
Qed.

(** In the pool, a match of a smaller rotation comes first; two matches of
    one rotation stand in the order of their regions. *)
Lemma pool_precedes (piece_features_list : list (Z * Features)) (a b : Match) :
  StronglySorted Z.lt (map fst piece_features_list) ->
  precedes a b (pool_matches piece_features_list puzzle_features puzzle_metadata) ->
  (rotation_needed a < rotation_needed b)%Z
  \/ (rotation_needed a = rotation_needed b /\
      exists piece_features,
        In (rotation_needed a, piece_features) piece_features_list /\
        precedes a b
          (_match_piece_to_puzzle piece_features puzzle_features
                                  puzzle_metadata (rotation_needed a))).
Proof.
  induction piece_features_list as [|[rot pf] rest IH]; intros Hs Hp.
  - destruct Hp as (l1 & l2 & l3 & Heq). now destruct l1.
  - simpl in Hs. apply StronglySorted_inv in Hs as [Hrest Hlt].
    change (pool_matches ((rot, pf) :: rest) puzzle_features puzzle_metadata)
      with (_match_piece_to_puzzle pf puzzle_features puzzle_metadata rot
            ++ pool_matches rest puzzle_features puzzle_metadata) in Hp.
    apply precedes_app_inv in Hp as [Hp|[[Ha Hb]|Hp]].
    + right. destruct (precedes_in _ _ _ Hp) as [Ha Hb].
      apply match_piece_to_puzzle_rotation in Ha, Hb.
      rewrite Ha, Hb. split; [reflexivity|].
      exists pf. split; [now left | assumption].
    + left. apply match_piece_to_puzzle_rotation in Ha. rewrite Ha.
      apply pool_matches_in in Hb as (rot' & pf' & Hin' & Hb).
      apply match_piece_to_puzzle_rotation in Hb. rewrite Hb.
      rewrite Forall_forall in Hlt. apply Hlt.
      apply in_map_iff. now exists (rot', pf').
    + destruct (IH Hrest Hp) as [Hlt'|(Heq & pf' & Hin' & Hp')];
        [now left | right].
      split; [assumption|]. exists pf'. split; [now right | assumption].
Qed.

Lemma rotations_increasing : StronglySorted Z.lt [0; 90; 180; 270]%Z.
Proof.
  repeat (constructor; [|repeat constructor; lia]). constructor.
Qed.

End Ranking.

(** C4.  When the descriptor set and the metadata are found and [top_k] is
    not negative, [find_matches] returns the first [top_k] entries of the
    pool of all rotations sorted by confidence, highest first.  The pool
    holds, rotation after rotation and region after region, the candidate
    of every pair of a searched rotation and a region of the descriptor set
    that the cascade accepts, and nothing else.  The piece is searched at
    rotations 0, 90, 180, 270 in this order: at all four when its image
    opens, rotates and converts to arrays, and at none when that raises.
    The sorted pool is a permutation of the pool, its confidences never
    increase, the candidates of one confidence value keep their pool order,
    and so of two candidates that tie the one of the smaller rotation comes
    first, and at equal rotation the one whose region comes first in the
    descriptor set. *)
Theorem ranking_is_stable_top_k
    (E : External) (fs : FileSystem)
    (piece_bytes : PieceBytes) (puzzle_id : string) (top_k : Z)
    (puzzle_features : PuzzleFeatures) (puzzle_metadata : Metadata)
    (Hload : load_puzzle_features saved_puzzles fs puzzle_id = Some puzzle_features)
    (Hmeta : get_puzzle saved_puzzles fs puzzle_id = Some puzzle_metadata)
    (Hk : (0 <= top_k)%Z) :
  let pieces := _extract_piece_features_all_orientations piece_bytes in
  let pool :=
    flat_map
      (fun '(rotation_deg, piece) =>
         flat_map
           (fun region =>
              match snd (match_region piece puzzle_metadata rotation_deg region) with
              | Some m => [m]
              | None => []
              end)
           (regions puzzle_features))
      pieces in
  let ranked := sort_reverse confidence pool in
  find_matches fs piece_bytes puzzle_id top_k = firstn (Z.to_nat top_k) ranked
  /\ (map fst pieces = [0; 90; 180; 270]%Z \/ pieces = [])
  /\ (forall image0 image90 image180 image270 array0 array90 array180 array270,
        image_open piece_bytes = Ok image0 ->
        image_rotate image0 (-90) = Ok image90 ->
        image_rotate image0 (-180) = Ok image180 ->
        image_rotate image0 (-270) = Ok image270 ->
        np_array image0 = Ok array0 ->
        np_array image90 = Ok array90 ->
        np_array image180 = Ok array180 ->
        np_array image270 = Ok array270 ->
        pieces = [(0, _extract_region_features array0);
                  (90, _extract_region_features array90);
                  (180, _extract_region_features array180);
                  (270, _extract_region_features array270)]%Z)
  /\ (forall m,
        In m ranked
        <-> exists rotation_deg piece region,
              In (rotation_deg, piece) pieces
              /\ In region (regions puzzle_features)
              /\ snd (match_region piece puzzle_metadata rotation_deg region)
                 = Some m)
  /\ Permutation pool ranked
  /\ StronglySorted (key_ge confidence) ranked
  /\ (forall c, filter (key_eqb confidence c) ranked
                = filter (key_eqb confidence c) pool)
  /\ (forall a b,
        precedes a b ranked -> confidence a = confidence b ->
        (rotation_needed a < rotation_needed b)%Z
        \/ (rotation_needed a = rotation_needed b /\
            exists piece region_a region_b,
              In (rotation_needed a, piece) pieces /\
              precedes region_a region_b (regions puzzle_features) /\
              snd (match_region piece puzzle_metadata (rotation_needed a) region_a)
                = Some a /\
              snd (match_region piece puzzle_metadata (rotation_needed a) region_b)
                = Some b)).
Proof.
  intros pieces pool ranked.
  assert (Hpool_eq : pool = pool_matches pieces puzzle_features puzzle_metadata)
    by reflexivity.
  subst ranked. clearbody pool. subst pool.
  set (pool := pool_matches pieces puzzle_features puzzle_metadata).
  set (ranked := sort_reverse confidence pool).
  split.
  { unfold find_matches. rewrite Hload, Hmeta. simpl.
    now rewrite slice_to_nonneg. }
  split; [apply orientations_extracted|].
  split.
  { intros image0 image90 image180 image270 array0 array90 array180 array270
           Hopen Hrot90 Hrot180 Hrot270 Harr0 Harr90 Harr180 Harr270.
    subst pieces.
    unfold _extract_piece_features_all_orientations, extract_piece_features,
      try_reraise.
    rewrite Hopen. cbn [bind try_except for_each Z.eqb Z.opp].
    rewrite Harr0. cbn [bind try_except].
    rewrite Hrot90. cbn [bind try_except]. rewrite Harr90. cbn [bind try_except].
    rewrite Hrot180. cbn [bind try_except]. rewrite Harr180. cbn [bind try_except].
    rewrite Hrot270. cbn [bind try_except]. rewrite Harr270. reflexivity. }
  split.
  { intros m.
    assert (Hperm : Permutation pool ranked) by apply sort_reverse_perm.
    split.
    - intros Hin. apply (Permutation_in _ (Permutation_sym Hperm)) in Hin.
      apply pool_matches_in in Hin as (rot & pf & Hpiece & Hin).
      apply match_piece_to_puzzle_in in Hin as (region & Hregion & Hm).
      now exists rot, pf, region.
    - intros (rot & pf & region & Hpiece & Hregion & Hm).
      apply (Permutation_in _ Hperm).
      apply pool_matches_in. exists rot, pf. split; [assumption|].
      apply match_piece_to_puzzle_in. now exists region. }
  split; [apply sort_reverse_perm|].
  split; [apply sort_reverse_sorted|].
  split; [intros c; apply sort_reverse_stable|].
  intros a b Hp Hc.
  assert (Hpool : precedes a b pool).
  { apply (filter_precedes (key_eqb confidence (confidence a))).
    rewrite <- sort_reverse_stable.
    apply precedes_filter; [assumption | |]; unfold key_eqb.
    - destruct (Req_dec_T _ _); [reflexivity | contradiction].
    - destruct (Req_dec_T _ _) as [|Hn]; [reflexivity | now rewrite Hc in Hn]. }
  assert (Hsorted : StronglySorted Z.lt (map fst pieces)).
  { destruct (orientations_extracted piece_bytes) as [Heq|Heq];
      fold pieces in Heq; rewrite Heq; [apply rotations_increasing | constructor]. }
  destruct (pool_precedes _ _ _ a b Hsorted Hpool)
    as [Hlt|(Heq & pf & Hin & Hp')]; [now left | right].
  split; [assumption|].
  rewrite match_piece_to_puzzle_eq in Hp'.
  apply flat_map_precedes in Hp' as (ra & rb & Hregs & Ha & Hb);
    [|intros r; apply appended_length].
  exists pf, ra, rb. repeat split; try assumption.
  - apply appended_in. rewrite Ha. now left.
  - apply appended_in. rewrite Hb. now left.
Qed.

(** ** Shaping the response *)

Section Response.

Context {E : External}.
Variable fs : FileSystem.

(** A request either is answered with an error body or with the response
    prepared from the matches of the engine at the default [top_k]. *)
Lemma analyze_piece_cases (incoming : result Request) :
  success (fst (analyze_piece fs incoming)) = false
  \/ exists piece_bytes puzzle_id,
       analyze_piece fs incoming
       = prepare_response (find_matches fs piece_bytes puzzle_id default_top_k).
Proof.
  unfold analyze_piece.
  destruct incoming as [request|e]; [|now left]. cbn [bind].
  destruct (files_piece request) as [piece_file|]; [|now left].
  destruct (form_puzzle_id request) as [puzzle_id|]; [|now left].
  destruct (validate_piece_upload piece_file) as [[|] error_msg]; [|now left].
  simpl.
  destruct (get_puzzle saved_puzzles fs puzzle_id); [|now left].
  destruct (file_read piece_file) as [piece_bytes|]; [|now left].
  simpl.
  destruct (check_image_quality piece_bytes) as [[[|] quality_msg] quality_score];
    [|now left].
  right. now exists piece_bytes, puzzle_id.
Qed.

(** With a positive [top_k] the returned list is empty exactly when the
    pool is. *)
Lemma find_matches_empty_iff
    (piece_bytes : PieceBytes) (puzzle_id : string)
    (puzzle_features : PuzzleFeatures) (puzzle_metadata : Metadata) :
  load_puzzle_features saved_puzzles fs puzzle_id = Some puzzle_features ->
  get_puzzle saved_puzzles fs puzzle_id = Some puzzle_metadata ->
  (find_matches fs piece_bytes puzzle_id default_top_k = []
   <-> pool_matches (_extract_piece_features_all_orientations piece_bytes)
                    puzzle_features puzzle_metadata = []).
Proof.
  intros Hload Hmeta. unfold find_matches. rewrite Hload, Hmeta. simpl.
  set (pool := pool_matches _ _ _).
  split.
  - intros Hnil.
    destruct pool as [|m pool'] eqn:Hp; [reflexivity|].
    assert (Hin : In m (sort_reverse confidence (m :: pool')))
      by (apply sort_reverse_in; now left).
    destruct (sort_reverse confidence (m :: pool')); [contradiction|].
    discriminate Hnil.
  - intros ->. reflexivity.
Qed.

End Response.

Lemma warnings_differ : no_match_warning <> low_confidence_warning.
Proof. discriminate. Qed.

(** C5.  In the response prepared from the returned matches, [best_match]
    is the first match.  If it exists with confidence at least 80, the
    alternatives are exactly the later matches with confidence at least 80,
    in their ranked order; if there is no match or the best has confidence
    below 80, the alternatives are empty whatever the other scores are. *)
Theorem alternatives_policy (matches : list Match) :
  let response := fst (prepare_response matches) in
  best_match_of response = hd_error matches
  /\ (forall best rest,
        matches = best :: rest -> confidence best >= 80 ->
        alternatives_of response = filter confidence_ge_80 rest
        /\ forall m, In m (alternatives_of response)
                     <-> In m rest /\ confidence m >= 80)
  /\ (forall best rest,
        matches = best :: rest -> confidence best < 80 ->
        alternatives_of response = [])
  /\ (matches = [] -> alternatives_of response = []).
Proof.
  intros response. subst response.
  destruct matches as [|b rest]; simpl.
  - repeat split; try discriminate.
  - split; [reflexivity|]. split; [|split; [|discriminate]].
    + intros best rest' [= <- <-] Hge.
      destruct (Rge_dec (confidence b) 80); [|contradiction].
      split; [reflexivity|].
      intros m. rewrite filter_In. unfold confidence_ge_80.
      destruct (Rge_dec (confidence m) 80);
        split; intros [? ?]; try discriminate; try contradiction; auto.
    + intros best rest' [= <- <-] Hlt.
      destruct (Rge_dec (confidence b) 80); [lra | reflexivity].
Qed.

(** C6.  The prepared response is a success with status 200 whose
    [best_match] is the first match, or null when there is none.  Its
    warning is the "no confident match" message exactly when the list of
    matches is empty, the "low confidence" message exactly when the best
    match has confidence below 80, and null exactly when it has confidence
    at least 80.  For a puzzle whose descriptors and metadata load, the list
    is empty exactly when no candidate of any rotation passed the acceptance
    gate; and every request that is not answered with an error is answered
    with this response. *)
Theorem warning_policy (E : External) (fs : FileSystem) (matches : list Match) :
  let response := fst (prepare_response matches) in
  success response = true
  /\ snd (prepare_response matches) = 200%Z
  /\ best_match_of response = hd_error matches
  /\ (warning_of response = Some no_match_warning <-> matches = [])
  /\ (warning_of response = Some low_confidence_warning
      <-> exists best rest, matches = best :: rest /\ confidence best < 80)
  /\ (warning_of response = None
      <-> exists best rest, matches = best :: rest /\ confidence best >= 80)
  /\ (forall piece_bytes puzzle_id puzzle_features puzzle_metadata,
        load_puzzle_features saved_puzzles fs puzzle_id = Some puzzle_features ->
        get_puzzle saved_puzzles fs puzzle_id = Some puzzle_metadata ->
        (find_matches fs piece_bytes puzzle_id default_top_k = []
         <-> pool_matches (_extract_piece_features_all_orientations piece_bytes)
                          puzzle_features puzzle_metadata = []))
  /\ (forall request,
        success (fst (analyze_piece fs request)) = false
        \/ exists piece_bytes puzzle_id,
             analyze_piece fs request
             = prepare_response
                 (find_matches fs piece_bytes puzzle_id default_top_k)).
Proof.
  intros response. subst response.
  assert (Hlast :
    (forall piece_bytes puzzle_id puzzle_features puzzle_metadata,
        load_puzzle_features saved_puzzles fs puzzle_id = Some puzzle_features ->
        get_puzzle saved_puzzles fs puzzle_id = Some puzzle_metadata ->
        (find_matches fs piece_bytes puzzle_id default_top_k = []
         <-> pool_matches (_extract_piece_features_all_orientations piece_bytes)
                          puzzle_features puzzle_metadata = []))
    /\ (forall request,
        success (fst (analyze_piece fs request)) = false
        \/ exists piece_bytes puzzle_id,
             analyze_piece fs request
             = prepare_response
                 (find_matches fs piece_bytes puzzle_id default_top_k))).
  { split; [apply find_matches_empty_iff | apply analyze_piece_cases]. }
  destruct Hlast as [Hpool Hreq].
  assert (Hdiff : Some no_match_warning <> Some low_confidence_warning).
  { intros H. apply warnings_differ. congruence. }
  destruct matches as [|b rest]; simpl.
  - split; [reflexivity|]. split; [reflexivity|]. split; [reflexivity|].
    split; [tauto|].
    split; [split; [intros H; now apply Hdiff in H
                   | intros (best & rest & Hnil & _); discriminate Hnil]|].
    split; [split; [discriminate
                   | intros (best & rest & Hnil & _); discriminate Hnil]|].
    split; assumption.
  - split; [reflexivity|]. split; [reflexivity|]. split; [reflexivity|].
    destruct (Rlt_dec (confidence b) 80) as [Hlt|Hge].
    + split; [split; [intros H; symmetry in H; now apply Hdiff in H
                     | discriminate]|].
      split; [split; [intros _; now exists b, rest
                     | reflexivity]|].
      split; [split; [discriminate
                     | intros (best & rest' & [= <- <-] & Hc); lra]|].
      split; assumption.
    + split; [split; discriminate|].
      split; [split; [discriminate
                     | intros (best & rest' & [= <- <-] & Hc); contradiction]|].
      split; [split; [intros _; exists b, rest; split; [reflexivity | lra]
                     | reflexivity]|].
      split; assumption.
Qed.

(** ** [range] and the grid *)

Lemma range_from_seq (start step_ : Z) (n : nat) :
  range_from start step_ n
  = map (fun i => (start + Z.of_nat i * step_)%Z) (seq 0 n).
Proof.
  revert start. induction n as [|n IH]; intros start; [reflexivity|].
  simpl. f_equal; [lia|].
  rewrite IH, <- seq_shift, map_map.
  apply map_ext. intros i. lia.
Qed.

Lemma range_length (start stop step_ : Z) :
  List.length (range start stop step_) = range_len start stop step_.
Proof.
  unfold range. rewrite range_from_seq, length_map. apply length_seq.
Qed.

(** [range(0, stop, step)] holds the multiples of [step] below [stop]. *)
Lemma range_in (stop step_ y : Z) :
  (0 < step_)%Z ->
  In y (range 0 stop step_)
  <-> (0 <= y < stop /\ exists i, y = i * step_)%Z.
Proof.
  intros Hstep. unfold range, range_len.
  rewrite range_from_seq, in_map_iff.
  replace (stop - 0 + step_ - 1)%Z with (stop - 1 + 1 * step_)%Z by lia.
  rewrite Z.div_add by lia.
  split.
  - intros (i & <- & Hi). apply in_seq in Hi.
    assert (Hq : (Z.of_nat i < (stop - 1) / step_ + 1)%Z) by lia.
    assert (Hle : (Z.of_nat i * step_ <= stop - 1)%Z).
    { transitivity (step_ * ((stop - 1) / step_))%Z.
      - rewrite (Z.mul_comm step_). apply Z.mul_le_mono_nonneg_r; lia.
      - apply Z.mul_div_le. lia. }
    split; [lia|]. exists (Z.of_nat i). lia.
  - intros ([Hy Hlt] & i & ->).
    assert (Hi : (0 <= i)%Z) by nia.
    exists (Z.to_nat i). split; [lia|].
    apply in_seq. split; [lia|].
    assert (Hq : (i <= (stop - 1) / step_)%Z).
    { apply Z.div_le_lower_bound; lia. }
    lia.
Qed.

Section Grid.

Context {E : External}.

Lemma grid_rows_count (extent : Z) :
  range_len 0 (extent - window_size + 1) step
  = Z.to_nat ((extent - window_size) / step + 1).
Proof.
  unfold range_len, window_size, step, overlap, window_size.
  f_equal.
  replace (extent - 100 + 1 - 0 + (100 - 50) - 1)%Z
    with (extent - 100 + 1 * (100 - 50))%Z by lia.
  now rewrite Z.div_add by lia.
Qed.

Lemma grid_regions_length (puzzle_array : Array) (height width : Z) :
  List.length (grid_regions puzzle_array height width)
  = (Z.to_nat ((height - window_size) / step + 1)
     * Z.to_nat ((width - window_size) / step + 1))%nat.
Proof.
  unfold grid_regions.
  rewrite (flat_map_constant_length
             (c := Z.to_nat ((width - window_size) / step + 1))).
  - now rewrite range_length, grid_rows_count.
  - intros y _. now rewrite length_map, range_length, grid_rows_count.
Qed.

Lemma grid_regions_positions (puzzle_array : Array) (height width : Z) :
  map position (grid_regions puzzle_array height width)
  = flat_map
      (fun row =>
         map (fun col => (Z.of_nat col * step, Z.of_nat row * step)%Z)
             (seq 0 (Z.to_nat ((width - window_size) / step + 1))))
      (seq 0 (Z.to_nat ((height - window_size) / step + 1))).
Proof.
  unfold grid_regions, range.
  rewrite !grid_rows_count, !range_from_seq.
  rewrite flat_map_concat_map, concat_map, map_map, map_map,
    <- flat_map_concat_map.
  apply flat_map_ext. intros row.
  rewrite !map_map. apply map_ext. intros col. reflexivity.
Qed.

Lemma grid_regions_inside (puzzle_array : Array) (height width : Z) :
  Forall (fun r => region_width r = window_size /\
                   region_height r = window_size /\
                   inside_image width height r)
         (grid_regions puzzle_array height width).
Proof.
  apply Forall_forall. intros r Hin.
  unfold grid_regions in Hin.
  apply in_flat_map in Hin as (y & Hy & Hin).
  apply in_map_iff in Hin as (x & <- & Hx).
  apply range_in in Hx, Hy; try (unfold step, window_size, overlap; lia).
  unfold inside_image. simpl. unfold window_size in *. lia.
Qed.

End Grid.

(** X25.  For an image at least one stride (50 pixels) wide and
    high, [extract_puzzle_features] returns [rows = (height - 100) div 50 + 1]
    and [cols = (width - 100) div 50 + 1] as the grid size and exactly
    [rows * cols] regions, generated row by row with stride 50: the region
    of row [r] and column [c] lies at [(50 c, 50 r)].  Every region is
    100 x 100 and inside the image.  A 300 x 200 image gives 3 rows, 5
    columns and 15 regions, the first at (0,0) and the last at (200,100). *)
Theorem grid_decomposition
    (E : External) (puzzle_image : Image) (puzzle_array : Array)
    (height width : Z)
    (Harray : np_array puzzle_image = Ok puzzle_array)
    (Hshape : array_shape puzzle_array = (height, width))
    (Hheight : (window_size - step <= height)%Z)
    (Hwidth : (window_size - step <= width)%Z) :
  let rows := ((height - window_size) / step + 1)%Z in
  let cols := ((width - window_size) / step + 1)%Z in
  exists puzzle_features,
    extract_puzzle_features puzzle_image = Ok puzzle_features
    /\ step = 50%Z
    /\ grid_size puzzle_features = (rows, cols)
    /\ Z.of_nat (List.length (regions puzzle_features)) = (rows * cols)%Z
    /\ map position (regions puzzle_features)
       = flat_map
           (fun row =>
              map (fun col => (Z.of_nat col * step, Z.of_nat row * step)%Z)
                  (seq 0 (Z.to_nat cols)))
           (seq 0 (Z.to_nat rows))
    /\ Forall (fun r => region_width r = window_size /\
                        region_height r = window_size /\
                        inside_image width height r)
              (regions puzzle_features)
    /\ (height = 200%Z -> width = 300%Z ->
        rows = 3%Z /\ cols = 5%Z /\
        map position (regions puzzle_features)
        = [(0, 0); (50, 0); (100, 0); (150, 0); (200, 0);
           (0, 50); (50, 50); (100, 50); (150, 50); (200, 50);
           (0, 100); (50, 100); (100, 100); (150, 100); (200, 100)]%Z).
Proof.
  intros rows cols.
  exists {| regions := grid_regions puzzle_array height width;
            grid_size := (rows, cols) |}.
  split.
  { unfold extract_puzzle_features, try_reraise.
    rewrite Harray. simpl. now rewrite Hshape. }
  split; [reflexivity|].
  split; [reflexivity|].
  assert (Hrows : (0 <= rows)%Z).
  { subst rows. unfold window_size, step, overlap, window_size in *.
    assert ((-1 <= (height - 100) / (100 - 50))%Z)
      by (apply Z.div_le_lower_bound; lia).
    lia. }
  assert (Hcols : (0 <= cols)%Z).
  { subst cols. unfold window_size, step, overlap, window_size in *.
    assert ((-1 <= (width - 100) / (100 - 50))%Z)
      by (apply Z.div_le_lower_bound; lia).
    lia. }
  split.
  { cbn [regions]. rewrite grid_regions_length. fold rows cols. lia. }
  split; [apply grid_regions_positions|].
  split; [apply grid_regions_inside|].
  intros -> ->. cbn [regions]. rewrite grid_regions_positions.
  subst rows cols. repeat split.
Qed.

Lemma grid_decomposition_witness :
  let rows := ((200 - window_size) / step + 1)%Z in
  let cols := ((300 - window_size) / step + 1)%Z in
  exists puzzle_features,
    extract_puzzle_features (E := Fixture.fake) Fixture.wide_image
      = Ok puzzle_features
    /\ step = 50%Z
    /\ grid_size puzzle_features = (rows, cols)
    /\ Z.of_nat (List.length (regions puzzle_features)) = (rows * cols)%Z
    /\ map position (regions puzzle_features)
       = flat_map
           (fun row =>
              map (fun col => (Z.of_nat col * step, Z.of_nat row * step)%Z)
                  (seq 0 (Z.to_nat cols)))
           (seq 0 (Z.to_nat rows))
    /\ Forall (fun r => region_width r = window_size /\
                        region_height r = window_size /\
                        inside_image 300 200 r)
              (regions puzzle_features)
    /\ (200%Z = 200%Z -> 300%Z = 300%Z ->
        rows = 3%Z /\ cols = 5%Z /\
        map position (regions puzzle_features)
        = [(0, 0); (50, 0); (100, 0); (150, 0); (200, 0);
           (0, 50); (50, 50); (100, 50); (150, 50); (200, 50);
           (0, 100); (50, 100); (100, 100); (150, 100); (200, 100)]%Z).
Proof.
  apply (grid_decomposition Fixture.fake Fixture.wide_image
           {| Fixture.fa_height := 200; Fixture.fa_width := 300;
              Fixture.fa_features := Fixture.feat_a |} 200 300).
  - reflexivity.
  - reflexivity.
  - vm_compute. discriminate.
  - vm_compute. discriminate.
Defined.


(** ** Zero vectors and the shape stage *)

Lemma zip_sub_zeros (n : nat) : zip_sub (zeros n) (zeros n) = zeros n.
Proof.
  unfold zeros. induction n as [|n IH]; [reflexivity|].
  simpl. rewrite IH. f_equal. lra.
Qed.

Lemma sum_sq_zeros (n : nat) : sum_sq (zeros n) = 0.
Proof.
  unfold sum_sq, zeros. induction n as [|n IH]; [reflexivity|].
  simpl. rewrite IH. lra.
Qed.

Lemma norm_zeros (n : nat) : norm (zeros n) = 0.
Proof. unfold norm. rewrite sum_sq_zeros. apply sqrt_0. Qed.

Lemma sub_same_length (a b : vec) :
  List.length a = List.length b -> Np.sub a b = Ok (zip_sub a b).
Proof. intros Hlen. unfold Np.sub. now rewrite Hlen, Nat.eqb_refl. Qed.

Lemma norm_nonneg (a : vec) : 0 <= norm a.
Proof. apply sqrt_pos. Qed.

Lemma exp_neg_range (x : R) : 0 <= x -> 0 < exp (- x) <= 1.
Proof.
  intros Hx. split; [apply exp_pos|].
  destruct (Req_dec x 0) as [->|Hne].
  - rewrite Ropp_0, exp_0. lra.
  - rewrite <- exp_0. left. apply exp_increasing. lra.
Qed.

Lemma hu_similarity_range (shape1 shape2 : Shape) (h : R) :
  hu_similarity_of shape1 shape2 = Ok h -> 0 < h <= 1.
Proof.
  unfold hu_similarity_of.
  destruct (hu_moments shape1) as [hu1|], (hu_moments shape2) as [hu2|];
    try (intros [= <-]; lra).
  destruct (Np.sub hu1 hu2) as [d|]; simpl; [|discriminate].
  intros [= <-]. apply exp_neg_range, norm_nonneg.
Qed.

Lemma hu_similarity_zeros (shape1 shape2 : Shape) (n : nat) :
  hu_moments shape1 = Some (zeros n) ->
  hu_moments shape2 = Some (zeros n) ->
  hu_similarity_of shape1 shape2 = Ok 1.
Proof.
  intros H1 H2. unfold hu_similarity_of. rewrite H1, H2.
  rewrite sub_same_length by reflexivity. simpl.
  now rewrite zip_sub_zeros, norm_zeros, Ropp_0, exp_0.
Qed.

(** C9, as amended.  In the shape stage a sub-similarity is the neutral
    prior 0.5 when the edge histogram (resp. the Hu-moment vector) is absent
    on either side.  Vectors that are present are compared as they are, also
    when they are all zero: the Hu similarity is [exp (- distance)], which
    is 1 for two all-zero vectors.  The shape similarity is the mean of the
    two sub-similarities, clamped to [0,1] (the clamp changes nothing when
    the edge similarity is in [0,1]); a comparison that raises makes the
    stage return 0.5.  The stage always returns a value in [0,1]; zero
    vectors of equal length never raise in the Hu comparison, and a failed
    shape extraction yields the all-zero vectors of lengths 16 and 7. *)
Theorem shape_stage_neutral_prior (E : External) (shape1 shape2 : Shape) :
  (edge_hist shape1 = None \/ edge_hist shape2 = None ->
   edge_similarity_of shape1 shape2 = Ok 0.5)
  /\ (hu_moments shape1 = None \/ hu_moments shape2 = None ->
      hu_similarity_of shape1 shape2 = Ok 0.5)
  /\ (forall hu1 hu2 diff,
        hu_moments shape1 = Some hu1 -> hu_moments shape2 = Some hu2 ->
        Np.sub hu1 hu2 = Ok diff ->
        hu_similarity_of shape1 shape2 = Ok (exp (- norm diff)))
  /\ (forall n,
        hu_moments shape1 = Some (zeros n) ->
        hu_moments shape2 = Some (zeros n) ->
        hu_similarity_of shape1 shape2 = Ok 1)
  /\ (forall n hu2,
        hu_moments shape1 = Some (zeros n) ->
        hu_moments shape2 = Some hu2 -> List.length hu2 = n ->
        exists h, hu_similarity_of shape1 shape2 = Ok h)
  /\ (forall e h,
        edge_similarity_of shape1 shape2 = Ok e ->
        hu_similarity_of shape1 shape2 = Ok h ->
        _compare_shape_features shape1 shape2 = Rmax 0 (Rmin 1 ((e + h) / 2))
        /\ (0 <= e <= 1 -> _compare_shape_features shape1 shape2 = (e + h) / 2))
  /\ (forall msg,
        edge_similarity_of shape1 shape2 = Raise msg \/
        hu_similarity_of shape1 shape2 = Raise msg ->
        _compare_shape_features shape1 shape2 = 0.5)
  /\ 0 <= _compare_shape_features shape1 shape2 <= 1
  /\ (forall image_array msg,
        cv_shape image_array = Raise msg ->
        _extract_shape_features image_array = fallback_shape).
Proof.
  split.
  { unfold edge_similarity_of.
    intros [H|H]; rewrite H; [|destruct (edge_hist shape1)]; reflexivity. }
  split.
  { unfold hu_similarity_of.
    intros [H|H]; rewrite H; [|destruct (hu_moments shape1)]; reflexivity. }
  split.
  { intros hu1 hu2 diff H1 H2 Hsub. unfold hu_similarity_of.
    now rewrite H1, H2, Hsub. }
  split; [intros n; apply hu_similarity_zeros|].
  split.
  { intros n hu2 H1 H2 Hlen. unfold hu_similarity_of. rewrite H1, H2.
    rewrite sub_same_length; [simpl; eauto|].
    unfold zeros. now rewrite repeat_length. }
  split.
  { intros e h He Hh. unfold _compare_shape_features. rewrite He, Hh. simpl.
    split; [reflexivity|]. intros Hrange.
    apply hu_similarity_range in Hh. apply clamp_id. lra. }
  split.
  { intros msg [H|H]; unfold _compare_shape_features; rewrite H;
      [|destruct (edge_similarity_of shape1 shape2)]; reflexivity. }
  split; [apply shape_score_bounds|].
  intros image_array msg Hraise. unfold _extract_shape_features.
  now rewrite Hraise.
Qed.

(** C9 as stated fails where shape extraction has failed on both sides:
    the Hu vectors are all zero, hence degenerate, and their similarity is
    1, not the neutral prior 0.5. *)
Lemma zero_hu_moments_are_not_neutral :
  degenerate (hu_moments fallback_shape)
  /\ hu_similarity_of fallback_shape fallback_shape = Ok 1
  /\ hu_similarity_of fallback_shape fallback_shape <> Ok 0.5.
Proof.
  assert (H : hu_similarity_of fallback_shape fallback_shape = Ok 1)
    by (apply (hu_similarity_zeros _ _ 7); reflexivity).
  split; [right; now exists 7%nat|].
  split; [assumption|].
  rewrite H. intros [= Habs]. lra.
Qed.

(** ** Failures inside [find_matches] *)

Section Failures.

Context {E : External}.
Variable fs : FileSystem.

Lemma find_matches_missing_features
    (piece_bytes : PieceBytes) (puzzle_id : string) (top_k : Z) :
  load_puzzle_features saved_puzzles fs puzzle_id = None ->
  find_matches fs piece_bytes puzzle_id top_k = [].
Proof. intros H. unfold find_matches. now rewrite H. Qed.


Lemma slice_to_nil {A} (k : Z) : slice_to k (@nil A) = [].
Proof.
  unfold slice_to. destruct (0 <=? k)%Z; apply firstn_nil.
Qed.

Lemma find_matches_empty_pool
    (piece_bytes : PieceBytes) (puzzle_id : string) (top_k : Z) :
  (forall puzzle_features puzzle_metadata,
     load_puzzle_features saved_puzzles fs puzzle_id = Some puzzle_features ->
     get_puzzle saved_puzzles fs puzzle_id = Some puzzle_metadata ->
     pool_matches (_extract_piece_features_all_orientations piece_bytes)
                  puzzle_features puzzle_metadata = []) ->
  find_matches fs piece_bytes puzzle_id top_k = [].
Proof.
  intros Hpool.
  destruct (find_matches_cases fs piece_bytes puzzle_id top_k)
    as [[_ Heq]|[[_ Heq]|(pf & md & Hl & Hg & Heq)]]; try assumption.
  rewrite Heq, (Hpool pf md Hl Hg). apply slice_to_nil.
Qed.



End Failures.

(** C8, as amended.  When the store has no descriptor set for the puzzle
    id, [find_matches] gives no not-found signal: it returns the empty list,
    the value it also returns when no candidate passes the gates, and the
    route, for a valid upload of sufficient quality to a puzzle whose
    metadata exists, turns it into the successful "no confident match"
    response with status 200.  The route answers with status 404 only when
    the metadata of the requested puzzle is missing, and then with the error
    "Puzzle not found"; it does so for every valid upload to such a
    puzzle. *)
Theorem missing_descriptors_yield_empty_list
    (E : External) (fs : FileSystem)
    (piece_bytes : PieceBytes) (puzzle_id : string) (top_k : Z)
    (Hmissing : load_puzzle_features saved_puzzles fs puzzle_id = None) :
  find_matches fs piece_bytes puzzle_id top_k = []
  /\ (forall puzzle_id' puzzle_features puzzle_metadata,
        load_puzzle_features saved_puzzles fs puzzle_id' = Some puzzle_features ->
        get_puzzle saved_puzzles fs puzzle_id' = Some puzzle_metadata ->
        pool_matches (_extract_piece_features_all_orientations piece_bytes)
                     puzzle_features puzzle_metadata = [] ->
        find_matches fs piece_bytes puzzle_id' top_k
        = find_matches fs piece_bytes puzzle_id top_k)
  /\ (forall request piece_file uploaded,
        files_piece request = Some piece_file ->
        form_puzzle_id request = Some puzzle_id ->
        fst (validate_piece_upload piece_file) = true ->
        get_puzzle saved_puzzles fs puzzle_id <> None ->
        file_read piece_file = Ok uploaded ->
        fst (fst (check_image_quality uploaded)) = true ->
        analyze_piece fs (Ok request)
        = (Matched None [] (Some no_match_warning), 200%Z))
  /\ (forall incoming,
        snd (analyze_piece fs incoming) = 404%Z ->
        exists request requested,
          incoming = Ok request
          /\ form_puzzle_id request = Some requested
          /\ get_puzzle saved_puzzles fs requested = None
          /\ fst (analyze_piece fs incoming)
             = Failure "Puzzle not found" None None)
  /\ (forall request piece_file requested,
        files_piece request = Some piece_file ->
        form_puzzle_id request = Some requested ->
        fst (validate_piece_upload piece_file) = true ->
        get_puzzle saved_puzzles fs requested = None ->
        analyze_piece fs (Ok request)
        = (Failure "Puzzle not found" None None, 404%Z)).
Proof.
  pose proof (find_matches_missing_features fs piece_bytes puzzle_id top_k Hmissing)
    as Hnil.
  split; [assumption|].
  split.
  { intros id' pf md Hl Hg Hpool. rewrite Hnil.
    apply find_matches_empty_pool. intros pf' md' Hl' Hg'.
    rewrite Hl in Hl'. rewrite Hg in Hg'.
    injection Hl' as <-. injection Hg' as <-. assumption. }
  split.
  { intros request piece_file uploaded Hfile Hid Hvalid Hmeta Hread Hquality.
    unfold analyze_piece. cbn [bind]. rewrite Hfile, Hid.
    destruct (validate_piece_upload piece_file) as [is_valid error_msg].
    cbn [fst] in Hvalid. subst is_valid. cbn [negb].
    destruct (get_puzzle saved_puzzles fs puzzle_id) as [puzzle|];
      [|contradiction].
    rewrite Hread. cbn [bind].
    destruct (check_image_quality uploaded) as [[quality_ok quality_msg] score].
    cbn [fst] in Hquality. subst quality_ok. cbn [negb].
    rewrite (find_matches_missing_features fs uploaded puzzle_id default_top_k
               Hmissing).
    reflexivity. }
  split.
  { intros incoming. unfold analyze_piece.
    destruct incoming as [request|e]; [|cbn; discriminate]. cbn [bind].
    destruct (files_piece request) as [piece_file|]; [|cbn; discriminate].
    destruct (form_puzzle_id request) as [requested|] eqn:Hid;
      [|cbn; discriminate].
    destruct (validate_piece_upload piece_file) as [[|] error_msg];
      [|cbn; discriminate].
    cbn [negb].
    destruct (get_puzzle saved_puzzles fs requested) as [puzzle|] eqn:Hmeta.
    - destruct (file_read piece_file) as [uploaded|e]; [|cbn; discriminate].
      cbn [bind].
      destruct (check_image_quality uploaded)
        as [[[|] quality_msg] score]; [|cbn; discriminate].
      cbn [negb try_except].
      destruct (find_matches fs uploaded requested default_top_k);
        cbn; discriminate.
    - intros _. exists request, requested. repeat split; assumption. }
  intros request piece_file requested Hfile Hid Hvalid Hnone.
  unfold analyze_piece. cbn [bind]. rewrite Hfile, Hid.
  destruct (validate_piece_upload piece_file) as [is_valid error_msg].
  cbn [fst] in Hvalid. subst is_valid. cbn [negb]. now rewrite Hnone.
Qed.

Lemma missing_descriptors_yield_empty_list_witness :
  load_puzzle_features saved_puzzles Fixture.disk "p3" = None
  /\ find_matches (E := Fixture.fake) Fixture.disk Fixture.piece_a "p3"
                  default_top_k = []
  /\ analyze_piece (E := Fixture.fake) Fixture.disk
       (Ok (@mkRequest Fixture.fake (Some Fixture.piece_a) (Some "p3"%string)))
     = (Matched None [] (Some no_match_warning), 200%Z).
Proof.
  split; [reflexivity|].
  destruct (missing_descriptors_yield_empty_list
              Fixture.fake Fixture.disk Fixture.piece_a "p3" default_top_k
              eq_refl) as (Hnil & _ & Hroute & _).
  split; [exact Hnil|].
  apply (Hroute (@mkRequest Fixture.fake (Some Fixture.piece_a) (Some "p3"%string))
                Fixture.piece_a Fixture.piece_a);
    try reflexivity.
  discriminate.
Defined.

(** C8 as stated fails: for puzzle [p3], whose descriptor set is missing,
    the engine returns the same empty list as for puzzle [p2], whose
    descriptor set is present and yields no candidate, and the route
    reports a success. *)
Lemma missing_descriptors_not_signalled :
  load_puzzle_features saved_puzzles Fixture.disk "p3" = None
  /\ load_puzzle_features saved_puzzles Fixture.disk "p2"
     = Some Fixture.puzzle_none
  /\ find_matches (E := Fixture.fake) Fixture.disk Fixture.piece_a "p3"
                  default_top_k = []
  /\ find_matches (E := Fixture.fake) Fixture.disk Fixture.piece_a "p3"
                  default_top_k
     = find_matches (E := Fixture.fake) Fixture.disk Fixture.piece_a "p2"
                    default_top_k
  /\ analyze_piece (E := Fixture.fake) Fixture.disk
       (Ok (@mkRequest Fixture.fake (Some Fixture.piece_a) (Some "p3"%string)))
     = (Matched None [] (Some no_match_warning), 200%Z).
Proof. repeat split. Qed.



(** ** The statements at the test double *)

Lemma fused_confidence_formula_and_range_witness :
  (0 <= 1 <= 1)
  /\ weighted_confidence 1 1 1 = 100 * (0.25 * 1 + 0.25 * 1 + 0.50 * 1)
  /\ 0 <= weighted_confidence 1 1 1 <= 100.
Proof.
  split; [lra|].
  destruct (fused_confidence_formula_and_range Fixture.fake 1 1 1)
    as (Hformula & Hrange & _); [lra | lra | lra |].
  split; assumption.
Defined.

Lemma returned_candidates_pass_acceptance_gate_witness :
  fused_confidence (E := Fixture.fake) Fixture.feat_a Fixture.region_b < 40
  /\ Forall (fun m => confidence m >= 40)
            (find_matches (E := Fixture.fake) Fixture.disk Fixture.piece_a "p1"
                          default_top_k)
  /\ appended (match_region (E := Fixture.fake) Fixture.feat_a
                 (Fixture.meta "p1") 90 Fixture.region_b) = [].
Proof.
  split; [apply FixtureFacts.fused_a_b|].
  destruct (returned_candidates_pass_acceptance_gate
              Fixture.fake Fixture.disk Fixture.piece_a "p1" default_top_k)
    as [Hall Hlow].
  split; [assumption|].
  apply Hlow, FixtureFacts.fused_a_b.
Defined.

Lemma color_prefilter_rejects_witness :
  color_score_of (E := Fixture.fake) Fixture.feat_a Fixture.region_b < 0.3
  /\ match_region (E := Fixture.fake) Fixture.feat_a (Fixture.meta "p1") 90
       Fixture.region_b
     = ([ColorStage], None).
Proof.
  assert (Hcolor : color_score_of (E := Fixture.fake) Fixture.feat_a
                     Fixture.region_b < 0.3)
    by (rewrite FixtureFacts.color_a_b; lra).
  split; [assumption|].
  apply (color_prefilter_rejects Fixture.fake Fixture.disk Fixture.feat_a
           (Fixture.meta "p1") 90 Fixture.region_b Hcolor).
Defined.

Lemma fixture_match_exists :
  exists m,
    In m (find_matches (E := Fixture.fake) Fixture.disk Fixture.piece_a "p1"
                       default_top_k).
Proof.
  destruct (find_matches (E := Fixture.fake) Fixture.disk Fixture.piece_a "p1"
                         default_top_k) as [|m rest] eqn:Hfm.
  - exfalso.
    apply (find_matches_empty_iff (E := Fixture.fake)
             Fixture.disk Fixture.piece_a "p1"
             Fixture.puzzle_ab (Fixture.meta "p1")
             FixtureFacts.load_p1 FixtureFacts.meta_p1) in Hfm.
    destruct (match_region_cases (E := Fixture.fake)
                Fixture.feat_a (Fixture.meta "p1") 0 Fixture.region_a)
      as [[Hc _]|[(_ & Hf & _)|(_ & _ & m & Hm & _)]].
    + rewrite FixtureFacts.color_a_a in Hc. lra.
    + apply Hf, FixtureFacts.fused_a_a.
    + assert (Hin : In m (pool_matches (E := Fixture.fake)
                            (_extract_piece_features_all_orientations
                               (E := Fixture.fake) Fixture.piece_a)
                            Fixture.puzzle_ab (Fixture.meta "p1"))).
      { apply pool_matches_in. exists 0%Z, Fixture.feat_a.
        split; [rewrite FixtureFacts.extract_piece_a; now left|].
        apply match_piece_to_puzzle_in. exists Fixture.region_a.
        split; [right; now left | now rewrite Hm]. }
      rewrite Hfm in Hin. contradiction.
  - exists m. now left.
Qed.

Lemma ranking_is_stable_top_k_witness :
  _extract_piece_features_all_orientations (E := Fixture.fake) Fixture.piece_a
  = [(0, Fixture.feat_a); (90, Fixture.feat_a);
     (180, Fixture.feat_a); (270, Fixture.feat_a)]%Z
  /\ find_matches (E := Fixture.fake) Fixture.disk Fixture.piece_a "p1"
                  default_top_k
     = firstn (Z.to_nat default_top_k)
         (sort_reverse confidence
            (flat_map
               (fun '(rotation_deg, piece) =>
                  flat_map
                    (fun region =>
                       match snd (match_region (E := Fixture.fake) piece
                                    (Fixture.meta "p1") rotation_deg region) with
                       | Some m => [m]
                       | None => []
                       end)
                    (regions Fixture.puzzle_ab))
               (_extract_piece_features_all_orientations (E := Fixture.fake)
                  Fixture.piece_a)))
  /\ find_matches (E := Fixture.fake) Fixture.disk Fixture.piece_a "p1"
                  default_top_k <> [].
Proof.
  assert (Hk : (0 <= default_top_k)%Z) by (vm_compute; discriminate).
  split; [apply FixtureFacts.extract_piece_a|].
  split.
  - apply (ranking_is_stable_top_k Fixture.fake Fixture.disk Fixture.piece_a "p1"
             default_top_k Fixture.puzzle_ab (Fixture.meta "p1")
             FixtureFacts.load_p1 FixtureFacts.meta_p1 Hk).
  - destruct fixture_match_exists as [m Hin].
    intros Hnil. rewrite Hnil in Hin. contradiction.
Defined.

(** ** Worked examples *)

Module Examples.

Import Fixture.

(** Decide the comparisons of concrete reals met in the goal. *)
Ltac decide_reals :=
  repeat match goal with
    | |- context [Rlt_dec ?a ?b] =>
        let H := fresh "H" in
        destruct (Rlt_dec a b) as [H|H]; simpl in H; try lra; simpl
    | |- context [Rge_dec ?a ?b] =>
        let H := fresh "H" in
        destruct (Rge_dec a b) as [H|H]; simpl in H; try lra; simpl
    end.

(** Ties keep their input order; higher confidences move to the front. *)
Example sort_keeps_ties_in_order :
  sort_reverse confidence
    [candidate 50 0; candidate 90 90; candidate 50 180; candidate 90 270]
  = [candidate 90 90; candidate 90 270; candidate 50 0; candidate 50 180].
Proof.
  simpl. decide_reals; try reflexivity.
Qed.

(** Confidences 85 and 82: the second is the only alternative. *)
Example response_85_82 :
  prepare_response [candidate 85 0; candidate 82 90]
  = (Matched (Some (candidate 85 0)) [candidate 82 90] None, 200%Z).
Proof.
  unfold prepare_response, slice_from1, confidence_ge_80. simpl.
  decide_reals; try reflexivity.
Qed.

(** Best confidence 60: no alternatives, low-confidence warning. *)
Example response_60_45 :
  prepare_response [candidate 60 0; candidate 45 90]
  = (Matched (Some (candidate 60 0)) [] (Some low_confidence_warning), 200%Z).
Proof.
  unfold prepare_response. simpl. decide_reals; try reflexivity.
Qed.

(** No candidate at all. *)
Example response_none :
  prepare_response []
  = (Matched None [] (Some no_match_warning), 200%Z).
Proof. reflexivity. Qed.

(** A region at the origin of a 200 x 100 puzzle, piece turned by 90. *)
Example description_upper_left :
  _generate_location_description region_a (meta "p1") 90
  = "Upper-left quadrant, rotated 90° clockwise"%string.
Proof.
  unfold _generate_location_description. simpl. decide_reals; try reflexivity.
Qed.

(** Rounding to one decimal. *)
Example round1_of_tenths : round1 (875 / 10) = 875 / 10.
Proof.
  unfold round1, round_half_even.
  replace (875 / 10 * 10) with (IZR 875) by lra.
  assert (Hint : Int_part (IZR 875) = 875%Z).
  { symmetry. apply Int_part_spec. lra. }
  rewrite Hint. decide_reals; try reflexivity.
Qed.

(** The grid of a 300 x 200 image, by evaluation. *)
Example range_rows_200 : range 0 (200 - 100 + 1) 50 = [0; 50; 100]%Z.
Proof. reflexivity. Qed.

Example range_cols_300 : range 0 (300 - 100 + 1) 50 = [0; 50; 100; 150; 200]%Z.
Proof. reflexivity. Qed.

Example slice_examples :
  slice_to 2 [1; 2; 3]%Z = [1; 2]%Z /\ slice_to 5 [1; 2; 3]%Z = [1; 2; 3]%Z
  /\ slice_to (-1) [1; 2; 3]%Z = [1; 2]%Z.
Proof. repeat split. Qed.

End Examples.

(* ================================================================== *)
(** * Further properties of the services *)
(* ================================================================== *)

(** ** What a returned match looks like *)

Lemma round_half_even_close (r : R) :
  - (1 / 2) <= IZR (round_half_even r) - r <= 1 / 2.
Proof.
  destruct (base_Int_part r) as [Hle Hgt].
  unfold round_half_even.
  destruct (Rlt_dec _ _) as [Hd|Hd]; [lra|].
  destruct (Rlt_dec _ _) as [Hu|Hu]; [rewrite plus_IZR; lra|].
  destruct (Z.even _); [lra | rewrite plus_IZR; lra].
Qed.

Lemma round1_close (x : R) : - (1 / 20) <= round1 x - x <= 1 / 20.
Proof.
  unfold round1. pose proof (round_half_even_close (x * 10)). lra.
Qed.

Section ReturnedMatch.

Context {E : External}.

Lemma match_region_location
    (piece_features : Features) (puzzle_metadata : Metadata)
    (rotation_deg : Z) (region : Region) (m : Match) :
  snd (match_region piece_features puzzle_metadata rotation_deg region) = Some m ->
  location m = {| loc_x := region_x region; loc_y := region_y region;
                  loc_width := region_width region;
                  loc_height := region_height region |}
  /\ description m
     = _generate_location_description region puzzle_metadata rotation_deg.
Proof.
  unfold match_region.
  destruct (Rlt_dec _ 0.3); [discriminate|].
  destruct (Rge_dec _ 40); [|discriminate].
  simpl. intros [= <-]. split; reflexivity.
Qed.

Lemma orientations_rotation (piece_bytes : PieceBytes)
    (rotation_deg : Z) (piece_features : Features) :
  In (rotation_deg, piece_features)
     (_extract_piece_features_all_orientations piece_bytes) ->
  In rotation_deg [0; 90; 180; 270]%Z.
Proof.
  intros Hin.
  destruct (orientations_extracted piece_bytes) as [Heq|Heq].
  - rewrite <- Heq. apply in_map_iff. now exists (rotation_deg, piece_features).
  - rewrite Heq in Hin. contradiction.
Qed.

Lemma orientations_length (piece_bytes : PieceBytes) :
  (List.length (_extract_piece_features_all_orientations piece_bytes) <= 4)%nat.
Proof.
  destruct (orientations_extracted piece_bytes) as [Heq|Heq].
  - rewrite <- (length_map fst), Heq. simpl. lia.
  - rewrite Heq. simpl. lia.
Qed.

Lemma match_piece_to_puzzle_length
    (piece_features : Features) (puzzle_features : PuzzleFeatures)
    (puzzle_metadata : Metadata) (rotation_deg : Z) :
  (List.length (_match_piece_to_puzzle piece_features puzzle_features
                                       puzzle_metadata rotation_deg)
   <= List.length (regions puzzle_features))%nat.
Proof.
  rewrite match_piece_to_puzzle_eq.
  induction (regions puzzle_features) as [|r rs IH]; simpl; [lia|].
  rewrite length_app.
  pose proof (appended_length
                (match_region piece_features puzzle_metadata rotation_deg r)).
  lia.
Qed.

Lemma pool_matches_length
    (piece_features_list : list (Z * Features))
    (puzzle_features : PuzzleFeatures) (puzzle_metadata : Metadata) :
  (List.length (pool_matches piece_features_list puzzle_features puzzle_metadata)
   <= List.length piece_features_list * List.length (regions puzzle_features))%nat.
Proof.
  unfold pool_matches.
  induction piece_features_list as [|[rot pf] rest IH]; simpl; [lia|].
  rewrite length_app.
  pose proof (match_piece_to_puzzle_length pf puzzle_features puzzle_metadata rot).
  lia.
Qed.

Lemma slice_to_length {A} (k : Z) (l : list A) :
  (List.length (slice_to k l) <= List.length l)%nat.
Proof.
  unfold slice_to. destruct (0 <=? k)%Z; rewrite length_firstn; lia.
Qed.

Lemma firstn_sorted {A} (R : A -> A -> Prop) (n : nat) (l : list A) :
  StronglySorted R l -> StronglySorted R (firstn n l).
Proof.
  intros Hs. revert n.
  induction Hs as [|a l Hs IH Hall]; intros [|n]; simpl; try constructor.
  - apply IH.
  - rewrite Forall_forall in *. intros x Hx. apply Hall.
    now apply firstn_incl in Hx.
Qed.

End ReturnedMatch.

(** X1.  Every match returned by [find_matches] carries one of the four
    rotations 0, 90, 180, 270 that the orientation search applies. *)
Theorem returned_rotations_are_quarter_turns
    (E : External) (fs : FileSystem)
    (piece_bytes : PieceBytes) (puzzle_id : string) (top_k : Z) :
  Forall (fun m => In (rotation_needed m) [0; 90; 180; 270]%Z)
         (find_matches fs piece_bytes puzzle_id top_k).
Proof.
  apply Forall_forall. intros m Hin.
  apply find_matches_provenance in Hin
    as (pf & md & rot & pfeat & region & _ & _ & Hrot & _ & Hm).
  apply match_region_emitted in Hm as (_ & _ & _ & ->).
  eapply orientations_rotation; eassumption.
Qed.

(** X2.  With a non-negative [top_k], [find_matches] returns at most
    [top_k] matches, and never more than four per region of the stored
    descriptor set. *)
Theorem returned_list_is_bounded
    (E : External) (fs : FileSystem)
    (piece_bytes : PieceBytes) (puzzle_id : string) (top_k : Z)
    (puzzle_features : PuzzleFeatures)
    (Hload : load_puzzle_features saved_puzzles fs puzzle_id = Some puzzle_features)
    (Hk : (0 <= top_k)%Z) :
  (Z.of_nat (List.length (find_matches fs piece_bytes puzzle_id top_k)) <= top_k)%Z
  /\ (List.length (find_matches fs piece_bytes puzzle_id top_k)
      <= 4 * List.length (regions puzzle_features))%nat.
Proof.
  destruct (find_matches_cases fs piece_bytes puzzle_id top_k)
    as [[_ Heq]|[[_ Heq]|(pf & md & Hl & Hg & Heq)]]; rewrite Heq; simpl;
    try (split; lia).
  rewrite Hload in Hl. injection Hl as <-.
  split.
  - rewrite slice_to_nonneg by assumption.
    pose proof (firstn_le_length (Z.to_nat top_k)
                  (sort_reverse confidence
                     (pool_matches
                        (_extract_piece_features_all_orientations piece_bytes)
                        puzzle_features md))).
    lia.
  - set (pieces := _extract_piece_features_all_orientations piece_bytes).
    pose proof (slice_to_length top_k
                  (sort_reverse confidence
                     (pool_matches pieces puzzle_features md))) as H1.
    pose proof (Permutation_length
                  (sort_reverse_perm _ confidence
                     (pool_matches pieces puzzle_features md))) as H2.
    pose proof (pool_matches_length pieces puzzle_features md) as H3.
    pose proof (orientations_length piece_bytes) as H4. fold pieces in H4.
    nia.
Qed.

Lemma returned_list_is_bounded_witness :
  load_puzzle_features saved_puzzles Fixture.disk "p1" = Some Fixture.puzzle_ab
  /\ (0 <= default_top_k)%Z
  /\ (Z.of_nat (List.length
                  (find_matches (E := Fixture.fake) Fixture.disk Fixture.piece_a
                                "p1" default_top_k)) <= default_top_k)%Z.
Proof.
  assert (Hk : (0 <= default_top_k)%Z) by (vm_compute; discriminate).
  split; [reflexivity|]. split; [assumption|].
  apply (returned_list_is_bounded Fixture.fake Fixture.disk Fixture.piece_a "p1"
           default_top_k Fixture.puzzle_ab FixtureFacts.load_p1 Hk).
Defined.

(** X3.  The list returned by [find_matches] is in non-increasing order of
    confidence; and when the descriptor set and the metadata load and
    [top_k] is positive, its first entry has the highest confidence of all
    candidates of all rotations. *)
Theorem best_match_dominates_pool
    (E : External) (fs : FileSystem)
    (piece_bytes : PieceBytes) (puzzle_id : string) (top_k : Z)
    (puzzle_features : PuzzleFeatures) (puzzle_metadata : Metadata)
    (Hload : load_puzzle_features saved_puzzles fs puzzle_id = Some puzzle_features)
    (Hmeta : get_puzzle saved_puzzles fs puzzle_id = Some puzzle_metadata)
    (Hk : (0 < top_k)%Z) :
  StronglySorted (key_ge confidence) (find_matches fs piece_bytes puzzle_id top_k)
  /\ forall m,
       In m (pool_matches (_extract_piece_features_all_orientations piece_bytes)
                          puzzle_features puzzle_metadata) ->
       exists best rest,
         find_matches fs piece_bytes puzzle_id top_k = best :: rest
         /\ confidence best >= confidence m.
Proof.
  assert (Heq : find_matches fs piece_bytes puzzle_id top_k
                = firstn (Z.to_nat top_k)
                    (sort_reverse confidence
                       (pool_matches
                          (_extract_piece_features_all_orientations piece_bytes)
                          puzzle_features puzzle_metadata))).
  { unfold find_matches. rewrite Hload, Hmeta. simpl.
    apply slice_to_nonneg. lia. }
  rewrite Heq. split; [apply firstn_sorted, sort_reverse_sorted|].
  intros m Hin. apply (sort_reverse_in _ confidence) in Hin.
  pose proof (sort_reverse_sorted _ confidence
                (pool_matches
                   (_extract_piece_features_all_orientations piece_bytes)
                   puzzle_features puzzle_metadata)) as Hs.
  destruct (sort_reverse confidence _) as [|best ranked]; [contradiction|].
  destruct (Z.to_nat top_k) as [|n] eqn:Hn; [lia|].
  exists best, (firstn n ranked). split; [reflexivity|].
  destruct Hin as [<-|Hin]; [lra|].
  apply StronglySorted_inv in Hs as [_ Hall].
  rewrite Forall_forall in Hall. apply Hall, Hin.
Qed.

Lemma best_match_dominates_pool_witness :
  load_puzzle_features saved_puzzles Fixture.disk "p1" = Some Fixture.puzzle_ab
  /\ get_puzzle saved_puzzles Fixture.disk "p1" = Some (Fixture.meta "p1")
  /\ (0 < default_top_k)%Z
  /\ StronglySorted (key_ge confidence)
       (find_matches (E := Fixture.fake) Fixture.disk Fixture.piece_a "p1"
                     default_top_k).
Proof.
  assert (Hk : (0 < default_top_k)%Z) by reflexivity.
  split; [reflexivity|]. split; [reflexivity|]. split; [assumption|].
  apply (best_match_dominates_pool Fixture.fake Fixture.disk Fixture.piece_a "p1"
           default_top_k Fixture.puzzle_ab (Fixture.meta "p1")
           FixtureFacts.load_p1 FixtureFacts.meta_p1 Hk).
Defined.

(** X4.  Every match returned by [find_matches] mirrors a region of the
    stored descriptor set: its location is that region's x, y, width and
    height; its confidence is the fused confidence of the pair rounded to
    one decimal, so it is a whole number of tenths, within 0.05 of the
    fused value and between 40 and 100. *)
Theorem returned_match_mirrors_region
    (E : External) (fs : FileSystem)
    (piece_bytes : PieceBytes) (puzzle_id : string) (top_k : Z) (m : Match)
    (Hin : In m (find_matches fs piece_bytes puzzle_id top_k)) :
  exists puzzle_features piece_features region,
    load_puzzle_features saved_puzzles fs puzzle_id = Some puzzle_features
    /\ In (rotation_needed m, piece_features)
          (_extract_piece_features_all_orientations piece_bytes)
    /\ In region (regions puzzle_features)
    /\ location m = {| loc_x := region_x region; loc_y := region_y region;
                       loc_width := region_width region;
                       loc_height := region_height region |}
    /\ confidence m = round1 (fused_confidence piece_features region)
    /\ Rabs (confidence m - fused_confidence piece_features region) <= 0.05
    /\ (exists tenths : Z, confidence m = IZR tenths / 10)
    /\ 40 <= confidence m <= 100.
Proof.
  apply find_matches_provenance in Hin
    as (pf & md & rot & pfeat & region & Hl & _ & Hrot & Hreg & Hm).
  pose proof (match_region_location _ _ _ _ _ Hm) as [Hloc _].
  apply match_region_emitted in Hm as (_ & Hf & Hconf & Hrotm).
  exists pf, pfeat, region. subst rot.
  repeat split; try assumption.
  - rewrite Hconf. apply Rabs_le.
    pose proof (round1_close (fused_confidence pfeat region)). lra.
  - rewrite Hconf. unfold round1. eauto.
  - rewrite Hconf. apply (round1_lower 40). lra.
  - rewrite Hconf. apply (round1_upper 100).
    apply fused_confidence_bounds.
Qed.

Lemma returned_match_mirrors_region_witness :
  exists m,
    In m (find_matches (E := Fixture.fake) Fixture.disk Fixture.piece_a "p1"
                       default_top_k)
    /\ exists puzzle_features piece_features region,
         load_puzzle_features saved_puzzles Fixture.disk "p1"
           = Some puzzle_features
         /\ In (rotation_needed m, piece_features)
               (_extract_piece_features_all_orientations (E := Fixture.fake)
                  Fixture.piece_a)
         /\ In region (regions puzzle_features)
         /\ location m = {| loc_x := region_x region; loc_y := region_y region;
                            loc_width := region_width region;
                            loc_height := region_height region |}
         /\ confidence m
            = round1 (fused_confidence (E := Fixture.fake) piece_features region)
         /\ Rabs (confidence m
                  - fused_confidence (E := Fixture.fake) piece_features region)
            <= 0.05
         /\ (exists tenths : Z, confidence m = IZR tenths / 10)
         /\ 40 <= confidence m <= 100.
Proof.
  destruct fixture_match_exists as [m Hin].
  exists m. split; [assumption|].
  apply (returned_match_mirrors_region Fixture.fake Fixture.disk Fixture.piece_a
           "p1" default_top_k m Hin).
Defined.

(** ** The Hu-moment comparison as a metric *)

Lemma sum_sq_zip_sub_sym (a b : vec) :
  sum_sq (zip_sub a b) = sum_sq (zip_sub b a).
Proof.
  unfold sum_sq. revert b.
  induction a as [|x a IH]; intros [|y b]; simpl; try reflexivity.
  rewrite (IH b). lra.
Qed.

Lemma sum_sq_broadcast_sym (x : R) (b : vec) :
  sum_sq (map (fun y => x - y) b) = sum_sq (map (fun y => y - x) b).
Proof.
  unfold sum_sq. induction b as [|y b IH]; simpl; [reflexivity|].
  rewrite IH. lra.
Qed.

Lemma sum_sq_zip_sub_self (a : vec) : sum_sq (zip_sub a a) = 0.
Proof.
  unfold sum_sq. induction a as [|x a IH]; simpl; [reflexivity|].
  rewrite IH. lra.
Qed.

(** Subtraction in either order raises together, and the two differences
    have the same norm. *)
Lemma sub_sym (a b : vec) :
  match Np.sub a b, Np.sub b a with
  | Ok d1, Ok d2 => norm d1 = norm d2
  | Raise m1, Raise m2 => m1 = m2
  | _, _ => False
  end.
Proof.
  unfold Np.sub, norm. rewrite (Nat.eqb_sym (List.length b)).
  destruct (Nat.eqb (List.length a) (List.length b)) eqn:Hlen.
  - now rewrite sum_sq_zip_sub_sym.
  - destruct a as [|x [|x' a]], b as [|y [|y' b]];
      simpl in Hlen; try discriminate; try reflexivity;
      now rewrite sum_sq_broadcast_sym.
Qed.

Lemma hu_similarity_self (shape1 : Shape) :
  hu_similarity_of shape1 shape1
  = Ok (match hu_moments shape1 with Some _ => 1 | None => 0.5 end).
Proof.
  unfold hu_similarity_of.
  destruct (hu_moments shape1) as [hu|]; [|reflexivity].
  rewrite sub_same_length by reflexivity. simpl.
  unfold norm. now rewrite sum_sq_zip_sub_self, sqrt_0, Ropp_0, exp_0.
Qed.

(** X5.  The Hu-moment similarity of the shape stage does not depend on
    the order of its two arguments, and a shape compared with itself scores
    1 when its Hu moments are present and the neutral 0.5 when they are
    absent. *)
Theorem hu_similarity_is_symmetric (shape1 shape2 : Shape) :
  hu_similarity_of shape1 shape2 = hu_similarity_of shape2 shape1
  /\ hu_similarity_of shape1 shape1
     = Ok (match hu_moments shape1 with Some _ => 1 | None => 0.5 end).
Proof.
  split; [|apply hu_similarity_self].
  unfold hu_similarity_of.
  destruct (hu_moments shape1) as [hu1|], (hu_moments shape2) as [hu2|];
    try reflexivity.
  pose proof (sub_sym hu1 hu2) as Hsym.
  destruct (Np.sub hu1 hu2), (Np.sub hu2 hu1); simpl; try contradiction.
  - now rewrite Hsym.
  - now rewrite Hsym.
Qed.

(** ** A region that equals the piece *)

Lemma round1_integer (k : Z) : round1 (IZR k) = IZR k.
Proof.
  apply Rle_antisym; [apply round1_upper | apply round1_lower]; lra.
Qed.

(** X6.  When a region stores exactly the descriptor of the piece, with
    edge histogram, Hu moments and a non-empty embedding present, and the
    libraries report a histogram as perfectly correlated with itself and a
    vector at cosine distance 0 from itself, the three stage scores are 1,
    the fused confidence is 100 and the region is emitted with confidence
    100.0 at the rotation searched. *)
Theorem identical_descriptor_scores_100
    (E : External) (piece_features : Features) (puzzle_metadata : Metadata)
    (rotation_deg : Z) (region : Region) (edge hu : vec)
    (Hsame : region_features region = piece_features)
    (Hedge : edge_hist (shape piece_features) = Some edge)
    (Hhu : hu_moments (shape piece_features) = Some hu)
    (Hdeep : deep_features piece_features <> [])
    (Hcolor_lib : compareHist (color_hist piece_features)
                              (color_hist piece_features) = Ok 1)
    (Hedge_lib : compareHist edge edge = Ok 1)
    (Hcosine_lib :
       cosine (scale_div (deep_features piece_features)
                         (norm (deep_features piece_features) + 1e-8))
              (scale_div (deep_features piece_features)
                         (norm (deep_features piece_features) + 1e-8)) = Ok 0) :
  color_score_of piece_features region = 1
  /\ shape_score_of piece_features region = 1
  /\ feature_score_of piece_features region = 1
  /\ fused_confidence piece_features region = 100
  /\ exists m,
       match_region piece_features puzzle_metadata rotation_deg region
         = ([ColorStage; ShapeStage; DeepStage], Some m)
       /\ confidence m = 100
       /\ rotation_needed m = rotation_deg.
Proof.
  assert (Hc : color_score_of piece_features region = 1).
  { unfold color_score_of, _compare_color_histograms.
    rewrite Hsame, Hcolor_lib. simpl. rewrite clamp_id; lra. }
  assert (Hs : shape_score_of piece_features region = 1).
  { unfold shape_score_of, _compare_shape_features. rewrite Hsame.
    pose proof (hu_similarity_self (shape piece_features)) as Hself.
    rewrite Hhu in Hself. rewrite Hself.
    unfold edge_similarity_of. rewrite Hedge, Hedge_lib. simpl.
    rewrite clamp_id; lra. }
  assert (Hd : feature_score_of piece_features region = 1).
  { unfold feature_score_of, _compare_deep_features. rewrite Hsame.
    destruct (deep_features piece_features) as [|v vs] eqn:Hv;
      [now contradiction Hdeep|].
    cbn [List.length Nat.eqb orb]. rewrite Hcosine_lib. simpl.
    rewrite clamp_id; lra. }
  assert (Hf : fused_confidence piece_features region = 100).
  { unfold fused_confidence, weighted_confidence. rewrite Hc, Hs, Hd. lra. }
  repeat split; try assumption.
  destruct (match_region_cases piece_features puzzle_metadata rotation_deg region)
    as [[Hlow _]|[(_ & Hlow & _)|(_ & _ & m & Hm & Hconf & Hrot & _)]].
  - rewrite Hc in Hlow. lra.
  - rewrite Hf in Hlow. lra.
  - exists m. repeat split; try assumption.
    rewrite Hconf, Hf. apply (round1_integer 100).
Qed.

Lemma fixture_cosine_self (v : vec) :
  0 < Fixture.dot v v -> Fixture.cosine_distance v v = Ok 0.
Proof.
  intros Hpos. unfold Fixture.cosine_distance.
  rewrite Nat.eqb_refl, sqrt_square by lra.
  f_equal. field. lra.
Qed.

Lemma identical_descriptor_scores_100_witness :
  fused_confidence (E := Fixture.fake) Fixture.feat_a Fixture.region_a = 100
  /\ exists m,
       match_region (E := Fixture.fake) Fixture.feat_a (Fixture.meta "p1") 90
         Fixture.region_a
         = ([ColorStage; ShapeStage; DeepStage], Some m)
       /\ confidence m = 100
       /\ rotation_needed m = 90%Z.
Proof.
  assert (Hcos :
    cosine (External := Fixture.fake)
      (scale_div (deep_features Fixture.feat_a)
                 (norm (deep_features Fixture.feat_a) + 1e-8))
      (scale_div (deep_features Fixture.feat_a)
                 (norm (deep_features Fixture.feat_a) + 1e-8)) = Ok 0).
  { apply fixture_cosine_self.
    pose proof (norm_nonneg (deep_features Fixture.feat_a)) as Hn.
    set (n := norm (deep_features Fixture.feat_a)) in *.
    simpl.
    assert (Hx : 0 < 1 / (n + 1e-8)).
    { apply Rdiv_lt_0_compat; lra. }
    nra. }
  destruct (identical_descriptor_scores_100 Fixture.fake Fixture.feat_a
              (Fixture.meta "p1") 90 Fixture.region_a [1; 0] [0; 0]
              eq_refl eq_refl eq_refl
              ltac:(discriminate)
              FixtureFacts.correl_same FixtureFacts.correl_same Hcos)
    as (_ & _ & _ & Hf & Hm).
  split; assumption.
Defined.

(** ** Orientation search with degraded extractors *)

(** X7.  When the piece image opens, rotates and converts to arrays, the
    orientation search returns the features of all four rotations, in the
    order 0, 90, 180, 270, whatever the histogram, shape and embedding
    pipelines do: a pipeline that raises only makes its own sub-vector the
    all-zero vector of lengths 30720, 16 and 7, or 2048, and leaves the
    other sub-vectors as extracted. *)
Theorem orientation_search_survives_degraded_extractors
    (E : External) (piece_bytes : PieceBytes)
    (image0 image90 image180 image270 : Image)
    (array0 array90 array180 array270 : Array)
    (Hopen : image_open piece_bytes = Ok image0)
    (Hrot90 : image_rotate image0 (-90) = Ok image90)
    (Hrot180 : image_rotate image0 (-180) = Ok image180)
    (Hrot270 : image_rotate image0 (-270) = Ok image270)
    (Harr0 : np_array image0 = Ok array0)
    (Harr90 : np_array image90 = Ok array90)
    (Harr180 : np_array image180 = Ok array180)
    (Harr270 : np_array image270 = Ok array270) :
  _extract_piece_features_all_orientations piece_bytes
  = [(0, _extract_region_features array0);
     (90, _extract_region_features array90);
     (180, _extract_region_features array180);
     (270, _extract_region_features array270)]%Z
  /\ (forall image_array msg,
        cv_color_hist image_array = Raise msg ->
        color_hist (_extract_region_features image_array)
          = zeros (30 * 32 * 32)
        /\ shape (_extract_region_features image_array)
           = _extract_shape_features image_array
        /\ deep_features (_extract_region_features image_array)
           = _extract_deep_features image_array)
  /\ (forall image_array msg,
        cv_shape image_array = Raise msg ->
        shape (_extract_region_features image_array) = fallback_shape
        /\ color_hist (_extract_region_features image_array)
           = _extract_color_histogram image_array)
  /\ (forall image_array msg,
        resnet_features image_array = Raise msg ->
        deep_features (_extract_region_features image_array) = zeros 2048
        /\ color_hist (_extract_region_features image_array)
           = _extract_color_histogram image_array).
Proof.
  split.
  { unfold _extract_piece_features_all_orientations, extract_piece_features,
      try_reraise.
    rewrite Hopen. cbn [bind try_except for_each Z.eqb Z.opp].
    rewrite Harr0. cbn [bind try_except].
    rewrite Hrot90. cbn [bind try_except]. rewrite Harr90. cbn [bind try_except].
    rewrite Hrot180. cbn [bind try_except]. rewrite Harr180. cbn [bind try_except].
    rewrite Hrot270. cbn [bind try_except]. rewrite Harr270. reflexivity. }
  split; [|split].
  - intros a msg Hraise. unfold _extract_region_features. cbn [color_hist shape deep_features].
    unfold _extract_color_histogram. rewrite Hraise. repeat split.
  - intros a msg Hraise. unfold _extract_region_features. cbn [color_hist shape deep_features].
    unfold _extract_shape_features. rewrite Hraise. repeat split.
  - intros a msg Hraise. unfold _extract_region_features. cbn [color_hist shape deep_features].
    unfold _extract_deep_features. rewrite Hraise. repeat split.
Qed.

Lemma orientation_search_survives_degraded_extractors_witness :
  _extract_piece_features_all_orientations (E := Fixture.fake) Fixture.piece_a
  = [(0, _extract_region_features (E := Fixture.fake)
           {| Fixture.fa_height := 512; Fixture.fa_width := 512;
              Fixture.fa_features := Fixture.feat_a |});
     (90, _extract_region_features (E := Fixture.fake)
            {| Fixture.fa_height := 512; Fixture.fa_width := 512;
               Fixture.fa_features := Fixture.feat_a |});
     (180, _extract_region_features (E := Fixture.fake)
             {| Fixture.fa_height := 512; Fixture.fa_width := 512;
                Fixture.fa_features := Fixture.feat_a |});
     (270, _extract_region_features (E := Fixture.fake)
             {| Fixture.fa_height := 512; Fixture.fa_width := 512;
                Fixture.fa_features := Fixture.feat_a |})]%Z.
Proof.
  apply (orientation_search_survives_degraded_extractors Fixture.fake
           Fixture.piece_a
           (0%Z, fun _ => {| Fixture.fa_height := 512; Fixture.fa_width := 512;
                             Fixture.fa_features := Fixture.feat_a |})
           ((-90)%Z, fun _ => {| Fixture.fa_height := 512; Fixture.fa_width := 512;
                                 Fixture.fa_features := Fixture.feat_a |})
           ((-180)%Z, fun _ => {| Fixture.fa_height := 512; Fixture.fa_width := 512;
                                  Fixture.fa_features := Fixture.feat_a |})
           ((-270)%Z, fun _ => {| Fixture.fa_height := 512; Fixture.fa_width := 512;
                                  Fixture.fa_features := Fixture.feat_a |})
           _ _ _ _
           eq_refl eq_refl eq_refl eq_refl eq_refl eq_refl eq_refl eq_refl).
Defined.

(** ** The grid: emptiness, minimum size, coverage *)

Lemma grid_extent_count (extent : Z) :
  ((extent - window_size) / step + 1 <= 0 <-> extent < 100)%Z
  /\ (200 <= extent -> 3 <= (extent - window_size) / step + 1)%Z.
Proof.
  unfold window_size, step, overlap, window_size.
  split; [split|]; intros H; Z.to_euclidean_division_equations; lia.
Qed.

(** X8.  [extract_puzzle_features] fails only when the image cannot be
    converted to an array.  Otherwise it returns no region exactly when the
    image is less than 100 pixels high or wide, and for an image of at
    least 200 x 200 pixels, the smallest size the quality check admits, it
    returns at least 3 rows, 3 columns and 9 regions. *)
Theorem grid_is_empty_iff_too_small
    (E : External) (puzzle_image : Image) (puzzle_array : Array)
    (height width : Z)
    (Harray : np_array puzzle_image = Ok puzzle_array)
    (Hshape : array_shape puzzle_array = (height, width)) :
  exists puzzle_features,
    extract_puzzle_features puzzle_image = Ok puzzle_features
    /\ (regions puzzle_features = [] <-> (height < 100 \/ width < 100)%Z)
    /\ ((200 <= height)%Z -> (200 <= width)%Z ->
        (3 <= fst (grid_size puzzle_features))%Z
        /\ (3 <= snd (grid_size puzzle_features))%Z
        /\ (9 <= List.length (regions puzzle_features))%nat).
Proof.
  exists {| regions := grid_regions puzzle_array height width;
            grid_size := ((height - window_size) / step + 1,
                          (width - window_size) / step + 1)%Z |}.
  split.
  { unfold extract_puzzle_features, try_reraise.
    rewrite Harray. simpl. now rewrite Hshape. }
  cbn [regions grid_size fst snd].
  pose proof (grid_regions_length puzzle_array height width) as Hlen.
  destruct (grid_extent_count height) as [Hrows Hrows3].
  destruct (grid_extent_count width) as [Hcols Hcols3].
  split; [split|].
  - intros Hnil. rewrite Hnil in Hlen. simpl in Hlen. lia.
  - intros Hsmall. apply length_zero_iff_nil. rewrite Hlen. nia.
  - intros Hh Hw. specialize (Hrows3 Hh). specialize (Hcols3 Hw).
    split; [assumption|]. split; [assumption|].
    rewrite Hlen. nia.
Qed.

Lemma grid_is_empty_iff_too_small_witness :
  exists puzzle_features,
    extract_puzzle_features (E := Fixture.fake) Fixture.wide_image
      = Ok puzzle_features
    /\ (regions puzzle_features = [] <-> (200 < 100 \/ 300 < 100)%Z)
    /\ ((200 <= 200)%Z -> (200 <= 300)%Z ->
        (3 <= fst (grid_size puzzle_features))%Z
        /\ (3 <= snd (grid_size puzzle_features))%Z
        /\ (9 <= List.length (regions puzzle_features))%nat).
Proof.
  apply (grid_is_empty_iff_too_small Fixture.fake Fixture.wide_image
           {| Fixture.fa_height := 200; Fixture.fa_width := 300;
              Fixture.fa_features := Fixture.feat_a |} 200 300
           eq_refl eq_refl).
Defined.

Lemma grid_positions_nodup (rows cols : nat) :
  NoDup (flat_map
           (fun row =>
              map (fun col => (Z.of_nat col * step, Z.of_nat row * step)%Z)
                  (seq 0 cols))
           (seq 0 rows)).
Proof.
  assert (Hstep : step = 50%Z) by reflexivity. rewrite Hstep.
  generalize (seq_NoDup rows 0).
  induction (seq 0 rows) as [|row rest IH]; intros Hnd; simpl; [constructor|].
  apply NoDup_cons_iff in Hnd as [Hnotin Hnd].
  apply NoDup_app.
  - apply NoDup_map_NoDup_ForallPairs; [|apply seq_NoDup].
    intros c1 c2 _ _ [= Heq]. lia.
  - now apply IH.
  - intros p Hp Hflat.
    apply in_map_iff in Hp as (c & <- & _).
    apply in_flat_map in Hflat as (row' & Hrow' & Hin').
    apply in_map_iff in Hin' as (c' & [= _ Heq] & _).
    assert (row' = row) by lia. subst row'. contradiction.
Qed.

(** X9.  For an image at least 100 pixels high and wide, the regions of
    the grid lie at pairwise distinct positions, and a pixel [(px, py)] is
    inside some region exactly when [0 <= px < width - (width - 100) mod 50]
    and [0 <= py < height - (height - 100) mod 50]: the grid covers the
    image except for a strip of fewer than 50 pixels at the right and at
    the bottom. *)
Theorem grid_covers_all_but_trailing_strips
    (E : External) (puzzle_array : Array) (height width : Z)
    (Hheight : (100 <= height)%Z) (Hwidth : (100 <= width)%Z) :
  NoDup (map position (grid_regions puzzle_array height width))
  /\ (0 <= (width - 100) mod 50 < 50)%Z
  /\ (0 <= (height - 100) mod 50 < 50)%Z
  /\ forall px py : Z,
       (exists r,
          In r (grid_regions puzzle_array height width)
          /\ (region_x r <= px < region_x r + region_width r)%Z
          /\ (region_y r <= py < region_y r + region_height r)%Z)
       <-> (0 <= px < width - (width - 100) mod 50
            /\ 0 <= py < height - (height - 100) mod 50)%Z.
Proof.
  split; [rewrite grid_regions_positions; apply grid_positions_nodup|].
  split; [apply Z.mod_pos_bound; lia|].
  split; [apply Z.mod_pos_bound; lia|].
  assert (Hstep : step = 50%Z) by reflexivity.
  assert (Hwin : window_size = 100%Z) by reflexivity.
  assert (Hin : forall extent v,
             In v (range 0 (extent - window_size + 1) step)
             <-> (0 <= v <= extent - 100 /\ exists i, v = i * 50)%Z).
  { intros extent v. rewrite range_in by (rewrite Hstep; lia).
    rewrite Hstep, Hwin. split; intros [Hb Hi]; (split; [lia | assumption]). }
  assert (Hpick : forall extent p,
             (100 <= extent)%Z ->
             (0 <= p < extent - (extent - 100) mod 50)%Z ->
             exists v, In v (range 0 (extent - window_size + 1) step)
                       /\ (v <= p < v + 100)%Z).
  { intros extent p Hext Hp.
    exists (50 * Z.min (p / 50) ((extent - 100) / 50))%Z. split.
    - apply Hin. split.
      + destruct (Z.min_spec (p / 50) ((extent - 100) / 50)) as [[? ->]|[? ->]];
          Z.to_euclidean_division_equations; lia.
      + exists (Z.min (p / 50) ((extent - 100) / 50)). lia.
    - destruct (Z.min_spec (p / 50) ((extent - 100) / 50)) as [[? ->]|[? ->]];
        Z.to_euclidean_division_equations; lia. }
  assert (Hbound : forall extent v p,
             In v (range 0 (extent - window_size + 1) step) ->
             (v <= p < v + 100)%Z ->
             (0 <= p < extent - (extent - 100) mod 50)%Z).
  { intros extent v p Hv Hp. apply Hin in Hv as [Hv [i ->]].
    Z.to_euclidean_division_equations. lia. }
  intros px py. split.
  - intros (r & Hr & Hx & Hy).
    unfold grid_regions in Hr.
    apply in_flat_map in Hr as (y & Hyin & Hr).
    apply in_map_iff in Hr as (x & <- & Hxin).
    cbn [region_x region_y region_width region_height] in Hx, Hy.
    rewrite Hwin in Hx, Hy.
    split; [apply (Hbound width x) | apply (Hbound height y)]; assumption.
  - intros [Hx Hy].
    destruct (Hpick width px Hwidth Hx) as (x & Hxin & Hxb).
    destruct (Hpick height py Hheight Hy) as (y & Hyin & Hyb).
    exists {| region_features
                := _extract_region_features (crop puzzle_array y x window_size);
              region_x := x; region_y := y;
              region_width := window_size; region_height := window_size |}.
    split.
    + unfold grid_regions. apply in_flat_map. exists y. split; [assumption|].
      apply in_map_iff. exists x. split; [reflexivity | assumption].
    + cbn [region_x region_y region_width region_height]. rewrite Hwin. lia.
Qed.

Lemma grid_covers_all_but_trailing_strips_witness :
  (100 <= 200)%Z /\ (100 <= 300)%Z
  /\ NoDup (map position
              (grid_regions (E := Fixture.fake)
                 {| Fixture.fa_height := 200; Fixture.fa_width := 300;
                    Fixture.fa_features := Fixture.feat_a |} 200 300)).
Proof.
  split; [lia|]. split; [lia|].
  apply (grid_covers_all_but_trailing_strips Fixture.fake
           {| Fixture.fa_height := 200; Fixture.fa_width := 300;
              Fixture.fa_features := Fixture.feat_a |} 200 300); lia.
Defined.

(** ** The location phrase *)

(** Split on the four threshold tests of the description. *)
Ltac split_thirds region puzzle_metadata :=
  unfold _generate_location_description; cbv zeta;
  destruct (Rlt_dec (IZR (region_x region))
                    (IZR (dimensions_width puzzle_metadata) * 0.33));
  destruct (Rlt_dec (IZR (region_x region))
                    (IZR (dimensions_width puzzle_metadata) * 0.67));
  destruct (Rlt_dec (IZR (region_y region))
                    (IZR (dimensions_height puzzle_metadata) * 0.33));
  destruct (Rlt_dec (IZR (region_y region))
                    (IZR (dimensions_height puzzle_metadata) * 0.67));
  cbn.

(** X10.  The description of a match is one of nine position phrases,
    chosen by comparing the region's top-left corner with 33% and 67% of
    the puzzle's width and height, followed by a clause that depends on the
    rotation only: nothing for 0, "rotated 90° clockwise" for 90,
    "rotated 180°" for 180, "rotated 90° counter-clockwise" for 270.  The
    phrase is "Center area" exactly when the corner lies in the middle
    third on both axes. *)
Theorem location_description_phrases (region : Region) (puzzle_metadata : Metadata) :
  let describe := _generate_location_description region puzzle_metadata in
  let x := IZR (region_x region) in
  let y := IZR (region_y region) in
  let width := IZR (dimensions_width puzzle_metadata) in
  let height := IZR (dimensions_height puzzle_metadata) in
  In (describe 0%Z)
     ["Center area"; "Left side"; "Right side"; "Upper area"; "Lower area";
      "Upper-left quadrant"; "Upper-right quadrant";
      "Lower-left quadrant"; "Lower-right quadrant"]%string
  /\ describe 90%Z = (describe 0%Z ++ ", rotated 90° clockwise")%string
  /\ describe 180%Z = (describe 0%Z ++ ", rotated 180°")%string
  /\ describe 270%Z = (describe 0%Z ++ ", rotated 90° counter-clockwise")%string
  /\ (describe 0%Z = "Center area"%string
      <-> width * 0.33 <= x < width * 0.67
          /\ height * 0.33 <= y < height * 0.67).
Proof.
  intros describe x y width height.
  subst describe x y width height.
  split; [|split; [|split; [|split]]].
  - split_thirds region puzzle_metadata; tauto.
  - split_thirds region puzzle_metadata; reflexivity.
  - split_thirds region puzzle_metadata; reflexivity.
  - split_thirds region puzzle_metadata; reflexivity.
  - split_thirds region puzzle_metadata;
      (split; [try discriminate; intros _; lra
              | try reflexivity; intros [? ?]; lra]).
Qed.



(** ** The status of [analyze_piece] *)

(** X12.  [analyze_piece] answers with status 200, 400, 404 or 500, and
    its body reports success exactly when the status is 200.  Status 404
    means that the request was parsed and the metadata of the requested
    puzzle is missing; status 500 means that parsing the request raised, as
    it does for a body larger than the application admits, or that reading
    the uploaded file raised, and the body then carries the message of the
    exception; status 200 means that the request was parsed, the upload was
    valid, the puzzle exists, the quality check passed, and the body is the
    response prepared from the engine's matches. *)
Theorem analyze_piece_status
    (E : External) (fs : FileSystem) (incoming : result Request) :
  let body := fst (analyze_piece fs incoming) in
  let status := snd (analyze_piece fs incoming) in
  In status [200; 400; 404; 500]%Z
  /\ (success body = true <-> status = 200%Z)
  /\ (status = 404%Z ->
      exists request puzzle_id,
        incoming = Ok request
        /\ form_puzzle_id request = Some puzzle_id
        /\ get_puzzle saved_puzzles fs puzzle_id = None)
  /\ (status = 500%Z ->
      exists msg,
        body = Failure "Failed to analyze piece" (Some msg) None
        /\ (incoming = Raise msg
            \/ exists request piece_file,
                 incoming = Ok request
                 /\ files_piece request = Some piece_file
                 /\ file_read piece_file = Raise msg))
  /\ (forall msg, incoming = Raise msg -> status = 500%Z)
  /\ (status = 200%Z ->
      exists request piece_file puzzle_id piece_bytes,
        incoming = Ok request
        /\ files_piece request = Some piece_file
        /\ form_puzzle_id request = Some puzzle_id
        /\ fst (validate_piece_upload piece_file) = true
        /\ get_puzzle saved_puzzles fs puzzle_id <> None
        /\ file_read piece_file = Ok piece_bytes
        /\ fst (fst (check_image_quality piece_bytes)) = true
        /\ analyze_piece fs incoming
           = prepare_response
               (find_matches fs piece_bytes puzzle_id default_top_k)).
Proof.
  intros body status. subst body status.
  assert (Hprep : forall matches,
             snd (prepare_response matches) = 200%Z
             /\ success (fst (prepare_response matches)) = true).
  { intros [|m rest]; split; reflexivity. }
  unfold analyze_piece.
  destruct incoming as [request|raised].
  2:{ cbn. repeat split; try tauto; try discriminate.
      intros _. exists raised. split; [reflexivity | now left]. }
  cbn [bind].
  destruct (files_piece request) as [piece_file|] eqn:Hfile;
    [|simpl; repeat split; try tauto; try discriminate].
  destruct (form_puzzle_id request) as [puzzle_id|] eqn:Hform;
    [|simpl; repeat split; try tauto; try discriminate].
  destruct (validate_piece_upload piece_file) as [[|] error_msg] eqn:Hval;
    [|simpl; repeat split; try tauto; try discriminate].
  cbn [negb].
  destruct (get_puzzle saved_puzzles fs puzzle_id) as [puzzle|] eqn:Hget.
  2:{ simpl. repeat split; try tauto; try discriminate.
      intros _. now exists request, puzzle_id. }
  destruct (file_read piece_file) as [piece_bytes|msg] eqn:Hread.
  2:{ simpl. repeat split; try tauto; try discriminate.
      intros _. exists msg. split; [reflexivity|].
      right. now exists request, piece_file. }
  cbn [bind try_except].
  destruct (check_image_quality piece_bytes)
    as [[[|] quality_msg] quality_score] eqn:Hq;
    [|simpl; repeat split; try tauto; try discriminate].
  cbn [negb try_except].
  destruct (Hprep (find_matches fs piece_bytes puzzle_id default_top_k))
    as [Hs Hb].
  rewrite Hs, Hb.
  repeat split; try tauto; try discriminate; [now left|].
  intros _. exists request, piece_file, puzzle_id, piece_bytes.
  rewrite Hval, Hget, Hq. repeat split; try assumption. discriminate.
Qed.

(** ** File names and upload validation *)

Module ValidatorFacts.

Import Validators.

Lemma split_none_no_dot (s : string) :
  split_last_dot s = None <-> has_dot s = false.
Proof.
  induction s as [|c s IH]; simpl; [tauto|].
  destruct (split_last_dot s) as [[before after]|].
  - split; [discriminate|].
    destruct (Ascii.eqb c dot_char); [discriminate|].
    intros H. apply IH in H. discriminate.
  - destruct (Ascii.eqb c dot_char); [split; discriminate|].
    split; intros _; [now apply IH | reflexivity].
Qed.

Lemma has_dot_middle (before after : string) :
  has_dot (before ++ String dot_char after) = true.
Proof.
  induction before as [|c b IH]; cbn [append has_dot].
  - now rewrite Ascii.eqb_refl.
  - destruct (Ascii.eqb c dot_char); [reflexivity | assumption].
Qed.

Lemma split_some_iff (s before after : string) :
  split_last_dot s = Some (before, after)
  <-> s = (before ++ String dot_char after)%string /\ has_dot after = false.
Proof.
  revert before. induction s as [|c s IH]; intros before; simpl.
  - split; [discriminate|]. intros [H _]. now destruct before.
  - destruct (split_last_dot s) as [[b a]|] eqn:Hs.
    + split.
      * intros [= <- <-]. destruct (proj1 (IH b) eq_refl) as [-> Ha].
        split; [reflexivity | assumption].
      * intros [Heq Ha]. destruct before as [|c' before']; simpl in Heq.
        -- injection Heq as -> ->.
           apply split_none_no_dot in Ha. rewrite Ha in Hs. discriminate.
        -- injection Heq as -> Heq.
           assert (Hsplit : Some (b, a) = Some (before', after))
             by (apply IH; split; assumption).
           now injection Hsplit as -> ->.
    + apply split_none_no_dot in Hs.
      destruct (Ascii.eqb_spec c dot_char) as [->|Hne].
      * split.
        -- intros [= <- <-]. split; [reflexivity | assumption].
        -- intros [Heq Ha]. destruct before as [|c' before']; simpl in Heq.
           ++ now injection Heq as ->.
           ++ injection Heq as _ Heq. exfalso.
              pose proof (has_dot_middle before' after) as Hdot.
              rewrite <- Heq, Hs in Hdot. discriminate.
      * split; [discriminate|].
        intros [Heq Ha]. destruct before as [|c' before']; simpl in Heq.
        -- injection Heq as -> _. contradiction.
        -- injection Heq as -> Heq. exfalso.
           pose proof (has_dot_middle before' after) as Hdot.
           rewrite <- Heq, Hs in Hdot. discriminate.
Qed.

(** X13.  [allowed_file] never raises: the dot test guards the indexing of
    the split.  It accepts a name exactly when the text after its last dot,
    lower-cased, is one of jpg, jpeg, png, webp, heic, bmp, tiff; a missing
    name, an empty name and a name without a dot are rejected. *)
Theorem allowed_file_checks_last_extension (name : option string) :
  (exists verdict, allowed_file name = Ok verdict)
  /\ (allowed_file name = Ok true
      <-> exists base extension,
            name = Some (base ++ "." ++ extension)%string
            /\ has_dot extension = false
            /\ In (lower_string extension) ALLOWED_EXTENSIONS)
  /\ (name = None \/ name = Some ""%string
      \/ (exists s, name = Some s /\ has_dot s = false) ->
      allowed_file name = Ok false).
Proof.
  assert (Hmem : forall x, mem x ALLOWED_EXTENSIONS = true
                           <-> In x ALLOWED_EXTENSIONS).
  { intros x. unfold mem. rewrite existsb_exists. split.
    - intros (y & Hy & Heq). apply String.eqb_eq in Heq. now subst.
    - intros Hx. exists x. split; [assumption | apply String.eqb_refl]. }
  destruct name as [s|].
  2:{ split; [now exists false|]. split; [|reflexivity].
      split; [discriminate | intros (b & e & [=] & _)]. }
  destruct s as [|c s'].
  { split; [now exists false|]. split; [|reflexivity].
    split; [discriminate|].
    intros (b & e & [= Heq] & _). now destruct b. }
  set (s := String c s').
  change (allowed_file (Some s))
    with (if negb (has_dot s) then Ok false
          else (part <- index (rsplit_dot_1 s) 1 ;;
                Ok (mem (lower_string part) ALLOWED_EXTENSIONS))%py).
  destruct (has_dot s) eqn:Hdot; cbn [negb].
  - unfold rsplit_dot_1.
    destruct (split_last_dot s) as [[before after]|] eqn:Hsplit.
    2:{ apply split_none_no_dot in Hsplit. rewrite Hsplit in Hdot. discriminate. }
    cbn [index nth_error bind].
    split; [eauto|]. split.
    + apply split_some_iff in Hsplit as [Heq Hafter]. split.
      * intros [= Hm]. apply Hmem in Hm.
        exists before, after. repeat split; try assumption.
        now rewrite Heq.
      * intros (b & e & [= Heq'] & He & Hin).
        assert (Hs' : split_last_dot s = Some (b, e))
          by (apply split_some_iff; split; assumption).
        assert (Hs'' : split_last_dot s = Some (before, after))
          by (apply split_some_iff; split; assumption).
        rewrite Hs' in Hs''. injection Hs'' as -> ->.
        f_equal. now apply Hmem.
    + intros [H|[H|(s0 & [= <-] & H)]]; try discriminate.
      rewrite H in Hdot. discriminate.
  - split; [now exists false|]. split; [|reflexivity].
    split; [discriminate|].
    intros (b & e & [= Heq] & He & _). exfalso.
    assert (Hs' : split_last_dot s = Some (b, e))
      by (apply split_some_iff; split; assumption).
    apply split_none_no_dot in Hdot. rewrite Hdot in Hs'. discriminate.
Qed.

End ValidatorFacts.

Module UploadFacts.

Import Validators.

Lemma allowed_file_ok (name : option string) :
  exists verdict, allowed_file name = Ok verdict.
Proof.
  destruct name as [[|c s']|]; try (now exists false).
  set (s := String c s').
  change (allowed_file (Some s))
    with (if negb (has_dot s) then Ok false
          else (part <- index (rsplit_dot_1 s) 1 ;;
                Ok (mem (lower_string part) ALLOWED_EXTENSIONS))%py).
  destruct (has_dot s) eqn:Hdot; cbn [negb]; [|now exists false].
  unfold rsplit_dot_1.
  destruct (split_last_dot s) as [[before after]|] eqn:Hsplit.
  - cbn [index nth_error bind]. eauto.
  - apply ValidatorFacts.split_none_no_dot in Hsplit.
    rewrite Hsplit in Hdot. discriminate.
Qed.

Lemma allowed_file_true_nonempty (name : option string) :
  allowed_file name = Ok true ->
  match name with Some EmptyString => false | _ => true end = true.
Proof. destruct name as [[|c s]|]; [discriminate | reflexivity | discriminate]. Qed.

Lemma too_large_none (file : FileStorage) :
  too_large file 10 = None
  <-> forall n, content_length file = Some n -> (n <= 10 * 1024 * 1024)%Z.
Proof.
  unfold too_large. destruct (content_length file) as [n|].
  2:{ split; [discriminate | reflexivity]. }
  destruct (Z.eqb_spec n 0) as [->|Hne].
  { split; [intros _ m [= <-]; lia | reflexivity]. }
  destruct (Rgt_dec (IZR n / (1024 * 1024)) 10) as [Hgt|Hle].
  - split; [discriminate|]. intros Hn. exfalso.
    specialize (Hn n eq_refl). apply IZR_le in Hn.
    rewrite !mult_IZR in Hn. lra.
  - split; [|reflexivity]. intros _ m [= <-].
    apply le_IZR. rewrite !mult_IZR. lra.
Qed.

(** X14.  [validate_piece_upload] accepts a file exactly when the file
    object is truthy, [allowed_file] accepts its name, and its declared
    length, if any, is at most 10 * 1024 * 1024 bytes; the message is then
    "Valid piece upload".  The declared MIME type never changes the
    verdict, and [validate_puzzle_upload] accepts exactly the same
    files. *)
Theorem upload_validators_accept_same_files
    (allowed_types_text : string) (format_1f : R -> string) (file : FileStorage) :
  (fst (validate_piece_upload allowed_types_text format_1f file) = true
   <-> file_truthy file = true
       /\ allowed_file (filename file) = Ok true
       /\ forall n, content_length file = Some n -> (n <= 10 * 1024 * 1024)%Z)
  /\ (fst (validate_piece_upload allowed_types_text format_1f file) = true ->
      snd (validate_piece_upload allowed_types_text format_1f file)
        = "Valid piece upload"%string)
  /\ fst (validate_puzzle_upload allowed_types_text format_1f file)
     = fst (validate_piece_upload allowed_types_text format_1f file)
  /\ (forall declared,
        validate_piece_upload allowed_types_text format_1f
          {| file_truthy := file_truthy file; filename := filename file;
             content_type := declared; content_length := content_length file |}
        = validate_piece_upload allowed_types_text format_1f file).
Proof.
  pose proof (too_large_none file) as Hsize.
  unfold validate_piece_upload, validate_puzzle_upload,
    MAX_PIECE_SIZE_MB, MAX_PUZZLE_SIZE_MB.
  split; [|split; [|split]].
  - destruct (file_truthy file); cbn [negb];
      [|split; [discriminate | intros [? _]; discriminate]].
    destruct (allowed_file_ok (filename file)) as [verdict Hv].
    destruct (filename file) as [[|c s]|] eqn:Hname.
    + split; [discriminate|]. intros (_ & Ha & _). discriminate.
    + rewrite Hv. cbn [bind try_except].
      destruct verdict; cbn [negb].
      * destruct (too_large file 10) as [size|]; cbn [fst].
        -- split; [discriminate|]. intros (_ & _ & Hn).
           apply Hsize in Hn. discriminate.
        -- split; [|reflexivity]. intros _.
           repeat split. now apply Hsize.
      * split; [discriminate|]. intros (_ & [=] & _).
    + rewrite Hv. cbn [bind try_except].
      destruct verdict; [discriminate Hv|].
      split; [discriminate|]. intros (_ & [=] & _).
  - destruct (file_truthy file); cbn [negb]; [|discriminate].
    destruct (allowed_file_ok (filename file)) as [verdict Hv].
    destruct (filename file) as [[|c s]|]; [discriminate| |];
      rewrite Hv; cbn [bind try_except];
      (destruct verdict; cbn [negb]; [|discriminate]);
      (destruct (too_large file 10); [discriminate | reflexivity]).
  - destruct (file_truthy file); cbn [negb]; [|reflexivity].
    destruct (allowed_file_ok (filename file)) as [verdict Hv].
    destruct (filename file) as [[|c s]|]; [reflexivity| |];
      rewrite Hv; cbn [bind try_except];
      (destruct verdict; cbn [negb]; [|reflexivity]);
      (destruct (too_large file 10); reflexivity).
  - intros declared. reflexivity.
Qed.

End UploadFacts.

(** ** The quality gate *)

Module QualityFacts.

Import QualityCheck.

Section Gate.

Variable Bytes : Type.
Variable Pixels : Type.
Variable decode : Bytes -> result (Z * Z * Pixels).
Variable laplacian_variance : Pixels -> result R.
Variable gray_std : Pixels -> result R.
Variable gray_mean : Pixels -> result R.

(** The verdict and the score once the image is decoded. *)
Lemma check_decoded (image_bytes : Bytes) (check_type : string)
    (width height : Z) (pixels : Pixels) :
  decode image_bytes = Ok (width, height, pixels) ->
  let s := calculate_image_sharpness laplacian_variance pixels in
  let c := calculate_image_contrast gray_std pixels in
  let b := calculate_brightness gray_mean pixels in
  let verdict :=
    fst (fst (check_image_quality decode laplacian_variance gray_std gray_mean
                image_bytes check_type)) in
  let score :=
    snd (check_image_quality decode laplacian_variance gray_std gray_mean
           image_bytes check_type) in
  ((width < 200 \/ height < 200 \/ 4000 < width \/ 4000 < height)%Z
   /\ verdict = false /\ score = 0)
  \/ ((200 <= width <= 4000 /\ 200 <= height <= 4000)%Z /\
      ((s < 100 /\ verdict = false /\ score = s / 100 * 100)
       \/ (100 <= s /\ c < 30 /\ verdict = false /\ score = c / 30 * 100)
       \/ (100 <= s /\ 30 <= c /\ b < 20 /\ verdict = false
           /\ score = b / 20 * 100)
       \/ (100 <= s /\ 30 <= c /\ 235 < b /\ verdict = false
           /\ score = 100 - (b - 235) / (255 - 235) * 100)
       \/ (100 <= s /\ 30 <= c /\ 20 <= b <= 235 /\ verdict = true
           /\ score = 0.40 * 100 + 0.35 * 100
                      + 0.25 * (100 - Rabs (b - 127) / 127 * 100)))).
Proof.
  intros Hdecode s c b verdict score. subst verdict score.
  unfold check_image_quality. rewrite Hdecode. cbn [bind].
  unfold MIN_DIMENSION, MAX_DIMENSION, SHARPNESS_THRESHOLD, CONTRAST_THRESHOLD,
    MIN_BRIGHTNESS, MAX_BRIGHTNESS.
  destruct (Z.ltb_spec width 200); cbn [orb]; [left; cbn; repeat split; lia|].
  destruct (Z.ltb_spec height 200); cbn [orb]; [left; cbn; repeat split; lia|].
  destruct (Z.gtb_spec width 4000); cbn [orb]; [left; cbn; repeat split; lia|].
  destruct (Z.gtb_spec height 4000); cbn [orb]; [left; cbn; repeat split; lia|].
  right. split; [lia|]. fold s c b.
  destruct (Rlt_dec s 100); [left; cbn; repeat split; lra|right].
  destruct (Rlt_dec c 30); [left; cbn; repeat split; lra|right].
  destruct (Rlt_dec b 20); [left; cbn; repeat split; lra|right].
  destruct (Rgt_dec b 235); [left; cbn; repeat split; lra|right].
  cbn [try_except fst snd].
  assert (Hs : Rmin 100 (s / 100 * 100) = 100) by (apply Rmin_left; lra).
  assert (Hc : Rmin 100 (c / 30 * 100) = 100) by (apply Rmin_left; lra).
  assert (Hb : Rmax 0 (100 - Rabs (b - 127) / 127 * 100)
               = 100 - Rabs (b - 127) / 127 * 100).
  { apply Rmax_right.
    assert (Rabs (b - 127) <= 108) by (apply Rabs_le; lra). lra. }
  rewrite Hs, Hc, Hb. repeat split; lra.
Qed.

End Gate.

(** X15.  [check_image_quality] accepts an image exactly when it decodes,
    its width and height are between 200 and 4000 pixels, its sharpness is
    at least 100, its contrast at least 30 and its brightness between 20
    and 235, whatever [check_type] is.  A measurement that raises counts
    as 0 and so rejects the image. *)
Theorem quality_gate_accepts_iff
    (Bytes Pixels : Type)
    (decode : Bytes -> result (Z * Z * Pixels))
    (laplacian_variance gray_std gray_mean : Pixels -> result R)
    (image_bytes : Bytes) (check_type : string) :
  (fst (fst (check_image_quality decode laplacian_variance gray_std gray_mean
               image_bytes check_type)) = true
   <-> exists width height pixels,
         decode image_bytes = Ok (width, height, pixels)
         /\ (200 <= width <= 4000)%Z /\ (200 <= height <= 4000)%Z
         /\ 100 <= calculate_image_sharpness laplacian_variance pixels
         /\ 30 <= calculate_image_contrast gray_std pixels
         /\ 20 <= calculate_brightness gray_mean pixels <= 235)
  /\ (forall width height pixels msg,
        decode image_bytes = Ok (width, height, pixels) ->
        laplacian_variance pixels = Raise msg \/ gray_std pixels = Raise msg
        \/ gray_mean pixels = Raise msg ->
        fst (fst (check_image_quality decode laplacian_variance gray_std
                    gray_mean image_bytes check_type)) = false).
Proof.
  assert (Hiff :
    fst (fst (check_image_quality decode laplacian_variance gray_std gray_mean
                image_bytes check_type)) = true
    <-> exists width height pixels,
          decode image_bytes = Ok (width, height, pixels)
          /\ (200 <= width <= 4000)%Z /\ (200 <= height <= 4000)%Z
          /\ 100 <= calculate_image_sharpness laplacian_variance pixels
          /\ 30 <= calculate_image_contrast gray_std pixels
          /\ 20 <= calculate_brightness gray_mean pixels <= 235).
  { destruct (decode image_bytes) as [[[width height] pixels]|msg] eqn:Hdecode.
    - pose proof (check_decoded _ _ decode laplacian_variance gray_std gray_mean
                    image_bytes check_type width height pixels Hdecode) as Hcases.
      cbv zeta in Hcases. split.
      + intros Htrue. exists width, height, pixels.
        rewrite Htrue in Hcases.
        destruct Hcases
          as [(_ & Hf & _)|(Hdims & [(_ & Hf & _)|[(_ & _ & Hf & _)|
               [(_ & _ & _ & Hf & _)|[(_ & _ & _ & Hf & _)|
               (Hs & Hc & Hb & _)]]]])]; try discriminate.
        repeat split; try tauto; lia.
      + intros (w & h & px & [= <- <- <-] & Hw & Hh & Hs & Hc & Hb).
        destruct Hcases
          as [(Hd & _)|(_ & [(Hlt & _)|[(_ & Hlt & _)|
               [(_ & _ & Hlt & _)|[(_ & _ & Hlt & _)|
               (_ & _ & _ & Ht & _)]]]])]; try lra; try lia.
        exact Ht.
    - split.
      + unfold check_image_quality. rewrite Hdecode. discriminate.
      + intros (w & h & px & [=] & _). }
  split; [exact Hiff|].
  intros width height pixels msg Hdecode Hraise.
  destruct (fst (fst (check_image_quality decode laplacian_variance gray_std
                        gray_mean image_bytes check_type))) eqn:Hv;
    [|reflexivity].
  destruct (proj1 Hiff eq_refl) as (w & h & px & Hd & _ & _ & Hs & Hc & Hb).
  rewrite Hdecode in Hd. injection Hd as <- <- <-.
  unfold calculate_image_sharpness, calculate_image_contrast,
    calculate_brightness in *.
  destruct Hraise as [Hr|[Hr|Hr]]; rewrite Hr in *; simpl in *; lra.
Qed.

(** X16.  For measurements in their natural ranges (sharpness and contrast
    not negative, brightness between 0 and 255) the quality score returned
    by [check_image_quality] lies between 0 and 100; and for an accepted
    image it is [75 + 0.25 * (100 - |brightness - 127| / 127 * 100)], hence
    more than 78.7: it then depends on the brightness only. *)
Theorem quality_score_range
    (Bytes Pixels : Type)
    (decode : Bytes -> result (Z * Z * Pixels))
    (laplacian_variance gray_std gray_mean : Pixels -> result R)
    (image_bytes : Bytes) (check_type : string)
    (width height : Z) (pixels : Pixels)
    (Hdecode : decode image_bytes = Ok (width, height, pixels))
    (Hsharp : 0 <= calculate_image_sharpness laplacian_variance pixels)
    (Hcontrast : 0 <= calculate_image_contrast gray_std pixels)
    (Hbright : 0 <= calculate_brightness gray_mean pixels <= 255) :
  let result := check_image_quality decode laplacian_variance gray_std gray_mean
                  image_bytes check_type in
  0 <= snd result <= 100
  /\ (fst (fst result) = true ->
      snd result
      = 75 + 0.25 * (100 - Rabs (calculate_brightness gray_mean pixels - 127)
                           / 127 * 100)
      /\ 78.7 < snd result).
Proof.
  intros result. subst result.
  pose proof (check_decoded _ _ decode laplacian_variance gray_std gray_mean
                image_bytes check_type width height pixels Hdecode) as Hcases.
  cbv zeta in Hcases.
  set (b := calculate_brightness gray_mean pixels) in *.
  assert (Habs : 20 <= b <= 235 -> 0 <= Rabs (b - 127) <= 108).
  { intros Hb. split; [apply Rabs_pos | apply Rabs_le; lra]. }
  destruct Hcases
    as [(_ & Hf & Hscore)|(_ & [(Hs & Hf & Hscore)|[(_ & Hc & Hf & Hscore)|
         [(_ & _ & Hb & Hf & Hscore)|[(_ & _ & Hb & Hf & Hscore)|
         (_ & _ & Hb & Hf & Hscore)]]]])];
    rewrite Hscore, Hf; (split; [|try discriminate]);
    try (intros _; specialize (Habs Hb); split; lra);
    try (specialize (Habs Hb)); lra.
Qed.

Lemma quality_score_range_witness :
  0 <= snd (check_image_quality
              (fun _ : unit => Ok (300%Z, 300%Z, tt))
              (fun _ : unit => Ok 150) (fun _ : unit => Ok 40)
              (fun _ : unit => Ok 127) tt "puzzle") <= 100.
Proof.
  apply (quality_score_range unit unit
           (fun _ : unit => Ok (300%Z, 300%Z, tt))
           (fun _ : unit => Ok 150) (fun _ : unit => Ok 40)
           (fun _ : unit => Ok 127) tt "puzzle" 300 300 tt eq_refl).
  - unfold calculate_image_sharpness. simpl. lra.
  - unfold calculate_image_contrast. simpl. lra.
  - unfold calculate_brightness. simpl. lra.
Defined.

End QualityFacts.

Module AdviceFacts.

Import QualityCheck.

Lemma advice_is_not_praise :
  Forall (fun s => s <> quality_good)
         [very_blurry; slightly_blurry; very_low_contrast; low_contrast;
          too_dark; dim; overexposed; very_bright].
Proof. repeat constructor; discriminate. Qed.

(** Decide the threshold tests of the suggestions. *)
Ltac split_thresholds :=
  repeat match goal with
    | |- context [Rlt_dec ?a ?b] => destruct (Rlt_dec a b)
    | |- context [Rgt_dec ?a ?b] => destruct (Rgt_dec a b)
    end.

(** X17.  [get_quality_suggestions] returns between one and three
    suggestions, at most one per measurement.  It returns the single
    sentence "Image quality is good!" exactly when sharpness is at least
    100, contrast at least 30 and brightness between 30 and 211.5;
    otherwise that sentence is absent.  So an image that passes the metric
    gates of [check_image_quality] with brightness below 30 or above 211.5
    is still told that it is dim or very bright. *)
Theorem quality_suggestions_shape (sharpness contrast brightness : R) :
  let suggestions := get_quality_suggestions sharpness contrast brightness in
  (1 <= List.length suggestions <= 3)%nat
  /\ (In quality_good suggestions
      <-> 100 <= sharpness /\ 30 <= contrast /\ 30 <= brightness <= 211.5)
  /\ (In quality_good suggestions -> suggestions = [quality_good])
  /\ (20 <= brightness < 30 -> In dim suggestions)
  /\ (211.5 < brightness <= 235 -> In very_bright suggestions).
Proof.
  intros suggestions. subst suggestions.
  pose proof advice_is_not_praise as Hne.
  repeat match goal with
    | H : Forall _ (_ :: _) |- _ =>
        let Hhead := fresh "Hhead" in
        apply Forall_cons_iff in H as [Hhead H]
    end.
  unfold get_quality_suggestions, SHARPNESS_THRESHOLD, CONTRAST_THRESHOLD,
    MIN_BRIGHTNESS, MAX_BRIGHTNESS.
  split_thresholds; cbn [app List.length In];
    (split; [lia|]);
    (split; [split; [intros Hin; intuition (try congruence; try lra)
                    | intros Hr; try (exfalso; lra); tauto]|]);
    (split; [intros Hin; intuition (try congruence; try lra)|]);
    (split; intros Hb; try (exfalso; lra); tauto).
Qed.

(** X18.  [detect_orientation] returns 0, 45, 90, 270 or 315 and never
    180: it returns 90 for an angle below -45, 270 above 45, 45 below
    -22.5, 315 above 22.5, and 0 for the remaining angles, when no contour
    is found and when the detection raises. *)
Theorem detect_orientation_values
    (Pixels : Type) (largest_contour_angle : Pixels -> result (option R))
    (image_array : Pixels) :
  let rotation := detect_orientation largest_contour_angle image_array in
  In rotation [0; 45; 90; 270; 315]%Z
  /\ rotation <> 180%Z
  /\ (forall angle,
        largest_contour_angle image_array = Ok (Some angle) ->
        (angle < -45 -> rotation = 90%Z)
        /\ (45 < angle -> rotation = 270%Z)
        /\ (-45 <= angle < -22.5 -> rotation = 45%Z)
        /\ (22.5 < angle <= 45 -> rotation = 315%Z)
        /\ (-22.5 <= angle <= 22.5 -> rotation = 0%Z))
  /\ (largest_contour_angle image_array = Ok None -> rotation = 0%Z)
  /\ (forall msg,
        largest_contour_angle image_array = Raise msg -> rotation = 0%Z).
Proof.
  intros rotation. subst rotation. unfold detect_orientation.
  destruct (largest_contour_angle image_array) as [[angle|]|msg];
    cbn [bind try_except].
  - destruct (Rlt_dec angle (-45)); [|destruct (Rgt_dec angle 45);
      [|destruct (Rlt_dec angle (-22.5)); [|destruct (Rgt_dec angle 22.5)]]];
      (split; [simpl; tauto|]); (split; [discriminate|]);
      (split; [intros a [= <-]; repeat split; intros ?; try reflexivity; lra|]);
      split; intros; discriminate.
  - split; [simpl; tauto|]. split; [discriminate|].
    split; [intros a [=]|]. split; reflexivity.
  - split; [simpl; tauto|]. split; [discriminate|].
    split; [intros a [=]|]. split; reflexivity.
Qed.

End AdviceFacts.

(** ** Paths *)

Lemma append_assoc (a b c : string) :
  ((a ++ b) ++ c)%string = (a ++ (b ++ c))%string.
Proof. induction a as [|x a IH]; simpl; [reflexivity | now rewrite IH]. Qed.

Lemma prefix_append (a b : string) : String.prefix a (a ++ b) = true.
Proof.
  induction a as [|x a IH]; simpl; [now destruct b|].
  destruct (Ascii.ascii_dec x x); [assumption | contradiction].
Qed.

Lemma prefix_cancel (a b c : string) :
  String.prefix (a ++ b) (a ++ c) = String.prefix b c.
Proof.
  induction a as [|x a IH]; simpl; [reflexivity|].
  destruct (Ascii.ascii_dec x x); [assumption | contradiction].
Qed.

Lemma eqb_cancel (a b c : string) :
  String.eqb (a ++ b) (a ++ c) = String.eqb b c.
Proof.
  induction a as [|x a IH]; simpl; [reflexivity|].
  now rewrite Ascii.eqb_refl.
Qed.

Lemma has_slash_append (a b : string) :
  has_slash (a ++ "/" ++ b) = true.
Proof.
  induction a as [|x a IH]; cbn [append has_slash].
  - reflexivity.
  - destruct (Ascii.eqb x _); [reflexivity | assumption].
Qed.

(** A slash-free name followed by a slash is a prefix only of paths that
    start with the same name. *)
Lemma prefix_slash_free (a b rest : string) :
  has_slash a = false -> has_slash b = false ->
  String.prefix (a ++ "/") (b ++ "/" ++ rest) = true -> a = b.
Proof.
  revert b. induction a as [|x a IH]; intros [|y b] Ha Hb Hp.
  - reflexivity.
  - cbn [append String.prefix] in Hp.
    match type of Hp with context [Ascii.ascii_dec ?u ?v] =>
      destruct (Ascii.ascii_dec u v) as [Heq|Hne]; [|discriminate] end.
    subst y. cbn in Hb. discriminate.
  - cbn [append String.prefix] in Hp.
    match type of Hp with context [Ascii.ascii_dec ?u ?v] =>
      destruct (Ascii.ascii_dec u v) as [Heq|Hne]; [|discriminate] end.
    subst x. cbn in Ha. discriminate.
  - cbn [append String.prefix] in Hp. cbn [has_slash] in Ha, Hb.
    destruct (Ascii.ascii_dec x y) as [<-|Hne]; [|discriminate].
    destruct (Ascii.eqb x _); [discriminate|].
    f_equal. now apply (IH b).
Qed.

Lemma component_parts (name : string) :
  component name = true ->
  name <> ""%string /\ name <> "."%string /\ name <> ".."%string
  /\ has_slash name = false.
Proof.
  unfold component. intros H.
  apply andb_true_iff in H as [H Hslash].
  apply andb_true_iff in H as [H Hdots].
  apply andb_true_iff in H as [Hempty Hdot].
  apply negb_true_iff in Hslash, Hdots, Hempty, Hdot.
  apply String.eqb_neq in Hdots, Hempty, Hdot. auto.
Qed.

Section StorageFacts.

Context {E : External}.
Variable puzzle_folder : string.
Variable puzzle_open : PieceBytes -> result Image.
Variable image_size : Image -> Z * Z.
Variable image_thumbnail : Image -> Z -> result Image.
Variable jpeg_encode : Image -> result PieceBytes.
Variable exists_elsewhere : Disk -> string -> bool.
Variable rmtree_elsewhere : Disk -> string -> Disk * option string.

Lemma under_child (dir name : string) : under dir (path_join dir name) = true.
Proof.
  unfold under, path_join.
  rewrite <- append_assoc, prefix_append. apply orb_true_r.
Qed.

Lemma under_self (dir : string) : under dir dir = true.
Proof. unfold under. now rewrite String.eqb_refl. Qed.

Lemma child_not_outside (dir name p : string) :
  under dir p = false -> String.eqb p (path_join dir name) = false.
Proof.
  intros Hout. destruct (String.eqb_spec p (path_join dir name)) as [->|];
    [|reflexivity].
  now rewrite under_child in Hout.
Qed.

Lemma child_paths_differ (dir a b : string) :
  String.eqb (path_join dir a) (path_join dir b) = String.eqb a b.
Proof. unfold path_join. now rewrite !eqb_cancel. Qed.

(** The files of another puzzle are not below a puzzle's directory. *)
Lemma other_puzzle_outside (puzzle_id other name : string) :
  has_slash puzzle_id = false -> has_slash other = false ->
  other <> puzzle_id ->
  under (path_join puzzle_folder puzzle_id)
        (path_join (path_join puzzle_folder other) name) = false.
Proof.
  intros Hid Hother Hne. unfold under, path_join.
  apply orb_false_iff. split.
  - rewrite append_assoc, eqb_cancel. cbn [append String.eqb].
    rewrite Ascii.eqb_refl. apply String.eqb_neq. intros Heq.
    pose proof (has_slash_append other name) as Hs.
    cbn [append] in Hs. rewrite Heq in Hs. rewrite Hs in Hid. discriminate.
  - rewrite !append_assoc, prefix_cancel. cbn [append String.prefix].
    match goal with |- context [Ascii.ascii_dec ?u ?v] =>
      destruct (Ascii.ascii_dec u v) as [_|Hn]; [|reflexivity] end.
    match goal with |- ?p = false => destruct p eqn:Hp; [|reflexivity] end.
    pose proof (prefix_slash_free puzzle_id other name Hid Hother) as Hfree.
    cbn [append] in Hfree. apply Hfree in Hp. now subst.
Qed.

Lemma rmtree_get_puzzle (d : Disk) (puzzle_id : string) :
  get_puzzle puzzle_folder
    (disk_files (rmtree d (path_join puzzle_folder puzzle_id))) puzzle_id = None.
Proof.
  unfold get_puzzle, disk_files, rmtree. cbn [json_files disk_json].
  now rewrite under_child.
Qed.


Lemma rmtree_load_features (d : Disk) (puzzle_id : string) :
  load_puzzle_features puzzle_folder
    (disk_files (rmtree d (path_join puzzle_folder puzzle_id))) puzzle_id = None.
Proof.
  unfold load_puzzle_features, get_puzzle_features_path, disk_files, rmtree.
  cbn [pickle_files disk_pickles]. now rewrite under_child.
Qed.

Lemma rmtree_paths (d : Disk) (dir name : string) :
  path_exists (rmtree d dir) (path_join dir name) = false
  /\ path_exists (rmtree d dir) dir = false.
Proof.
  unfold path_exists, rmtree.
  cbn [disk_dirs disk_pickles disk_json disk_images].
  now rewrite under_child, under_self.
Qed.

Lemma rmtree_same_outside (d : Disk) (dir : string) :
  same_outside dir d (rmtree d dir).
Proof.
  intros p Hout. unfold rmtree.
  cbn [disk_dirs disk_pickles disk_json disk_images].
  now rewrite Hout.
Qed.

Lemma same_outside_refl (dir : string) (d : Disk) : same_outside dir d d.
Proof. intros p _. repeat split. Qed.

Lemma same_outside_trans (dir : string) (d1 d2 d3 : Disk) :
  same_outside dir d1 d2 -> same_outside dir d2 d3 -> same_outside dir d1 d3.
Proof.
  intros H12 H23 p Hout.
  destruct (H12 p Hout) as (-> & -> & -> & ->). now apply H23.
Qed.

Lemma makedirs_same_outside (d : Disk) (dir : string) :
  same_outside dir d (makedirs d dir).
Proof.
  intros p Hout. unfold makedirs. cbn. repeat split.
  unfold under in Hout. apply orb_false_iff in Hout as [-> _]. reflexivity.
Qed.

Lemma write_image_same_outside
    (d : Disk) (dir name : string) (encoded : PieceBytes) :
  same_outside dir d (write_image d (path_join dir name) encoded).
Proof.
  intros p Hout. unfold write_image. cbn. repeat split.
  now rewrite (child_not_outside dir name p Hout).
Qed.

Lemma write_pickle_same_outside (d : Disk) (dir name : string) (v : PuzzleFeatures) :
  same_outside dir d (write_pickle d (path_join dir name) v).
Proof.
  intros p Hout. unfold write_pickle. cbn. repeat split.
  now rewrite (child_not_outside dir name p Hout).
Qed.

Lemma write_json_same_outside (d : Disk) (dir name : string) (m : SavedMetadata) :
  same_outside dir d (write_json d (path_join dir name) m).
Proof.
  intros p Hout. unfold write_json. cbn. repeat split.
  now rewrite (child_not_outside dir name p Hout).
Qed.

(** The matcher's [get_puzzle] is [get_puzzle_dict] cut down to the keys
    of [Metadata]. *)
Lemma get_puzzle_restricts (d : Disk) (puzzle_id : string) :
  get_puzzle puzzle_folder (disk_files d) puzzle_id
  = option_map (fun dict => saved_core (dict_metadata dict))
               (get_puzzle_dict puzzle_folder d puzzle_id).
Proof.
  unfold get_puzzle, get_puzzle_dict, disk_files. cbn [json_files].
  destruct (disk_json d _) as [[saved|e]|]; reflexivity.
Qed.

(** What the [try] block of [save_puzzle] leaves on the disk. *)
Lemma save_puzzle_steps_spec
    (d : Disk) (puzzle_id now : string) (image_bytes : PieceBytes)
    (puzzle_name : string) (d1 : Disk) (r : result SavedMetadata) :
  save_puzzle_steps puzzle_folder puzzle_open image_size image_thumbnail
    jpeg_encode d puzzle_id now image_bytes puzzle_name = (d1, r) ->
  (forall p, disk_dirs d1 p = disk_dirs d p)
  /\ same_outside (path_join puzzle_folder puzzle_id) d d1
  /\ match r with
     | Raise _ => True
     | Ok saved =>
         exists opened image thumbnail features encoded encoded_thumbnail,
           puzzle_open image_bytes = Ok opened
           /\ (if ((fst (image_size opened) >? 2048)
                   || (snd (image_size opened) >? 2048))%Z%bool
               then image_thumbnail opened 2048 else Ok opened) = Ok image
           /\ image_thumbnail image 200 = Ok thumbnail
           /\ extract_puzzle_features image = Ok features
           /\ jpeg_encode image = Ok encoded
           /\ jpeg_encode thumbnail = Ok encoded_thumbnail
           /\ disk_images d1
                (path_join (path_join puzzle_folder puzzle_id) "original.jpg")
              = Some encoded
           /\ disk_images d1
                (path_join (path_join puzzle_folder puzzle_id) "thumbnail.jpg")
              = Some encoded_thumbnail
           /\ disk_pickles d1
                (path_join (path_join puzzle_folder puzzle_id) "features.pkl")
              = Some (Ok features)
           /\ disk_json d1
                (path_join (path_join puzzle_folder puzzle_id) "metadata.json")
              = Some (Ok saved)
           /\ saved
              = {| saved_core :=
                     {| puzzle_id_of := puzzle_id;
                        name_of := puzzle_name;
                        dimensions_width := fst (image_size image);
                        dimensions_height := snd (image_size image) |};
                   date_added := now;
                   original_dimensions := image_size opened;
                   region_count := Z.of_nat (List.length (regions features)) |}
     end.
Proof.
  unfold save_puzzle_steps. set (dir := path_join puzzle_folder puzzle_id).
  intros Hrun.
  destruct (puzzle_open image_bytes) as [opened|e] eqn:Hopen.
  2:{ injection Hrun as <- <-.
      split; [reflexivity|]. split; [apply same_outside_refl | exact I]. }
  destruct (image_size opened) as [original_width original_height] eqn:Hsize0.
  destruct (if ((original_width >? 2048) || (original_height >? 2048))%Z%bool
            then image_thumbnail opened 2048 else Ok opened)
    as [image|e] eqn:Hresize.
  2:{ injection Hrun as <- <-.
      split; [reflexivity|]. split; [apply same_outside_refl | exact I]. }
  destruct (image_size image) as [width height] eqn:Hsize.
  unfold save_jpeg in Hrun.
  destruct (jpeg_encode image) as [encoded|e] eqn:Hjpeg; cbn [bind] in Hrun.
  2:{ injection Hrun as <- <-.
      split; [reflexivity|]. split; [apply same_outside_refl | exact I]. }
  destruct (image_thumbnail image 200) as [thumbnail|e] eqn:Hthumb.
  2:{ injection Hrun as <- <-.
      split; [reflexivity|].
      split; [apply write_image_same_outside | exact I]. }
  destruct (jpeg_encode thumbnail) as [encoded_thumbnail|e] eqn:Hjpeg2;
    cbn [bind] in Hrun.
  2:{ injection Hrun as <- <-.
      split; [reflexivity|].
      split; [apply write_image_same_outside | exact I]. }
  assert (Himages : same_outside dir d
            (write_image (write_image d (path_join dir "original.jpg") encoded)
                         (path_join dir "thumbnail.jpg") encoded_thumbnail)).
  { eapply same_outside_trans; apply write_image_same_outside. }
  destruct (extract_puzzle_features image) as [features|e] eqn:Hfeat.
  2:{ injection Hrun as <- <-.
      split; [reflexivity|]. split; [exact Himages | exact I]. }
  injection Hrun as <- <-.
  split; [reflexivity|]. split.
  { eapply same_outside_trans; [|apply write_json_same_outside].
    eapply same_outside_trans; [|apply write_pickle_same_outside].
    exact Himages. }
  exists opened, image, thumbnail, features, encoded, encoded_thumbnail.
  rewrite Hsize0, Hsize.
  cbn [saved_core fst snd write_json write_pickle write_image
       disk_images disk_pickles disk_json].
  rewrite !String.eqb_refl, child_paths_differ.
  repeat split; try reflexivity; assumption.
Qed.

(** [save_puzzle]: the directory is made first, and a failed save always
    finds it and removes it. *)
Lemma save_puzzle_cases
    (d : Disk) (new_id now : string) (image_bytes : PieceBytes)
    (puzzle_name : string) :
  exists d1 r,
    save_puzzle_steps puzzle_folder puzzle_open image_size image_thumbnail
      jpeg_encode (makedirs d (path_join puzzle_folder new_id))
      new_id now image_bytes puzzle_name = (d1, r)
    /\ save_puzzle puzzle_folder puzzle_open image_size image_thumbnail
         jpeg_encode d new_id now image_bytes puzzle_name
       = match r with
         | Ok saved => (d1, Ok saved)
         | Raise e => (rmtree d1 (path_join puzzle_folder new_id), Raise e)
         end.
Proof.
  unfold save_puzzle.
  destruct (save_puzzle_steps puzzle_folder puzzle_open image_size
              image_thumbnail jpeg_encode
              (makedirs d (path_join puzzle_folder new_id))
              new_id now image_bytes puzzle_name) as [d1 r] eqn:Hrun.
  exists d1, r. split; [reflexivity|].
  destruct r as [saved|e]; [reflexivity|].
  destruct (save_puzzle_steps_spec _ _ _ _ _ _ _ Hrun) as (Hdirs & _ & _).
  unfold path_exists. rewrite Hdirs. unfold makedirs. cbn [disk_dirs].
  now rewrite String.eqb_refl.
Qed.

Lemma save_puzzle_same_outside
    (d : Disk) (new_id now : string) (image_bytes : PieceBytes)
    (puzzle_name : string) :
  same_outside (path_join puzzle_folder new_id) d
    (fst (save_puzzle puzzle_folder puzzle_open image_size image_thumbnail
            jpeg_encode d new_id now image_bytes puzzle_name)).
Proof.
  destruct (save_puzzle_cases d new_id now image_bytes puzzle_name)
    as (d1 & r & Hrun & ->).
  destruct (save_puzzle_steps_spec _ _ _ _ _ _ _ Hrun) as (_ & Hout & _).
  assert (Hmade : same_outside (path_join puzzle_folder new_id) d d1).
  { eapply same_outside_trans; [apply makedirs_same_outside | exact Hout]. }
  destruct r as [saved|e]; cbn [fst]; [exact Hmade|].
  eapply same_outside_trans; [exact Hmade | apply rmtree_same_outside].
Qed.

(** For an id that is a single path component, [delete_puzzle] removes the
    puzzle's directory, if it exists. *)
Lemma delete_puzzle_component (d : Disk) (puzzle_id : string) :
  component puzzle_id = true ->
  delete_puzzle puzzle_folder exists_elsewhere rmtree_elsewhere d puzzle_id
  = if path_exists d (path_join puzzle_folder puzzle_id)
    then (rmtree d (path_join puzzle_folder puzzle_id), Ok true)
    else (d, Ok false).
Proof.
  intros Hid. unfold delete_puzzle, exists_joined, shutil_rmtree.
  rewrite Hid. now destruct (path_exists d _).
Qed.

(** Whatever the id, when [delete_puzzle] returns [True] the disk reached
    is one from which the puzzle's tree has been removed. *)
Lemma delete_puzzle_true (d d' : Disk) (puzzle_id : string) :
  delete_puzzle puzzle_folder exists_elsewhere rmtree_elsewhere d puzzle_id
  = (d', Ok true) ->
  exists d1, d' = rmtree d1 (path_join puzzle_folder puzzle_id).
Proof.
  unfold delete_puzzle, shutil_rmtree.
  destruct (negb (exists_joined exists_elsewhere d puzzle_folder puzzle_id));
    [discriminate|].
  destruct (component puzzle_id).
  - intros [= <-]. now exists d.
  - destruct (rmtree_elsewhere d _) as [d1 [e|]]; [discriminate|].
    intros [= <-]. now exists d1.
Qed.

Lemma delete_puzzle_same_outside (d : Disk) (puzzle_id : string) :
  component puzzle_id = true ->
  same_outside (path_join puzzle_folder puzzle_id) d
    (fst (delete_puzzle puzzle_folder exists_elsewhere rmtree_elsewhere
            d puzzle_id)).
Proof.
  intros Hid. rewrite (delete_puzzle_component d puzzle_id Hid).
  destruct (path_exists d (path_join puzzle_folder puzzle_id)); cbn [fst].
  - apply rmtree_same_outside.
  - apply same_outside_refl.
Qed.

(** What the readers of the service see of a puzzle depends only on the
    files of that puzzle. *)
Lemma readers_agree_outside (dir : string) (d d' : Disk) (other : string) :
  same_outside dir d d' ->
  (forall name, under dir (path_join (path_join puzzle_folder other) name) = false) ->
  get_puzzle_dict puzzle_folder d' other = get_puzzle_dict puzzle_folder d other
  /\ get_puzzle puzzle_folder (disk_files d') other
     = get_puzzle puzzle_folder (disk_files d) other
  /\ load_puzzle_features puzzle_folder (disk_files d') other
     = load_puzzle_features puzzle_folder (disk_files d) other
  /\ get_puzzle_image_path puzzle_folder d' other
     = get_puzzle_image_path puzzle_folder d other
  /\ get_puzzle_thumbnail_path puzzle_folder d' other
     = get_puzzle_thumbnail_path puzzle_folder d other.
Proof.
  intros Hsame Hout.
  destruct (Hsame _ (Hout "metadata.json"%string)) as (_ & _ & Hjson & _).
  destruct (Hsame _ (Hout "features.pkl"%string)) as (_ & Hpickle & _ & _).
  rewrite !get_puzzle_restricts.
  assert (Hdict : get_puzzle_dict puzzle_folder d' other
                  = get_puzzle_dict puzzle_folder d other).
  { unfold get_puzzle_dict. now rewrite Hjson. }
  rewrite Hdict.
  split; [reflexivity|]. split; [reflexivity|].
  unfold load_puzzle_features, get_puzzle_features_path,
    load_features, get_puzzle_image_path, get_puzzle_thumbnail_path,
    path_exists, disk_files.
  cbn [pickle_files].
  destruct (Hsame _ (Hout "original.jpg"%string)) as (-> & -> & -> & ->).
  destruct (Hsame _ (Hout "thumbnail.jpg"%string)) as (-> & -> & -> & ->).
  rewrite <- Hpickle.
  repeat split.
  destruct (disk_pickles d
              (path_join (path_join puzzle_folder other) "features.pkl"))
    eqn:Hd; [|reflexivity].
  cbv beta iota. now rewrite <- Hpickle, Hd.
Qed.

End StorageFacts.

(** ** Saving a puzzle *)

(** X19.  A puzzle that [save_puzzle] reports as saved can be read back
    under the id it was given: [get_puzzle] returns the dictionary that
    [save_puzzle] returned, with the new id, the given name and the date of
    the call, and the two URLs of the puzzle added; the image and thumbnail
    paths exist.  The file [original.jpg] holds the JPEG encoding of an
    image that has the recorded dimensions; [load_puzzle_features] returns
    the descriptors that [extract_puzzle_features] computes from that image
    as it was in memory before encoding, and [region_count] is their
    number.  An upload of at most 2048 x 2048 pixels is stored at its
    original dimensions. *)
Theorem saved_puzzle_reads_back
    (E : External) (puzzle_folder : string)
    (puzzle_open : PieceBytes -> result Image)
    (image_size : Image -> Z * Z)
    (image_thumbnail : Image -> Z -> result Image)
    (jpeg_encode : Image -> result PieceBytes)
    (d : Disk) (new_id now : string) (image_bytes : PieceBytes)
    (puzzle_name : string) (d' : Disk) (saved : SavedMetadata) :
  save_puzzle puzzle_folder puzzle_open image_size image_thumbnail
    jpeg_encode d new_id now image_bytes puzzle_name = (d', Ok saved) ->
  get_puzzle_dict puzzle_folder d' new_id
  = Some {| dict_metadata := saved;
            image_url := "/puzzle_solver/api/puzzles/" ++ new_id ++ "/image";
            thumbnail_url :=
              "/puzzle_solver/api/puzzles/" ++ new_id ++ "/thumbnail" |}
  /\ get_puzzle puzzle_folder (disk_files d') new_id = Some (saved_core saved)
  /\ puzzle_id_of (saved_core saved) = new_id
  /\ name_of (saved_core saved) = puzzle_name
  /\ date_added saved = now
  /\ get_puzzle_image_path puzzle_folder d' new_id
     = Some (path_join (path_join puzzle_folder new_id) "original.jpg")
  /\ get_puzzle_thumbnail_path puzzle_folder d' new_id
     = Some (path_join (path_join puzzle_folder new_id) "thumbnail.jpg")
  /\ (exists image features encoded,
        image_size image
        = (dimensions_width (saved_core saved),
           dimensions_height (saved_core saved))
        /\ jpeg_encode image = Ok encoded
        /\ disk_images d'
             (path_join (path_join puzzle_folder new_id) "original.jpg")
           = Some encoded
        /\ extract_puzzle_features image = Ok features
        /\ load_puzzle_features puzzle_folder (disk_files d') new_id
           = Some features
        /\ region_count saved = Z.of_nat (List.length (regions features)))
  /\ ((fst (original_dimensions saved) <= 2048)%Z ->
      (snd (original_dimensions saved) <= 2048)%Z ->
      original_dimensions saved
      = (dimensions_width (saved_core saved),
         dimensions_height (saved_core saved))).
Proof.
  intros Hsave.
  destruct (save_puzzle_cases puzzle_folder puzzle_open image_size
              image_thumbnail jpeg_encode d new_id now image_bytes
              puzzle_name) as (d1 & r & Hrun & Hcases).
  rewrite Hcases in Hsave.
  destruct r as [saved1|e]; [|discriminate].
  injection Hsave as <- <-.
  apply save_puzzle_steps_spec in Hrun.
  destruct Hrun as (_ & _ & opened & image & thumbnail & features
                    & encoded & encoded_thumbnail
                    & Hopen & Hresize & Hthumb & Hfeat & Hjpeg & Hjpeg2
                    & Himage & Hthumbnail & Hpickle & Hjson & Hsaved).
  assert (Hdict :
    get_puzzle_dict puzzle_folder d1 new_id
    = Some {| dict_metadata := saved1;
              image_url := "/puzzle_solver/api/puzzles/" ++ new_id ++ "/image";
              thumbnail_url :=
                "/puzzle_solver/api/puzzles/" ++ new_id ++ "/thumbnail" |}).
  { unfold get_puzzle_dict. rewrite Hjson. reflexivity. }
  split; [exact Hdict|].
  split; [rewrite get_puzzle_restricts, Hdict; reflexivity|].
  subst saved1.
  cbn [saved_core puzzle_id_of name_of date_added dimensions_width
       dimensions_height original_dimensions region_count] in *.
  do 3 (split; [reflexivity|]).
  split.
  { unfold get_puzzle_image_path, path_exists.
    rewrite Himage, !orb_true_r. reflexivity. }
  split.
  { unfold get_puzzle_thumbnail_path, path_exists.
    rewrite Hthumbnail, !orb_true_r. reflexivity. }
  split.
  { exists image, features, encoded.
    split; [now destruct (image_size image)|].
    split; [exact Hjpeg|]. split; [exact Himage|].
    split; [exact Hfeat|]. split; [|reflexivity].
    unfold load_puzzle_features, get_puzzle_features_path, load_features,
      disk_files.
    cbn [pickle_files]. rewrite Hpickle. cbv beta iota.
    rewrite Hpickle. reflexivity. }
  intros Hw Hh.
  apply Z.ltb_ge in Hw. apply Z.ltb_ge in Hh.
  rewrite !Z.gtb_ltb, Hw, Hh in Hresize. cbn [orb] in Hresize.
  injection Hresize as <-. now destruct (image_size opened).
Qed.

Lemma saved_puzzle_reads_back_witness :
  get_puzzle_dict saved_puzzles DiskFixture.one_puzzle "p9"
  = Some {| dict_metadata :=
              {| saved_core :=
                   {| puzzle_id_of := "p9"; name_of := "Harbour";
                      dimensions_width := 300; dimensions_height := 200 |};
                 date_added := "2024-05-01T12:00:00";
                 original_dimensions := (300, 200)%Z;
                 region_count := 15 |};
            image_url := "/puzzle_solver/api/puzzles/p9/image";
            thumbnail_url := "/puzzle_solver/api/puzzles/p9/thumbnail" |}
  /\ load_puzzle_features saved_puzzles (disk_files DiskFixture.one_puzzle) "p9"
     <> None.
Proof.
  destruct (saved_puzzle_reads_back Fixture.fake saved_puzzles
              (image_open (External := Fixture.fake))
              DiskFixture.size DiskFixture.thumbnail DiskFixture.encode
              DiskFixture.empty "p9" "2024-05-01T12:00:00"
              DiskFixture.harbour "Harbour" DiskFixture.one_puzzle
              {| saved_core :=
                   {| puzzle_id_of := "p9"; name_of := "Harbour";
                      dimensions_width := 300; dimensions_height := 200 |};
                 date_added := "2024-05-01T12:00:00";
                 original_dimensions := (300, 200)%Z;
                 region_count := 15 |}
              eq_refl)
    as (Hdict & _ & _ & _ & _ & _ & _
        & (image & features & encoded & _ & _ & _ & _ & Hload & _) & _).
  split; [exact Hdict|]. rewrite Hload. discriminate.
Defined.

(** X20.  When [save_puzzle] raises, nothing of the new puzzle is left: its
    directory is gone, [get_puzzle] and [load_puzzle_features] return
    [None] for its id, the image and thumbnail paths do not exist, and the
    disk outside the puzzle's directory is as before the call. *)
Theorem failed_save_leaves_nothing
    (E : External) (puzzle_folder : string)
    (puzzle_open : PieceBytes -> result Image)
    (image_size : Image -> Z * Z)
    (image_thumbnail : Image -> Z -> result Image)
    (jpeg_encode : Image -> result PieceBytes)
    (d : Disk) (new_id now : string) (image_bytes : PieceBytes)
    (puzzle_name : string) (d' : Disk) (e : string) :
  save_puzzle puzzle_folder puzzle_open image_size image_thumbnail
    jpeg_encode d new_id now image_bytes puzzle_name = (d', Raise e) ->
  path_exists d' (path_join puzzle_folder new_id) = false
  /\ get_puzzle puzzle_folder (disk_files d') new_id = None
  /\ load_puzzle_features puzzle_folder (disk_files d') new_id = None
  /\ get_puzzle_image_path puzzle_folder d' new_id = None
  /\ get_puzzle_thumbnail_path puzzle_folder d' new_id = None
  /\ same_outside (path_join puzzle_folder new_id) d d'.
Proof.
  intros Hsave.
  pose proof (save_puzzle_same_outside puzzle_folder puzzle_open image_size
                image_thumbnail jpeg_encode d new_id now image_bytes
                puzzle_name) as Hout.
  rewrite Hsave in Hout. cbn [fst] in Hout.
  destruct (save_puzzle_cases puzzle_folder puzzle_open image_size
              image_thumbnail jpeg_encode d new_id now image_bytes
              puzzle_name) as (d1 & r & _ & Hcases).
  rewrite Hcases in Hsave.
  destruct r as [saved|e1]; [discriminate|].
  injection Hsave as <- _.
  split; [apply rmtree_paths with (name := EmptyString)|].
  split; [apply rmtree_get_puzzle|].
  split; [apply rmtree_load_features|].
  unfold get_puzzle_image_path, get_puzzle_thumbnail_path.
  rewrite (proj1 (rmtree_paths d1 (path_join puzzle_folder new_id) "original.jpg")).
  rewrite (proj1 (rmtree_paths d1 (path_join puzzle_folder new_id) "thumbnail.jpg")).
  split; [reflexivity|]. split; [reflexivity | exact Hout].
Qed.

Lemma failed_save_leaves_nothing_witness :
  get_puzzle saved_puzzles
    (disk_files (fst (DiskFixture.save DiskFixture.one_puzzle "p9" None))) "p9"
  = None.
Proof.
  apply (failed_save_leaves_nothing Fixture.fake saved_puzzles
           (image_open (External := Fixture.fake))
           DiskFixture.size DiskFixture.thumbnail DiskFixture.encode
           DiskFixture.one_puzzle "p9" "2024-05-01T12:00:00" None "Harbour"
           (fst (DiskFixture.save DiskFixture.one_puzzle "p9" None))
           "cannot identify image file" eq_refl).
Defined.

(** ** Deleting a puzzle *)



(** ** Puzzles do not interfere *)

(** The matcher and the route read the disk through [get_puzzle] and
    [load_puzzle_features] only. *)
Lemma find_matches_reads
    (E : External) (fs fs' : FileSystem) (puzzle_id : string) :
  get_puzzle saved_puzzles fs' puzzle_id = get_puzzle saved_puzzles fs puzzle_id ->
  load_puzzle_features saved_puzzles fs' puzzle_id
  = load_puzzle_features saved_puzzles fs puzzle_id ->
  forall piece_bytes top_k,
    find_matches fs' piece_bytes puzzle_id top_k
    = find_matches fs piece_bytes puzzle_id top_k.
Proof.
  intros Hget Hload piece_bytes top_k. unfold find_matches.
  now rewrite Hget, Hload.
Qed.

Lemma analyze_piece_reads
    (E : External) (fs fs' : FileSystem) (request : Request) :
  (forall puzzle_id,
      form_puzzle_id request = Some puzzle_id ->
      get_puzzle saved_puzzles fs' puzzle_id
      = get_puzzle saved_puzzles fs puzzle_id
      /\ load_puzzle_features saved_puzzles fs' puzzle_id
         = load_puzzle_features saved_puzzles fs puzzle_id) ->
  analyze_piece fs' (Ok request) = analyze_piece fs (Ok request).
Proof.
  intros Hsame. unfold analyze_piece. cbn [bind].
  destruct (files_piece request) as [piece_file|]; [|reflexivity].
  destruct (form_puzzle_id request) as [puzzle_id|]; [|reflexivity].
  destruct (Hsame puzzle_id eq_refl) as [Hget Hload].
  pose proof (find_matches_reads E fs fs' puzzle_id Hget Hload) as Hfind.
  rewrite Hget.
  destruct (validate_piece_upload piece_file) as [is_valid error_msg].
  destruct (negb is_valid); [reflexivity|].
  destruct (get_puzzle saved_puzzles fs puzzle_id); [|reflexivity].
  destruct (file_read piece_file) as [piece_bytes|msg]; [|reflexivity].
  cbn [bind].
  destruct (check_image_quality piece_bytes) as [[quality_ok quality_msg] score].
  destruct (negb quality_ok); [reflexivity|].
  now rewrite Hfind.
Qed.

(** X22.  Saving a puzzle, whether the save succeeds or raises, and
    deleting a puzzle leave every other puzzle as it was: when both ids are
    single path components (not empty, not [.] or [..], without a slash),
    what [get_puzzle], [load_puzzle_features] and the image and thumbnail
    paths return for the other id is the same before and after. *)
Theorem other_puzzles_are_untouched
    (E : External) (puzzle_folder : string)
    (puzzle_open : PieceBytes -> result Image)
    (image_size : Image -> Z * Z)
    (image_thumbnail : Image -> Z -> result Image)
    (jpeg_encode : Image -> result PieceBytes)
    (exists_elsewhere : Disk -> string -> bool)
    (rmtree_elsewhere : Disk -> string -> Disk * option string)
    (d : Disk) (puzzle_id other now : string) (image_bytes : PieceBytes)
    (puzzle_name : string) (d' : Disk) :
  component puzzle_id = true ->
  component other = true ->
  other <> puzzle_id ->
  d' = fst (save_puzzle puzzle_folder puzzle_open image_size image_thumbnail
              jpeg_encode d puzzle_id now image_bytes puzzle_name)
  \/ d' = fst (delete_puzzle puzzle_folder exists_elsewhere rmtree_elsewhere
                 d puzzle_id) ->
  get_puzzle_dict puzzle_folder d' other = get_puzzle_dict puzzle_folder d other
  /\ get_puzzle puzzle_folder (disk_files d') other
     = get_puzzle puzzle_folder (disk_files d) other
  /\ load_puzzle_features puzzle_folder (disk_files d') other
     = load_puzzle_features puzzle_folder (disk_files d) other
  /\ get_puzzle_image_path puzzle_folder d' other
     = get_puzzle_image_path puzzle_folder d other
  /\ get_puzzle_thumbnail_path puzzle_folder d' other
     = get_puzzle_thumbnail_path puzzle_folder d other.
Proof.
  intros Hid Hother Hne Hd'.
  apply readers_agree_outside with (dir := path_join puzzle_folder puzzle_id).
  - destruct Hd' as [-> | ->].
    + apply save_puzzle_same_outside.
    + now apply delete_puzzle_same_outside.
  - intros name.
    apply other_puzzle_outside; [| |assumption].
    + now apply component_parts in Hid.
    + now apply component_parts in Hother.
Qed.

Lemma other_puzzles_are_untouched_witness :
  (exists saved,
      snd (DiskFixture.save DiskFixture.two_puzzles "p1" DiskFixture.harbour)
      = Ok saved)
  /\ snd (DiskFixture.delete DiskFixture.two_puzzles "p1") = Ok true
  /\ get_puzzle saved_puzzles (disk_files DiskFixture.two_puzzles) "p9" <> None
  /\ get_puzzle saved_puzzles
       (disk_files
          (fst (DiskFixture.save DiskFixture.two_puzzles "p1" DiskFixture.harbour)))
       "p9"
     = get_puzzle saved_puzzles (disk_files DiskFixture.two_puzzles) "p9"
  /\ get_puzzle saved_puzzles
       (disk_files (fst (DiskFixture.delete DiskFixture.two_puzzles "p1"))) "p9"
     = get_puzzle saved_puzzles (disk_files DiskFixture.two_puzzles) "p9".
Proof.
  assert (Hne : "p9"%string <> "p1"%string) by discriminate.
  split; [eexists; reflexivity|]. split; [reflexivity|].
  split; [discriminate|].
  split.
  - apply (other_puzzles_are_untouched Fixture.fake saved_puzzles
             (image_open (External := Fixture.fake))
             DiskFixture.size DiskFixture.thumbnail DiskFixture.encode
             (fun _ _ => false) (fun d _ => (d, None))
             DiskFixture.two_puzzles "p1" "p9" "2024-05-01T12:00:00"
             DiskFixture.harbour "Harbour"
             (fst (DiskFixture.save DiskFixture.two_puzzles "p1"
                     DiskFixture.harbour))
             eq_refl eq_refl Hne (or_introl eq_refl)).
  - apply (other_puzzles_are_untouched Fixture.fake saved_puzzles
             (image_open (External := Fixture.fake))
             DiskFixture.size DiskFixture.thumbnail DiskFixture.encode
             (fun _ _ => false) (fun d _ => (d, None))
             DiskFixture.two_puzzles "p1" "p9" "2024-05-01T12:00:00"
             DiskFixture.harbour "Harbour"
             (fst (DiskFixture.delete DiskFixture.two_puzzles "p1"))
             eq_refl eq_refl Hne (or_intror eq_refl)).
Defined.

(** X23.  With the service on the folder that the matcher reads, saving or
    deleting one puzzle changes neither the matches that [find_matches]
    returns for a piece against another puzzle nor the answer of
    [analyze_piece] to a parsed request that names the other puzzle, when
    both ids are single path components. *)
Theorem matching_ignores_other_puzzles
    (E : External)
    (puzzle_open : PieceBytes -> result Image)
    (image_size : Image -> Z * Z)
    (image_thumbnail : Image -> Z -> result Image)
    (jpeg_encode : Image -> result PieceBytes)
    (exists_elsewhere : Disk -> string -> bool)
    (rmtree_elsewhere : Disk -> string -> Disk * option string)
    (d : Disk) (puzzle_id other now : string) (image_bytes : PieceBytes)
    (puzzle_name : string) (d' : Disk) :
  component puzzle_id = true ->
  component other = true ->
  other <> puzzle_id ->
  d' = fst (save_puzzle saved_puzzles puzzle_open image_size image_thumbnail
              jpeg_encode d puzzle_id now image_bytes puzzle_name)
  \/ d' = fst (delete_puzzle saved_puzzles exists_elsewhere rmtree_elsewhere
                 d puzzle_id) ->
  (forall piece_bytes top_k,
      find_matches (disk_files d') piece_bytes other top_k
      = find_matches (disk_files d) piece_bytes other top_k)
  /\ (forall request,
         form_puzzle_id request = Some other ->
         analyze_piece (disk_files d') (Ok request)
         = analyze_piece (disk_files d) (Ok request)).
Proof.
  intros Hid Hother Hne Hd'.
  assert (Hsame : same_outside (path_join saved_puzzles puzzle_id) d d').
  { destruct Hd' as [-> | ->].
    - apply save_puzzle_same_outside.
    - now apply delete_puzzle_same_outside. }
  destruct (readers_agree_outside saved_puzzles
              (path_join saved_puzzles puzzle_id) d d' other Hsame)
    as (_ & Hget & Hload & _).
  { intros name.
    apply other_puzzle_outside; [| |assumption].
    - now apply component_parts in Hid.
    - now apply component_parts in Hother. }
  split.
  - now apply find_matches_reads.
  - intros request Hreq. apply analyze_piece_reads.
    intros id Hform. rewrite Hreq in Hform. injection Hform as <-.
    now split.
Qed.

Lemma matching_ignores_other_puzzles_witness :
  (exists saved,
      snd (DiskFixture.save DiskFixture.two_puzzles "p1" DiskFixture.harbour)
      = Ok saved)
  /\ snd (DiskFixture.delete DiskFixture.two_puzzles "p1") = Ok true
  /\ find_matches (E := Fixture.fake)
       (disk_files
          (fst (DiskFixture.save DiskFixture.two_puzzles "p1" DiskFixture.harbour)))
       Fixture.piece_a "p9" 5
     = find_matches (E := Fixture.fake)
         (disk_files DiskFixture.two_puzzles) Fixture.piece_a "p9" 5
  /\ find_matches (E := Fixture.fake)
       (disk_files (fst (DiskFixture.delete DiskFixture.two_puzzles "p1")))
       Fixture.piece_a "p9" 5
     = find_matches (E := Fixture.fake)
         (disk_files DiskFixture.two_puzzles) Fixture.piece_a "p9" 5.
Proof.
  assert (Hne : "p9"%string <> "p1"%string) by discriminate.
  split; [eexists; reflexivity|]. split; [reflexivity|].
  split.
  - apply (matching_ignores_other_puzzles Fixture.fake
             (image_open (External := Fixture.fake))
             DiskFixture.size DiskFixture.thumbnail DiskFixture.encode
             (fun _ _ => false) (fun d _ => (d, None))
             DiskFixture.two_puzzles "p1" "p9" "2024-05-01T12:00:00"
             DiskFixture.harbour "Harbour"
             (fst (DiskFixture.save DiskFixture.two_puzzles "p1"
                     DiskFixture.harbour))
             eq_refl eq_refl Hne (or_introl eq_refl)).
  - apply (matching_ignores_other_puzzles Fixture.fake
             (image_open (External := Fixture.fake))
             DiskFixture.size DiskFixture.thumbnail DiskFixture.encode
             (fun _ _ => false) (fun d _ => (d, None))
             DiskFixture.two_puzzles "p1" "p9" "2024-05-01T12:00:00"
             DiskFixture.harbour "Harbour"
             (fst (DiskFixture.delete DiskFixture.two_puzzles "p1"))
             eq_refl eq_refl Hne (or_intror eq_refl)).
Defined.

(** X24.  Once [delete_puzzle] has returned [True] for a puzzle,
    [find_matches] returns the empty list for it, and [analyze_piece]
    answers a request that names it with status 400 when the upload is
    missing or invalid and with status 404 and the error
    [Puzzle not found] otherwise; it never answers 200 or 500. *)
Theorem deleted_puzzle_is_not_matched
    (E : External)
    (exists_elsewhere : Disk -> string -> bool)
    (rmtree_elsewhere : Disk -> string -> Disk * option string)
    (d d' : Disk) (puzzle_id : string) :
  delete_puzzle saved_puzzles exists_elsewhere rmtree_elsewhere d puzzle_id
  = (d', Ok true) ->
  (forall piece_bytes top_k,
      find_matches (disk_files d') piece_bytes puzzle_id top_k = [])
  /\ (forall request,
         form_puzzle_id request = Some puzzle_id ->
         let body := fst (analyze_piece (disk_files d') (Ok request)) in
         let status := snd (analyze_piece (disk_files d') (Ok request)) in
         (status = 400%Z \/ status = 404%Z)
         /\ (status = 404%Z <->
             exists piece_file,
               files_piece request = Some piece_file
               /\ fst (validate_piece_upload piece_file) = true)
         /\ (status = 404%Z -> body = Failure "Puzzle not found" None None)).
Proof.
  intros Hdelete.
  apply delete_puzzle_true in Hdelete as [d1 ->]. split.
  - intros piece_bytes top_k. unfold find_matches.
    now rewrite rmtree_load_features.
  - intros request Hreq. cbv zeta.
    unfold analyze_piece. cbn [bind]. rewrite Hreq.
    destruct (files_piece request) as [piece_file|].
    2:{ cbn. split; [now left|]. split; [|discriminate].
        split; [discriminate|]. intros (piece_file & Hfile & _). discriminate. }
    rewrite rmtree_get_puzzle.
    destruct (validate_piece_upload piece_file) as [[|] error_msg] eqn:Hval;
      cbn.
    + split; [now right|]. split; [|reflexivity].
      split; [|reflexivity]. intros _. exists piece_file.
      now rewrite Hval.
    + split; [now left|]. split; [|discriminate].
      split; [discriminate|].
      intros (piece_file' & [= <-] & Hvalid).
      rewrite Hval in Hvalid. discriminate.
Qed.

Lemma deleted_puzzle_is_not_matched_witness :
  find_matches (E := Fixture.fake)
    (disk_files (rmtree DiskFixture.one_puzzle (path_join saved_puzzles "p9")))
    Fixture.piece_a "p9" 5 = [].
Proof.
  apply (deleted_puzzle_is_not_matched Fixture.fake
           (fun _ _ => false) (fun d _ => (d, None))
           DiskFixture.one_puzzle
           (rmtree DiskFixture.one_puzzle (path_join saved_puzzles "p9"))
           "p9" eq_refl).
Defined.
